(** * Conversational Knowledge Bot: a shallow embedding of [bot.py] and
      [langchain_bot.py], and the properties of the query pipeline. *)

From Stdlib Require Import String Ascii List Bool Arith NArith Lia.
Import ListNotations.
Local Open Scope string_scope.

Set Implicit Arguments.

(** ** Python [str] operations used by the bots

    A Python string is modelled as a [string] of code points 0..255
    (the Latin-1 range); [str.lower], [str.isspace], [str.isupper] and the
    regular-expression class [\w] are written out for that range. *)
Module Py.

Definition code (c : ascii) : N := N_of_ascii c.

Definition in_range (lo hi : N) (c : ascii) : bool :=
  ((lo <=? code c) && (code c <=? hi))%N.

(** [str.isspace] on one character: TAB..CR, FS..US, space, NEL, NBSP. *)
Definition isspace (c : ascii) : bool :=
  in_range 9 13 c || in_range 28 32 c || (code c =? 133)%N || (code c =? 160)%N.

(** [str.isupper] on one character: A..Z and the Latin-1 capitals. *)
Definition isupper (c : ascii) : bool :=
  in_range 65 90 c || (in_range 192 222 c && negb (code c =? 215)%N).

Definition lower_char (c : ascii) : ascii :=
  if isupper c then ascii_of_N (code c + 32) else c.

(** [s.lower()] *)
Fixpoint lower (s : string) : string :=
  match s with
  | EmptyString => EmptyString
  | String c r => String (lower_char c) (lower r)
  end.

(** [s.lstrip()] *)
Fixpoint lstrip (s : string) : string :=
  match s with
  | EmptyString => EmptyString
  | String c r => if isspace c then lstrip r else s
  end.

(** [s.rstrip(chars)], the characters to remove given as a predicate. *)
Fixpoint rstrip_by (p : ascii -> bool) (s : string) : string :=
  match s with
  | EmptyString => EmptyString
  | String c r =>
      match rstrip_by p r with
      | EmptyString => if p c then EmptyString else String c EmptyString
      | r' => String c r'
      end
  end.

(** [s.rstrip()] *)
Definition rstrip (s : string) : string := rstrip_by isspace s.

(** [s.strip()] *)
Definition strip (s : string) : string := rstrip (lstrip s).

(** [s.startswith(p)] *)
Definition startswith (s p : string) : bool := String.prefix p s.

(** [s[n:]] *)
Fixpoint drop (n : nat) (s : string) : string :=
  match n, s with
  | O, _ => s
  | S _, EmptyString => EmptyString
  | S m, String _ r => drop m r
  end.

(** [s[:n]] *)
Fixpoint take (n : nat) (s : string) : string :=
  match n, s with
  | O, _ => EmptyString
  | S _, EmptyString => EmptyString
  | S m, String c r => String c (take m r)
  end.

(** [needle in s] *)
Fixpoint contains (needle s : string) : bool :=
  String.prefix needle s ||
  match s with
  | EmptyString => false
  | String _ r => contains needle r
  end.

(** [not s] for a string: true on the empty string only. *)
Definition is_empty (s : string) : bool :=
  match s with EmptyString => true | _ => false end.

(** [x in xs] for a list of strings. *)
Definition mem (x : string) (xs : list string) : bool :=
  existsb (String.eqb x) xs.

(** [any(w in s for w in ws)] *)
Definition any_in (ws : list string) (s : string) : bool :=
  existsb (fun w => contains w s) ws.

(** [sep.join(xs)] *)
Fixpoint join (sep : string) (xs : list string) : string :=
  match xs with
  | [] => EmptyString
  | [x] => x
  | x :: rest => x ++ sep ++ join sep rest
  end.

(** [str.isalnum] on one character: letters, digits and the numeric
    characters of the range (superscripts and vulgar fractions). *)
Definition isalnum (c : ascii) : bool :=
  in_range 48 57 c || in_range 65 90 c || in_range 97 122 c ||
  (code c =? 170)%N || (code c =? 181)%N || (code c =? 186)%N ||
  in_range 192 214 c || in_range 216 246 c || in_range 248 255 c ||
  in_range 178 179 c || (code c =? 185)%N || in_range 188 190 c.

(** [s.split()]: the maximal runs of non-whitespace characters. *)
Fixpoint split_ws (s : string) : list string :=
  match s with
  | EmptyString => []
  | String c r =>
      if isspace c then split_ws r
      else match r with
           | EmptyString => [String c EmptyString]
           | String c' _ =>
               if isspace c' then String c EmptyString :: split_ws r
               else match split_ws r with
                    | w :: ws => String c w :: ws
                    | [] => [String c EmptyString]
                    end
           end
  end.

(** [s.split(sep)] for a one-character separator: empty pieces are kept. *)
Fixpoint split_on (sep : ascii) (s : string) : list string :=
  match s with
  | EmptyString => [EmptyString]
  | String c r =>
      if Ascii.eqb c sep then EmptyString :: split_on sep r
      else match split_on sep r with
           | w :: ws => String c w :: ws
           | [] => [String c EmptyString]
           end
  end.

(** [s.replace(old, new)] for a non-empty [old]: occurrences are replaced
    from the left and do not overlap; [skip] counts the characters of the
    occurrence being replaced that are still to be passed over. *)
Fixpoint replace_from (old new s : string) (skip : nat) : string :=
  match s with
  | EmptyString => EmptyString
  | String c r =>
      match skip with
      | S n => replace_from old new r n
      | O =>
          if String.prefix old s
          then new ++ replace_from old new r (String.length old - 1)
          else String c (replace_from old new r 0)
      end
  end.

Definition replace (old new s : string) : string := replace_from old new s 0.

(** [s[0]], which raises [IndexError] on the empty string. *)
Definition first_char (s : string) : option ascii :=
  match s with EmptyString => None | String c _ => Some c end.

(** Truth value of an [Optional[str]]: [None] and [""] are false. *)
Definition truthy (o : option string) : bool :=
  match o with Some (String _ _) => true | _ => false end.

(** [all(q(c) for c in s)] *)
Fixpoint all_chars (q : ascii -> bool) (s : string) : bool :=
  match s with
  | EmptyString => true
  | String c r => q c && all_chars q r
  end.

(** A non-empty text without whitespace. *)
Definition solid (n : string) : Prop :=
  n <> EmptyString /\ all_chars (fun c => negb (isspace c)) n = true.

(** [s[-1]], when there is one. *)
Fixpoint last_char (s : string) : option ascii :=
  match s with
  | EmptyString => None
  | String c EmptyString => Some c
  | String _ r => last_char r
  end.

(** [s.endswith(suffix)], as a proposition. *)
Definition endswith (s suffix : string) : Prop :=
  exists before, s = before ++ suffix.

(** The [for prefix in prefixes: ... break] loop of both [_clean_query]
    methods: the first prefix the lower-cased query starts with is cut off
    the original query, and the rest is trimmed. *)
Fixpoint strip_first_prefix (ps : list string) (query query_lower : string)
  : string :=
  match ps with
  | [] => query
  | p :: rest =>
      if startswith query_lower p
      then strip (drop (String.length p) query)
      else strip_first_prefix rest query query_lower
  end.

(** A text with at least one character. *)
Definition filled (s : string) : Prop := s <> EmptyString.

(** [piece] occurs in [s] as a contiguous run of its characters. *)
Definition piece_of (piece s : string) : Prop :=
  exists before after, s = before ++ piece ++ after.

(** A character [lower] leaves as it is. *)
Definition is_lowered (c : ascii) : bool := Ascii.eqb (lower_char c) c.

End Py.

(** ** The fragment of Python's [re] the bots use

    Patterns are syntax trees; matching is the backtracking search of [re]:
    alternatives are tried left to right, [+] takes as much as it can and
    gives back, [+?] takes as little as it can and extends. Repetition is
    only ever applied to a single-character class in the source. *)
Module Re.
Import Py.

Inductive regex : Type :=
| Lit (l : string)                 (* literal text *)
| Cls (p : ascii -> bool)          (* one character of a class *)
| Bol                              (* ^ *)
| Eol                              (* $ *)
| WordB                            (* \b *)
| Seq (r1 r2 : regex)
| Alt (r1 r2 : regex)
| Opt (r : regex)                  (* r? *)
| Plus (p : ascii -> bool)         (* c+ *)
| PlusLazy (p : ascii -> bool)     (* c+? *)
| Group (i : nat) (r : regex).     (* i-th capturing group *)

(** [.] matches anything but a line feed. *)
Definition dot (c : ascii) : bool := negb (code c =? 10)%N.

(** [\w] *)
Definition isword (c : ascii) : bool := isalnum c || (code c =? 95)%N.

Definition one_of (cs : string) (c : ascii) : bool :=
  existsb (Ascii.eqb c) (list_ascii_of_string cs).

Definition captures : Type := list (nat * string).

(** A position in the subject: the character before it, if any, and the
    text from it on. *)
Definition cont (R : Type) : Type :=
  option ascii -> string -> captures -> option R.

Fixpoint lit_match (l : string) (prev : option ascii) (s : string)
  : option (option ascii * string) :=
  match l with
  | EmptyString => Some (prev, s)
  | String c l' =>
      match s with
      | EmptyString => None
      | String d s' => if Ascii.eqb c d then lit_match l' (Some d) s' else None
      end
  end.

(** [c*] greedy, then the continuation. *)
Fixpoint star_greedy {R} (p : ascii -> bool) (prev : option ascii) (s : string)
  (k : option ascii -> string -> option R) : option R :=
  match s with
  | String c r =>
      if p c then
        match star_greedy p (Some c) r k with
        | Some x => Some x
        | None => k prev s
        end
      else k prev s
  | EmptyString => k prev s
  end.

(** [c*?] lazy, then the continuation. *)
Fixpoint star_lazy {R} (p : ascii -> bool) (prev : option ascii) (s : string)
  (k : option ascii -> string -> option R) : option R :=
  match k prev s with
  | Some x => Some x
  | None =>
      match s with
      | String c r => if p c then star_lazy p (Some c) r k else None
      | EmptyString => None
      end
  end.

Definition is_word_opt (o : option ascii) : bool :=
  match o with Some c => isword c | None => false end.

Definition at_eol (s : string) : bool :=
  match s with
  | EmptyString => true
  | String c EmptyString => (code c =? 10)%N
  | _ => false
  end.

Fixpoint rmatch {R} (r : regex) (prev : option ascii) (s : string)
  (caps : captures) (k : cont R) : option R :=
  match r with
  | Lit l =>
      match lit_match l prev s with
      | Some (prev', s') => k prev' s' caps
      | None => None
      end
  | Cls p =>
      match s with
      | String c s' => if p c then k (Some c) s' caps else None
      | EmptyString => None
      end
  | Bol => match prev with None => k prev s caps | Some _ => None end
  | Eol => if at_eol s then k prev s caps else None
  | WordB =>
      if xorb (is_word_opt prev) (is_word_opt (first_char s))
      then k prev s caps else None
  | Seq r1 r2 =>
      rmatch r1 prev s caps (fun prev' s' caps' => rmatch r2 prev' s' caps' k)
  | Alt r1 r2 =>
      match rmatch r1 prev s caps k with
      | Some x => Some x
      | None => rmatch r2 prev s caps k
      end
  | Opt r1 =>
      match rmatch r1 prev s caps k with
      | Some x => Some x
      | None => k prev s caps
      end
  | Plus p =>
      match s with
      | String c s' =>
          if p c then star_greedy p (Some c) s' (fun prev' s'' => k prev' s'' caps)
          else None
      | EmptyString => None
      end
  | PlusLazy p =>
      match s with
      | String c s' =>
          if p c then star_lazy p (Some c) s' (fun prev' s'' => k prev' s'' caps)
          else None
      | EmptyString => None
      end
  | Group i r1 =>
      rmatch r1 prev s caps
        (fun prev' s' caps' =>
           k prev' s' ((i, take (String.length s - String.length s') s) :: caps'))
  end.

(** A match anchored at the current position: its length and its groups. *)
Definition match_here (r : regex) (prev : option ascii) (s : string)
  : option (nat * captures) :=
  rmatch r prev s []
    (fun _ s' caps => Some (String.length s - String.length s', caps)).

(** [re.search(r, s)]: the leftmost match. *)
Fixpoint search_from (r : regex) (prev : option ascii) (s : string)
  : option captures :=
  match match_here r prev s with
  | Some (_, caps) => Some caps
  | None =>
      match s with
      | String c s' => search_from r (Some c) s'
      | EmptyString => None
      end
  end.

Definition search (r : regex) (s : string) : option captures :=
  search_from r None s.

(** [m.group(i)] of a successful match whose group [i] took part. *)
Fixpoint group (i : nat) (caps : captures) : string :=
  match caps with
  | [] => EmptyString
  | (j, t) :: rest => if Nat.eqb i j then t else group i rest
  end.

(** [re.sub(r, "", s)] for a pattern that matches no empty text: the
    matches are removed from the left; [skip] counts the characters of the
    current match still to be dropped. *)
Fixpoint sub_empty_from (r : regex) (prev : option ascii) (s : string)
  (skip : nat) : string :=
  match s with
  | EmptyString => EmptyString
  | String c s' =>
      match skip with
      | S n => sub_empty_from r (Some c) s' n
      | O =>
          match match_here r prev s with
          | Some (S n, _) => sub_empty_from r (Some c) s' n
          | _ => String c (sub_empty_from r (Some c) s' 0)
          end
      end
  end.

Definition sub_empty (r : regex) (s : string) : string :=
  sub_empty_from r None s 0.

(** [re.split(r, s)] for a pattern that matches no empty text and has no
    groups: the pieces between the matches, empty ones included. *)
Fixpoint split_from (r : regex) (prev : option ascii) (s : string)
  (skip : nat) : list string :=
  match s with
  | EmptyString => [EmptyString]
  | String c s' =>
      match skip with
      | S n => split_from r (Some c) s' n
      | O =>
          match match_here r prev s with
          | Some (S n, _) => EmptyString :: split_from r (Some c) s' n
          | _ =>
              match split_from r (Some c) s' 0 with
              | w :: ws => String c w :: ws
              | [] => [String c EmptyString]
              end
          end
      end
  end.

Definition split (r : regex) (s : string) : list string :=
  split_from r None s 0.

(** Concatenation of a list of patterns. *)
Fixpoint cat (rs : list regex) : regex :=
  match rs with
  | [] => Lit EmptyString
  | [r] => r
  | r :: rest => Seq r (cat rest)
  end.

(** Alternation of a non-empty list of literals, [a|b|c]. *)
Fixpoint alts (ls : list string) : regex :=
  match ls with
  | [] => Lit EmptyString
  | [l] => Lit l
  | l :: rest => Alt (Lit l) (alts rest)
  end.

(** Captures all of whose characters satisfy [q]. *)
Definition clean_captures (q : ascii -> bool) (caps : captures) : Prop :=
  Forall (fun c => all_chars q (snd c) = true) caps.

(** The finite set of texts a pattern built from literals, sequence,
    alternation, option and groups can match; [None] for other patterns. *)
Fixpoint words (r : regex) : option (list string) :=
  match r with
  | Lit l => Some [l]
  | Seq r1 r2 =>
      match words r1, words r2 with
      | Some ws1, Some ws2 =>
          Some (flat_map (fun w1 => map (fun w2 => w1 ++ w2) ws2) ws1)
      | _, _ => None
      end
  | Alt r1 r2 =>
      match words r1, words r2 with
      | Some ws1, Some ws2 => Some (ws1 ++ ws2)%list
      | _, _ => None
      end
  | Opt r1 =>
      match words r1 with
      | Some ws1 => Some (ws1 ++ [EmptyString])%list
      | None => None
      end
  | Group _ r1 => words r1
  | _ => None
  end.

(** A continuation whose success depends on the position only. *)
Definition by_position {R} (k : cont R) : Prop :=
  forall s pv cs pv' cs', k pv s cs <> None -> k pv' s cs' <> None.

(** A continuation that can succeed at position [s]. *)
Definition succeeds_at {R} (k : cont R) (s : string) : Prop :=
  exists pv cs, k pv s cs <> None.

End Re.

(** ** The outside world: the [wikipedia] package and the clock

    Calls to the package may raise; the code tells [PageError] and
    [DisambiguationError] from the rest. [IndexError] is what indexing a
    list or string out of range raises. Every exception here is a
    subclass of [Exception]. *)
Module Wikipedia.

Record WikipediaPage : Type := { title : string; url : string }.

Inductive exn : Type :=
| PageError (msg : string)
| DisambiguationError (msg : string) (options : list string)
| IndexError (msg : string)
| OtherException (msg : string).

(** [str(e)] *)
Definition str_of_exn (e : exn) : string :=
  match e with
  | PageError m | DisambiguationError m _ | IndexError m | OtherException m => m
  end.

(** The calls the bots make to the package, as they are logged. *)
Inductive call : Type :=
| CallSearch (query : string) (results : nat)
| CallPage (title : string) (auto_suggest : bool)
| CallSummary (title : string) (sentences : nat) (auto_suggest : bool)
| CallContent (p : WikipediaPage).

(** A provider answers each call from its own state [PS] and may change
    it, so that two equal calls need not get equal answers.
    [content] is the lazily fetched [page.content]; [now] is
    [datetime.now().isoformat()]. *)
Record Provider (PS : Type) : Type := {
  search : string -> nat -> PS -> (exn + list string) * PS;
  page : string -> bool -> PS -> (exn + WikipediaPage) * PS;
  summary : string -> nat -> bool -> PS -> (exn + string) * PS;
  content : WikipediaPage -> PS -> (exn + string) * PS;
  now : PS -> string * PS
}.

Record World (PS : Type) : Type := { pstate : PS; trace : list call }.

(** The outcome of running a method: a value or an exception in flight,
    the bot's fields and the world, both as the method left them. *)
Record Run (PS B A : Type) : Type :=
  MkRun { value : exn + A; bot : B; world : World PS }.

Definition M (PS B A : Type) : Type := B -> World PS -> Run PS B A.

Section Monad.
Context {PS B : Type}.

Definition ret {A} (a : A) : M PS B A := fun b w => MkRun (inr a) b w.

Definition bind {A C} (m : M PS B A) (f : A -> M PS B C) : M PS B C :=
  fun b w =>
    match m b w with
    | MkRun (inr a) b' w' => f a b' w'
    | MkRun (inl e) b' w' => MkRun (inl e) b' w'
    end.

Definition raise {A} (e : exn) : M PS B A := fun b w => MkRun (inl e) b w.

(** [try: m  except <any> as e: handler e]; a handler re-raises what its
    [except] clauses do not name. *)
Definition try {A} (m : M PS B A) (handler : exn -> M PS B A) : M PS B A :=
  fun b w =>
    match m b w with
    | MkRun (inr a) b' w' => MkRun (inr a) b' w'
    | MkRun (inl e) b' w' => handler e b' w'
    end.

Definition get_bot : M PS B B := fun b w => MkRun (inr b) b w.

Definition put_bot (b' : B) : M PS B unit := fun _ w => MkRun (inr tt) b' w.

Definition call_provider {A} (c : call) (f : PS -> (exn + A) * PS) : M PS B A :=
  fun b w =>
    let (r, s') := f (pstate w) in
    MkRun r b {| pstate := s'; trace := trace w ++ [c] |}.

Variable P : Provider PS.

Definition wikipedia_search (query : string) (results : nat)
  : M PS B (list string) :=
  call_provider (CallSearch query results) (search P query results).

Definition wikipedia_page (t : string) (auto_suggest : bool)
  : M PS B WikipediaPage :=
  call_provider (CallPage t auto_suggest) (page P t auto_suggest).

Definition wikipedia_summary (t : string) (sentences : nat)
  (auto_suggest : bool) : M PS B string :=
  call_provider (CallSummary t sentences auto_suggest)
                (summary P t sentences auto_suggest).

Definition page_content (p : WikipediaPage) : M PS B string :=
  call_provider (CallContent p) (content P p).

Definition datetime_now : M PS B string :=
  fun b w =>
    let (t, s') := now P (pstate w) in
    MkRun (inr t) b {| pstate := s'; trace := trace w |}.

End Monad.

(** A method that returns on every state: no exception leaves it. *)
Definition never_raises {PS B A} (m : M PS B A) : Prop :=
  forall b w, exists a b' w', m b w = MkRun (inr a) b' w'.

(** A method that returns [a] on every state. *)
Definition returns {PS B A} (m : M PS B A) (a : A) : Prop :=
  forall b w, exists b' w', m b w = MkRun (inr a) b' w'.

(** A method that raises [e] on every state. *)
Definition raises {PS B A} (m : M PS B A) (e : exn) : Prop :=
  forall b w, exists b' w', m b w = MkRun (@inl exn A e) b' w'.

(** A provider whose every call raises [e]. *)
Definition failing_provider (e : exn) : Provider unit :=
  {| search := fun _ _ s => (inl e, s);
     page := fun _ _ s => (inl e, s);
     summary := fun _ _ _ s => (inl e, s);
     content := fun _ s => (inl e, s);
     now := fun s => (EmptyString, s) |}.

(** A provider that knows one page: every lookup gives [p], whose summary
    and content are [text]; searches find nothing. *)
Definition canned_provider (p : WikipediaPage) (text : string) : Provider unit :=
  {| search := fun _ _ s => (inr [], s);
     page := fun _ _ s => (inr p, s);
     summary := fun _ _ _ s => (inr text, s);
     content := fun _ s => (inr text, s);
     now := fun s => (EmptyString, s) |}.

(** A provider that finds the page [p] but fails with [e] when the
    content of the page is read; summaries are [text]. *)
Definition contentless_provider (p : WikipediaPage) (text : string) (e : exn)
  : Provider unit :=
  {| search := fun _ _ s => (inr [], s);
     page := fun _ _ s => (inr p, s);
     summary := fun _ _ _ s => (inr text, s);
     content := fun _ s => (inl e, s);
     now := fun s => (EmptyString, s) |}.

Definition empty_world : World unit := {| pstate := tt; trace := [] |}.

(** A method that leaves the bot's fields as they were, whatever it
    returns or raises. *)
Definition keeps_bot {PS B A} (m : M PS B A) : Prop :=
  forall b w, bot (m b w) = b.

(** A method that adds at most [n] calls to the log. *)
Definition at_most_calls {PS B A} (n : nat) (m : M PS B A) : Prop :=
  forall b w,
    List.length (trace (world (m b w))) <= List.length (trace w) + n.

(** A method whose every returned value satisfies [Q]. *)
Definition answers {PS B A} (Q : A -> Prop) (m : M PS B A) : Prop :=
  forall b w a, value (m b w) = inr a -> Q a.

(** The condition on a block that may return: what it returns is good. *)
Definition when_some {A} (Q : A -> Prop) (r : option A) : Prop :=
  match r with Some a => Q a | None => True end.

Module Notations.
Declare Scope py_scope.
Delimit Scope py_scope with py.
Notation "x <- m ;; k" := (bind m (fun x => k))
  (at level 61, m at next level, right associativity) : py_scope.
Notation "m ;;; k" := (bind m (fun _ => k))
  (at level 61, right associativity) : py_scope.
End Notations.
Import Notations.
Local Open Scope py_scope.

Section Loops.
Context {PS B : Type}.

(** [for x in xs: body], where the body may [return] a value ([Some]) or
    fall through to the next element ([None]). *)
Fixpoint for_return {X A} (xs : list X) (body : X -> M PS B (option A))
  : M PS B (option A) :=
  match xs with
  | [] => ret None
  | x :: rest =>
      r <- body x ;;
      match r with
      | Some a => ret (Some a)
      | None => for_return rest body
      end
  end.

(** A block that may [return], followed by the rest of the function. *)
Definition or_else {A} (m : M PS B (option A)) (rest : M PS B A) : M PS B A :=
  r <- m ;;
  match r with
  | Some a => ret a
  | None => rest
  end.

End Loops.

End Wikipedia.

(** ** [bot.py] *)
Module Bot.
Import Py Wikipedia Wikipedia.Notations.
Local Open Scope py_scope.

Definition nl : string := String (ascii_of_nat 10) EmptyString.
Definition dq : string := String (ascii_of_nat 34) EmptyString.

(** *** [class ConversationMemory] *)

Record Entry : Type := { user : string; bot : string; timestamp : string }.

(** [history] is a [deque(maxlen=max_history)], oldest entry first. *)
Record ConversationMemory : Type := {
  maxlen : nat;
  history : list Entry;
  last_user_query : option string
}.

(** [deque.append] under a [maxlen]: the new item goes to the right end,
    and an item leaves the left end when the bound is exceeded. *)
Definition deque_append (n : nat) (d : list Entry) (x : Entry) : list Entry :=
  let d' := (d ++ [x])%list in
  if (n <? List.length d')%nat then tl d' else d'.

Definition ConversationMemory_init (max_history : nat) : ConversationMemory :=
  {| maxlen := max_history; history := []; last_user_query := None |}.

(** [save_context], with the timestamp it reads from the clock made a
    parameter. *)
Definition save_context_at (m : ConversationMemory)
  (user_input bot_response now : string) : ConversationMemory :=
  {| maxlen := maxlen m;
     history := deque_append (maxlen m) (history m)
                  {| user := user_input; bot := bot_response; timestamp := now |};
     last_user_query := Some user_input |}.

Definition load_memory (m : ConversationMemory) : string :=
  match history m with
  | [] => EmptyString
  | h =>
      join nl (flat_map (fun e => ["User: " ++ user e; "Bot: " ++ bot e]) h)
  end.

Definition get_last_user_input (m : ConversationMemory) : string :=
  match last_user_query m with
  | Some q => if is_empty q then EmptyString else q
  | None => EmptyString
  end.

Definition clear (m : ConversationMemory) : ConversationMemory :=
  {| maxlen := maxlen m; history := []; last_user_query := None |}.

(** Recording a sequence of turns, oldest first, each with the timestamp
    it was given. *)
Definition record_all (m : ConversationMemory) (turns : list Entry)
  : ConversationMemory :=
  fold_left (fun m e => save_context_at m (user e) (bot e) (timestamp e)) turns m.

(** The bound the [deque] keeps. *)
Definition bounded (m : ConversationMemory) : Prop :=
  List.length (history m) <= maxlen m.

(** *** [class KnowledgeBot]; its only field is [memory]. *)

Definition KnowledgeBot_init : ConversationMemory := ConversationMemory_init 10.

Definition prefixes : list string :=
  [ "who is"; "who was"; "who are"; "who does";
    "what is"; "what was"; "what are"; "what does";
    "where is"; "where was"; "where are"; "where does";
    "when is"; "when was"; "when are"; "when does";
    "why is"; "why was"; "why are"; "why does";
    "how is"; "how was"; "how are"; "how does";
    "tell me about"; "tell me more about"; "describe";
    "explain"; "information about"; "details about";
    "give me information about"; "i want to know about" ].

Definition _clean_query (query : string) : string :=
  let query := strip query in
  let query_lower := lower query in
  strip_first_prefix prefixes query query_lower.

Definition _handle_greeting : string :=
  " Hello! I'm your Conversational Knowledge Bot.

I can:
- Answer any factual question using Wikipedia
- Search for information about people, places, concepts, history, science, and more
- Remember our conversation for context

Try asking:
- " ++ dq ++ "Who is the CEO of Google?" ++ dq ++ "
- " ++ dq ++ "What is quantum computing?" ++ dq ++ "
- " ++ dq ++ "Where is the Taj Mahal?" ++ dq ++ "
- " ++ dq ++ "When was World War II?" ++ dq ++ "
- " ++ dq ++ "Who painted the Mona Lisa?" ++ dq ++ "
- " ++ dq ++ "What is the capital of Australia?" ++ dq ++ "

What would you like to know?".

Definition _handle_thanks : string :=
  " You're welcome! Feel free to ask more questions anytime.".

(** The bullets of this text lie outside the modelled character range and
    are kept as their UTF-8 bytes. *)
Definition _get_help : string :=
  " **HELP - Conversational Knowledge Bot**

**What I can do:**
• Answer ANY factual question using Wikipedia
• Search for information about people, places, events, concepts
• Explain topics and provide detailed information
• Provide source links for verification

**Example Questions:**
• Who is the CEO of OpenAI?
• What is artificial intelligence?
• Where is the Amazon River located?
• When did World War II end?
• Who discovered penicillin?
• What is the population of Tokyo?
• Who wrote Romeo and Juliet?
• What is photosynthesis?
• Where is the Great Barrier Reef?
• Who is the President of France?

**Tips:**
• Be specific with names and topics
• Use full names for people
• Check spelling of proper nouns

Type 'quit' to exit anytime!".

Definition prompt_for_topic : string :=
  "Please provide a specific topic to search for.".

Section WithProvider.
Context {PS : Type} (P : Provider PS).
Local Abbreviation M := (M PS ConversationMemory).

Definition save_context (user_input bot_response : string) : M unit :=
  t <- datetime_now P ;;
  m <- get_bot ;;
  put_bot (save_context_at m user_input bot_response t).

(** [try: search_results = wikipedia.search(q, results=10)  except: pass],
    from an empty [search_results]. *)
Definition search_or_nothing (q : string) : M (list string) :=
  try (wikipedia_search P q 10) (fun _ => ret []).

(** Strategy 3: windows of up to three words starting at the first three
    words; the first window with results gives them. *)
Definition key_terms_search (query : string) : M (list string) :=
  let words := split_ws query in
  if (2 <=? List.length words)%nat then
    r <- for_return (seq 0 (Nat.min 3 (List.length words)))
           (fun i =>
              let key_terms := join " " (firstn 3 (skipn i words)) in
              try (results <- wikipedia_search P key_terms 10 ;;
                   match results with
                   | [] => ret None
                   | _ => ret (Some results)
                   end)
                  (fun _ => ret None)) ;;
    match r with
    | Some results => ret results
    | None => ret []
    end
  else ret [].

Definition render (p : WikipediaPage) (summary : string) : string :=
  "**" ++ title p ++ "**" ++ nl ++ nl ++ summary ++ nl ++ nl ++
  " [Read more](" ++ url p ++ ")".

(** The body of the loop over the first five search results. *)
Definition show_result (result : string) : M (option string) :=
  try (p <- wikipedia_page P result true ;;
       summary <- wikipedia_summary P result 5 true ;;
       ret (Some (render p summary)))
      (fun e =>
         match e with
         | DisambiguationError _ options =>
             for_return (firstn 5 options)
               (fun option =>
                  try (p <- wikipedia_page P option true ;;
                       summary <- wikipedia_summary P option 5 true ;;
                       ret (Some (render p summary ++ nl ++ nl ++
                         " Multiple matches found. Showing the most relevant result.")))
                      (fun _ => ret None))
         | _ => ret None
         end).

Definition _search_wikipedia_body (query : string) : M string :=
  let clean_query := _clean_query query in
  if is_empty clean_query then ret prompt_for_topic
  else
    search_results <- search_or_nothing clean_query ;;
    search_results <-
      match search_results with
      | [] => search_or_nothing query
      | _ => ret search_results
      end ;;
    search_results <-
      match search_results with
      | [] => key_terms_search query
      | _ => ret search_results
      end ;;
    match search_results with
    | [] =>
        ret ("Could not find information about '" ++ query ++ "'." ++ nl ++ nl ++
             " Try rephrasing your question or checking the spelling.")
    | _ =>
        or_else (for_return (firstn 5 search_results) show_result)
          (ret (" Could not find information about '" ++ query ++ "'." ++ nl ++ nl ++
                " Try being more specific in your question."))
    end.

Definition _search_wikipedia (query : string) : M string :=
  try (_search_wikipedia_body query)
      (fun e => ret (" Error: " ++ str_of_exn e ++ ". Please try again.")).

Definition process_query (query : string) : M string :=
  let query := strip query in
  if is_empty query then ret "Please ask a question."
  else if mem (lower query) ["hi"; "hello"; "hey"] then ret _handle_greeting
  else if mem (lower query) ["help"; "?"] then ret _get_help
  else if contains "thank" (lower query) then ret _handle_thanks
  else
    response <- _search_wikipedia query ;;
    save_context query response ;;;
    ret response.

Definition clear_memory : M unit :=
  m <- get_bot ;; put_bot (clear m).

Definition get_memory : M string :=
  m <- get_bot ;; ret (load_memory m).

End WithProvider.

(** The inputs [process_query] answers before any search: the empty
    query, the greetings, the help commands and anything with ["thank"]. *)
Definition special_command (query : string) : bool :=
  let query := strip query in
  is_empty query
  || mem (lower query) ["hi"; "hello"; "hey"]
  || mem (lower query) ["help"; "?"]
  || contains "thank" (lower query).

End Bot.

(** ** [langchain_bot.py] *)
Module LangchainBot.
Import Py Re Wikipedia Wikipedia.Notations.
Local Open Scope py_scope.

Definition nl : string := String (ascii_of_nat 10) EmptyString.
Definition dq : string := String (ascii_of_nat 34) EmptyString.

(** *** [_extract_entity] *)

(** [kw\s+(.+?)(?:\?|$)] *)
Definition entity_pattern (kw : string) : regex :=
  cat [Lit kw; Plus isspace; Group 1 (PlusLazy dot); Alt (Lit "?") Eol].

(** The [patterns] dictionary, in insertion order. *)
Definition patterns : list (string * regex) :=
  [ ("ceo", entity_pattern "ceo of");
    ("president", entity_pattern "president of");
    ("pm", entity_pattern "prime minister of");
    ("capital", entity_pattern "capital of");
    ("who", entity_pattern "who is");
    ("what", entity_pattern "what is");
    ("tell_about", entity_pattern "tell me about");
    ("founder", entity_pattern "founder of") ].

(** [\b(the|a|an)\b] *)
Definition articles : regex :=
  cat [WordB; Group 1 (alts ["the"; "a"; "an"]); WordB].

Definition is_question_mark (c : ascii) : bool := Ascii.eqb c "?"%char.

Fixpoint first_entity (ps : list (string * regex)) (query_lower : string)
  : option string :=
  match ps with
  | [] => None
  | (_, pattern) :: rest =>
      match Re.search pattern query_lower with
      | Some m =>
          let entity := strip (group 1 m) in
          let entity := strip (sub_empty articles entity) in
          let entity := strip (rstrip_by is_question_mark entity) in
          Some entity
      | None => first_entity rest query_lower
      end
  end.

Definition _extract_entity (query : string) : option string :=
  let query_lower := strip (lower query) in
  first_entity patterns query_lower.

(** *** [_extract_entity_from_response] *)

(** [\*\*(.+?)\*\*] *)
Definition bold : regex := cat [Lit "**"; Group 1 (PlusLazy dot); Lit "**"].

(** [w[0].isupper()] *)
Definition first_isupper (w : string) : exn + bool :=
  match first_char w with
  | Some c => inr (isupper c)
  | None => inl (IndexError "string index out of range")
  end.

(** The loop over [enumerate(words)]: [words] is the list from the
    current word on. *)
Fixpoint capitalized_pair (words : list string) : exn + option string :=
  match words with
  | [] => inr None
  | word :: rest =>
      match first_isupper word with
      | inl e => inl e
      | inr up =>
          if up && (2 <? String.length word)%nat then
            match rest with
            | [] => capitalized_pair rest
            | next :: _ =>
                match first_isupper next with
                | inl e => inl e
                | inr up' =>
                    if up' then
                      let potential_name := word ++ " " ++ next in
                      if (5 <? String.length potential_name)%nat &&
                         negb (any_in ["page"; "summary"; "wikipedia"]
                                      (lower potential_name))
                      then inr (Some potential_name)
                      else capitalized_pair rest
                    else capitalized_pair rest
                end
            end
          else capitalized_pair rest
      end
  end.

Definition _extract_entity_from_response (response : string)
  : exn + option string :=
  let fallback := capitalized_pair (split_ws response) in
  match Re.search bold response with
  | Some m =>
      let title := strip (group 1 m) in
      if negb (any_in ["page"; "summary"; "wikipedia"; "list of"] (lower title))
      then inr (Some title)
      else fallback
  | None => fallback
  end.

(** *** [_is_follow_up] *)

Definition follow_up_patterns : list regex :=
  [ Seq Bol (Lit "he "); Seq Bol (Lit "she "); Seq Bol (Lit "they ");
    Seq Bol (Lit "it ");
    Seq Bol (Lit "where "); Seq Bol (Lit "when "); Seq Bol (Lit "how ");
    Seq Bol (Lit "why "); Seq Bol (Lit "which ");
    cat [Lit "what"; Opt (Group 1 (alts ["'s"; " is"; " was"])); Lit " ";
         Group 2 (alts ["his"; "her"; "their"; "its"]); Lit " "];
    Seq Bol (Lit "tell me more");
    Seq Bol (Lit "more about");
    Seq Bol (Lit "what about");
    Lit "background";
    Lit "history";
    Lit "biography";
    Lit "longest";
    Lit "shortest";
    Lit "biggest";
    Lit "smallest";
    Lit "highest";
    Lit "lowest";
    Lit "tallest";
    Lit "among them";
    Lit "of them" ].

Definition _is_follow_up (query : string) : bool :=
  let query_lower := strip (lower query) in
  existsb (fun pattern =>
             match Re.search pattern query_lower with
             | Some _ => true
             | None => false
             end) follow_up_patterns.

(** *** [_clean_query] *)

Definition prefixes : list string :=
  [ "who is"; "who was"; "what is"; "what was";
    "where is"; "where was"; "when is"; "when was";
    "tell me about"; "explain"; "describe";
    "more about"; "tell more about" ].

Definition _clean_query (query : string) : string :=
  let query := strip query in
  let query_lower := lower query in
  strip_first_prefix prefixes query query_lower.

(** *** The education formatter *)

(** [[.!?]+] *)
Definition sentence_end : regex := Plus (one_of ".!?").

Definition education_keywords : list string :=
  [ "education"; "university"; "college"; "school"; "graduated"; "degree";
    "bachelor"; "master"; "phd"; "studied"; "attended"; "alumni"; "mba" ].

(** The keyword list of the fallback path, which lacks ["mba"]. *)
Definition education_keywords_fallback : list string :=
  [ "education"; "university"; "college"; "school"; "graduated"; "degree";
    "bachelor"; "master"; "phd"; "studied"; "attended"; "alumni" ].

(** The loop that collects [education_sentences]. *)
Fixpoint collect_sentences (keywords sentences : list string) : list string :=
  match sentences with
  | [] => []
  | sentence :: rest =>
      let sentence := strip sentence in
      if negb (is_empty sentence) && any_in keywords (lower sentence)
      then sentence :: collect_sentences keywords rest
      else collect_sentences keywords rest
  end.

Definition education_sentences (keywords : list string) (text : string)
  : list string :=
  collect_sentences keywords (Re.split sentence_end text).

Definition education_header (entity_name : string) : string :=
  "**" ++ entity_name ++ " - Education**" ++ nl ++ nl.

(** The pictographs of the next two texts lie outside the modelled
    character range and are kept as their UTF-8 bytes. *)
Definition no_education_details (entity_name page_url : string) : string :=
  education_header entity_name ++
  "I couldn't find specific education details in the Wikipedia article. The biography mentions his career but not detailed educational background." ++
  nl ++ nl ++ "ðŸ”— [Read full biography](" ++ page_url ++ ")".

Definition education_hint (entity_name main_page_response : string) : string :=
  "**" ++ entity_name ++ "**" ++ nl ++ nl ++ main_page_response ++ nl ++ nl ++
  "ðŸ“š Education details may be found in the full biography above.".

(** What the [try] block answers once the page and its content are there. *)
Definition education_from_article (entity_name full_content page_url : string)
  : string :=
  let education_sentences := education_sentences education_keywords full_content in
  match education_sentences with
  | [] => no_education_details entity_name page_url
  | _ =>
      let response := education_header entity_name in
      let response := response ++ join ". " (firstn 4 education_sentences) in
      let response :=
        if (4 <? List.length education_sentences)%nat
        then response ++ "..." else response in
      response ++ nl ++ nl ++ " [Read more on Wikipedia](" ++ page_url ++ ")"
  end.

(** What the [except] block answers from the summary it was given. *)
Definition education_from_summary (entity_name main_page_response : string)
  : string :=
  let education_sentences :=
    education_sentences education_keywords_fallback main_page_response in
  match education_sentences with
  | [] => education_hint entity_name main_page_response
  | _ => education_header entity_name ++ join ". " (firstn 3 education_sentences)
  end.

(** *** The bot's fields: the fallback [SimpleMemory] and [last_entity] *)

Record LangChainKnowledgeBot : Type := {
  memory : string;                  (* [SimpleMemory.history] *)
  last_entity : option string
}.

Definition LangChainKnowledgeBot_init : LangChainKnowledgeBot :=
  {| memory := EmptyString; last_entity := None |}.

Definition _handle_greeting : string :=
  " Hello! I'm your LangChain-powered Conversational Knowledge Bot.

I can:
- Answer factual questions using Wikipedia
- Remember our conversation for follow-up questions
- Search for information about people, places, concepts, and more

Try asking:
- " ++ dq ++ "Who is the CEO of Google?" ++ dq ++ "
- " ++ dq ++ "What is quantum computing?" ++ dq ++ "
- " ++ dq ++ "Tell me about World War 2" ++ dq ++ "
- " ++ dq ++ "Capital of France" ++ dq ++ "

What would you like to know?".

Definition _handle_thanks : string :=
  " You're welcome! Feel free to ask more questions anytime.".

(** The bullets of this text lie outside the modelled character range and
    are kept as their UTF-8 bytes. *)
Definition _get_help : string :=
  " **HELP - LangChain Knowledge Bot**

**What I can do:**
â€¢ Answer factual questions using Wikipedia
â€¢ Remember conversation context for follow-ups
â€¢ Search for information about any topic

**Example Questions:**
â€¢ Who is the CEO of OpenAI?
â€¢ What is artificial intelligence?
â€¢ Tell me about World War 2
â€¢ President of United States
â€¢ Capital of France

**LangChain Components Used:**
1. ConversationBufferMemory - Stores conversation history
2. Memory.save_context() - Saves exchanges
3. Memory.load_memory_variables() - Retrieves history

Type 'quit' to exit anytime!".

Definition prompt_for_topic : string := "Please provide a specific topic.".

Definition page_block (p : WikipediaPage) (summary : string) : string :=
  "**" ++ title p ++ "**" ++ nl ++ nl ++ summary ++ nl ++ nl.

Section WithProvider.
Context {PS : Type} (P : Provider PS).
Local Abbreviation M := (M PS LangChainKnowledgeBot).

Definition lift {A} (r : exn + A) : M A :=
  match r with
  | inl e => raise e
  | inr a => ret a
  end.

(** [SimpleMemory.save_context({"input": q}, {"response": r})] *)
Definition save_context (input_text response_text : string) : M unit :=
  b <- get_bot ;;
  put_bot {| memory := memory b ++ "Human: " ++ input_text ++ nl ++
                       "AI: " ++ response_text ++ nl;
             last_entity := last_entity b |}.

(** [SimpleMemory.load_memory_variables({}).get("history", "")] *)
Definition load_history : M string :=
  b <- get_bot ;; ret (memory b).

Definition set_last_entity (e : option string) : M unit :=
  b <- get_bot ;; put_bot {| memory := memory b; last_entity := e |}.

(** The [except: pass] and [except: continue] of a block that may return. *)
Definition swallowing {A} (m : M (option A)) : M (option A) :=
  try m (fun _ => ret None).

Definition ceo_indicators_direct : list string :=
  [ "chief executive officer"; "ceo"; "executive"; "born"; "appointed";
    "sundar pichai"; "tim cook"; "satya nadella"; "mark zuckerberg" ].

Definition ceo_indicators_search : list string :=
  [ "chief executive officer"; "ceo"; "executive"; "born"; "appointed";
    "sundar pichai"; "tim cook"; "satya nadella"; "mark zuckerberg";
    "business executive"; "american business"; "indian business" ].

Definition ceo_indicators_general : list string :=
  [ "chief executive officer"; "ceo"; "executive"; "born"; "appointed";
    "business executive"; "american business"; "indian business" ].

Definition person_indicators : list string :=
  [ "born"; "businessman"; "executive"; "ceo" ].

(** The acceptance test of the two search-result loops. *)
Definition looks_like_ceo (indicators : list string) (company_name : string)
  (p : WikipediaPage) (summary : string) : bool :=
  let summary_lower := lower summary in
  let page_title_lower := lower (title p) in
  (any_in indicators summary_lower || any_in person_indicators page_title_lower)
  && (negb (contains (lower company_name) page_title_lower)
      || contains "ceo" (lower page_title_lower)).

(** The body of a search-result loop of the CEO branch. *)
Definition ceo_candidate (indicators : list string) (company_name : string)
  (sentences : nat) (read_more : string) (result : string) : M (option string) :=
  swallowing
    (p <- wikipedia_page P result false ;;
     summary <- wikipedia_summary P result sentences false ;;
     if looks_like_ceo indicators company_name p summary
     then ret (Some (page_block p summary ++ read_more ++ "(" ++ url p ++ ")"))
     else ret None).

Definition ceo_branch (clean_query : string) : M (option string) :=
  let company_name := strip (replace "CEO of" "" clean_query) in
  let search_attempts :=
    [ company_name ++ " CEO";
      "CEO of " ++ company_name;
      company_name ++ " chief executive officer";
      "List of " ++ company_name ++ " executives";
      "Current " ++ company_name ++ " CEO";
      company_name ++ " leadership" ] in
  r <- for_return search_attempts
         (fun search_term =>
            swallowing
              (p <- wikipedia_page P search_term false ;;
               summary <- wikipedia_summary P search_term 8 false ;;
               if any_in ceo_indicators_direct (lower summary)
               then ret (Some (page_block p summary ++
                               " [Read more](" ++ url p ++ ")"))
               else ret None)) ;;
  match r with
  | Some response => ret (Some response)
  | None =>
  r <- for_return search_attempts
         (fun search_term =>
            swallowing
              (search_results <- wikipedia_search P search_term 10 ;;
               for_return search_results
                 (ceo_candidate ceo_indicators_search company_name 6
                                " [Read more]"))) ;;
  match r with
  | Some response => ret (Some response)
  | None =>
  let general_searches :=
    [ company_name ++ " chief executive officer";
      company_name ++ " CEO biography";
      company_name ++ " leadership team";
      "List of " ++ company_name ++ " executives" ] in
  r <- swallowing
         (for_return general_searches
            (fun search_term =>
               search_results <- wikipedia_search P search_term 5 ;;
               for_return search_results
                 (ceo_candidate ceo_indicators_general company_name 8
                                "[Read more]"))) ;;
  match r with
  | Some response => ret (Some response)
  | None =>
  try (p <- wikipedia_page P company_name false ;;
       summary <- wikipedia_summary P company_name 10 false ;;
       ret (Some (page_block p summary ++ " [Read more](" ++ url p ++ ")" ++
                  nl ++ nl ++
                  " CEO information may be available in a separate Wikipedia page. Try searching for the CEO's name directly.")))
      (fun e =>
         match e with
         | PageError _ => ret None
         | DisambiguationError _ _ => ret None
         | _ => raise e
         end)
  end end end.

(** The handler of [DisambiguationError] in the general search. *)
Definition on_disambiguation (clean_query : string) (options : list string)
  : M (option string) :=
  r <- for_return (firstn 5 options)
         (fun option =>
            if contains (lower clean_query) (lower option) ||
               contains (lower option) (lower clean_query)
            then
              swallowing
                (p <- wikipedia_page P option true ;;
                 summary <- wikipedia_summary P option 5 true ;;
                 ret (Some (page_block p summary ++
                            " [Read more](" ++ url p ++ ")" ++ nl ++ nl ++
                            " Multiple matches found.")))
            else ret None) ;;
  match r with
  | Some response => ret (Some response)
  | None =>
      swallowing
        (first <- match options with
                  | [] => raise (IndexError "list index out of range")
                  | o :: _ => ret o
                  end ;;
         p <- wikipedia_page P first true ;;
         summary <- wikipedia_summary P first 5 true ;;
         ret (Some (page_block p summary ++ "[Read more](" ++ url p ++ ")")))
  end.

(** The handler of [PageError] in the general search. *)
Definition on_page_error (clean_query : string) : M (option string) :=
  swallowing
    (search_results <- wikipedia_search P clean_query 10 ;;
     r <- for_return (firstn 5 search_results)
            (fun result =>
               if contains (lower clean_query) (lower result)
               then
                 swallowing
                   (p <- wikipedia_page P result true ;;
                    summary <- wikipedia_summary P result 5 true ;;
                    ret (Some (page_block p summary ++
                               " [Read more](" ++ url p ++ ")")))
               else ret None) ;;
     match r with
     | Some response => ret (Some response)
     | None =>
         match search_results with
         | [] => ret None
         | first :: _ =>
             swallowing
               (p <- wikipedia_page P first true ;;
                summary <- wikipedia_summary P first 5 true ;;
                ret (Some (page_block p summary ++
                           " [Read more](" ++ url p ++ ")")))
         end
     end).

Definition general_search (clean_query : string) : M (option string) :=
  try (p <- wikipedia_page P clean_query false ;;
       summary <- wikipedia_summary P clean_query 5 false ;;
       ret (Some (page_block p summary ++ "[Read more](" ++ url p ++ ")")))
      (fun e =>
         match e with
         | DisambiguationError _ options => on_disambiguation clean_query options
         | PageError _ => on_page_error clean_query
         | _ => raise e
         end).

Definition _search_wikipedia_direct_body (query : string) : M string :=
  let clean_query := _clean_query query in
  if is_empty clean_query then ret prompt_for_topic
  else
    or_else (if contains "CEO of" clean_query
             then ceo_branch clean_query else ret None)
   (or_else (general_search clean_query)
      (ret (" Could not find information about '" ++ clean_query ++ "'." ++
            nl ++ nl ++ " Try rephrasing your question."))).

Definition _search_wikipedia_direct (query : string) : M string :=
  try (_search_wikipedia_direct_body query)
      (fun e => ret (" Error searching Wikipedia: " ++ str_of_exn e)).

Definition _extract_education_info (main_page_response entity_name : string)
  : M string :=
  try (p <- wikipedia_page P entity_name false ;;
       full_content <- page_content P p ;;
       ret (education_from_article entity_name full_content (url p)))
      (fun _ => ret (education_from_summary entity_name main_page_response)).

(** The second loop of [_extract_last_topic_from_history], over the
    reversed lines. *)
Fixpoint last_human_topic (lines : list string) : string :=
  match lines with
  | [] => EmptyString
  | line :: rest =>
      if startswith line "Human:" then
        let human_question := strip (replace "Human:" "" line) in
        let entity := _extract_entity human_question in
        match entity with
        | Some (String c e) => String c e
        | _ =>
            if (3 <? String.length human_question)%nat then human_question
            else last_human_topic rest
        end
      else last_human_topic rest
  end.

Definition _extract_last_topic_from_history (history : string) : string :=
  if is_empty history then EmptyString
  else
    let lines := split_on (ascii_of_nat 10) history in
    let last_ai_response :=
      match find (fun line => startswith line "AI:") (rev lines) with
      | Some line => line
      | None => EmptyString
      end in
    let from_human := last_human_topic (rev lines) in
    if is_empty last_ai_response then from_human
    else
      match Re.search bold last_ai_response with
      | Some m =>
          let topic := strip (group 1 m) in
          if negb (any_in ["page"; "summary"; "wikipedia"] (lower topic))
          then topic else from_human
      | None => from_human
      end.

Definition _handle_follow_up (query : string) : M string :=
  let query_lower := strip (lower query) in
  b <- get_bot ;;
  last_topic <-
    (if truthy (last_entity b)
     then ret (match last_entity b with Some t => t | None => EmptyString end)
     else history <- load_history ;;
          ret (_extract_last_topic_from_history history)) ;;
  if is_empty last_topic then ret EmptyString
  else if any_in ["study"; "education"; "college"; "university"] query_lower then
    education_result <- _search_wikipedia_direct (last_topic ++ " education") ;;
    if negb (is_empty education_result) &&
       negb (contains "Could not find" education_result)
    then
      if contains (lower last_topic) (lower education_result) &&
         negb (contains "education" (lower education_result))
      then _extract_education_info education_result last_topic
      else ret education_result
    else
      main_page <- _search_wikipedia_direct last_topic ;;
      _extract_education_info main_page last_topic
  else if any_in ["party"; "political"; "belongs"] query_lower then
    _search_wikipedia_direct (last_topic ++ " political party")
  else if any_in ["born"; "birthplace"; "from"] query_lower then
    _search_wikipedia_direct (last_topic ++ " birthplace")
  else if any_in ["profession"; "work"; "career"] query_lower then
    _search_wikipedia_direct (last_topic ++ " profession")
  else if any_in ["where"; "when"; "how"; "what"] query_lower then
    _search_wikipedia_direct (last_topic ++ " " ++ query)
  else
    _search_wikipedia_direct last_topic.

(** The part of [process_query] after the special commands. *)
Definition answer (query : string) : M string :=
  let entity := _extract_entity query in
  r <- (if _is_follow_up query then
          follow_up_response <- _handle_follow_up query ;;
          if negb (is_empty follow_up_response) &&
             negb (contains "Could not find" follow_up_response)
          then save_context query follow_up_response ;;;
               ret (Some follow_up_response)
          else ret None
        else ret None) ;;
  match r with
  | Some response => ret response
  | None =>
      (if truthy entity && negb (_is_follow_up query)
       then set_last_entity None else ret tt) ;;;
      let search_query :=
        match entity with
        | Some (String c e) =>
            let entity := String c e in
            let query_lower := lower query in
            if contains "ceo" query_lower then "CEO of " ++ entity
            else if contains "president" query_lower then "President of " ++ entity
            else if contains "capital" query_lower then entity ++ " (capital)"
            else entity
        | _ => query
        end in
      response <- _search_wikipedia_direct search_query ;;
      extracted_entity <- lift (_extract_entity_from_response response) ;;
      (if truthy extracted_entity then set_last_entity extracted_entity
       else if truthy entity then set_last_entity entity
       else ret tt) ;;;
      save_context query response ;;;
      ret response
  end.

Definition process_query (query : string) : M string :=
  let query := strip query in
  if is_empty query then ret "Please ask a question."
  else if mem (lower query) ["hi"; "hello"; "hey"] then
    let response := _handle_greeting in
    save_context query response ;;; ret response
  else if mem (lower query) ["help"; "?"] then
    let response := _get_help in
    save_context query response ;;; ret response
  else if contains "thank" (lower query) then
    let response := _handle_thanks in
    save_context query response ;;; ret response
  else answer query.

Definition clear_memory : M unit :=
  put_bot {| memory := EmptyString; last_entity := None |}.

End WithProvider.

(** [get_memory] and [get_conversation_history], on the bot's fields. *)
Definition get_memory (b : LangChainKnowledgeBot) : string := memory b.

Definition get_conversation_history (b : LangChainKnowledgeBot) : string :=
  let history := memory b in
  if is_empty history then "No conversation history yet." else history.

(** The text [save_context] appends for one exchange. *)
Definition exchange (input_text response_text : string) : string :=
  "Human: " ++ input_text ++ nl ++ "AI: " ++ response_text ++ nl.

(** A step that returns [tt] and leaves the history alone. *)
Definition history_neutral {PS : Type} (m : M PS LangChainKnowledgeBot unit)
  : Prop :=
  forall b w, exists b' w', m b w = MkRun (inr tt) b' w' /\ memory b' = memory b.

(** The patterns of [_is_follow_up] that must open the query, and those
    that may stand anywhere in it, as the literal texts they look for. *)
Definition opening_phrases : list string :=
  [ "he "; "she "; "they "; "it ";
    "where "; "when "; "how "; "why "; "which ";
    "tell me more"; "more about"; "what about" ].

Definition floating_phrases : list string :=
  [ "background"; "history"; "biography"; "longest"; "shortest"; "biggest";
    "smallest"; "highest"; "lowest"; "tallest"; "among them"; "of them" ].

(** A character a page title may hold for the bold pattern to frame it:
    anything but a line feed and an asterisk. *)
Definition title_char (c : ascii) : bool :=
  Re.dot c && negb (Ascii.eqb c "*"%char).

(** The phrases the entity patterns start from, in pattern order. *)
Definition trigger_phrases : list string := map (fun kw_pattern =>
  match snd kw_pattern with
  | Re.Seq (Re.Lit kw) _ => kw
  | _ => EmptyString
  end) patterns.

(** The texts the possessive pattern of [_is_follow_up] can match. *)
Definition possessive_phrases : list string :=
  match Re.words (nth 9 follow_up_patterns (Lit EmptyString)) with
  | Some ws => ws
  | None => []
  end.

End LangchainBot.

(** * Properties *)

(** ** Facts about the string model *)
Section StringFacts.
Import Py.

Lemma rstrip_by_idem (p : ascii -> bool) (s : string) :
  rstrip_by p (rstrip_by p s) = rstrip_by p s.
Proof.
  induction s as [|c r IH]; simpl; [reflexivity|].
  destruct (rstrip_by p r) as [|c' r'] eqn:E.
  - destruct (p c) eqn:Ec; simpl; [reflexivity|].
    now rewrite Ec.
  - simpl. simpl in IH.
    destruct (rstrip_by p r') eqn:E'.
    + destruct (p c'); [discriminate IH|]. now inversion IH.
    + now inversion IH.
Qed.

Lemma rstrip_idem (s : string) : rstrip (rstrip s) = rstrip s.
Proof. apply rstrip_by_idem. Qed.

Lemma rstrip_head (s : string) :
  match s with
  | String c _ => isspace c = false ->
                  match rstrip s with String c' _ => c' = c | "" => False end
  | "" => True
  end.
Proof.
  destruct s as [|c r]; [exact I|]. intros Hc. unfold rstrip. simpl.
  destruct (rstrip_by isspace r); [now rewrite Hc|reflexivity].
Qed.

Lemma lstrip_head (s : string) :
  match lstrip s with String c _ => isspace c = false | "" => True end.
Proof.
  induction s as [|c r IH]; simpl; [exact I|].
  destruct (isspace c) eqn:E; [exact IH|exact E].
Qed.

Lemma lstrip_fix (s : string) :
  match s with String c _ => isspace c = false | "" => True end ->
  lstrip s = s.
Proof. destruct s as [|c r]; simpl; [reflexivity|]. now intros ->. Qed.

Lemma strip_idem (s : string) : strip (strip s) = strip s.
Proof.
  unfold strip.
  assert (H : lstrip (rstrip (lstrip s)) = rstrip (lstrip s)).
  { apply lstrip_fix.
    pose proof (lstrip_head s) as Hh.
    pose proof (rstrip_head (lstrip s)) as Hr.
    destruct (lstrip s) as [|c r]; [exact I|].
    specialize (Hr Hh).
    destruct (rstrip (String c r)); [exact I|now subst]. }
  rewrite H. apply rstrip_idem.
Qed.

End StringFacts.

(** ** The query normalizer *)
Section Normalizer.
Import Py Bot.

Lemma strip_first_prefix_stripped (ps : list string) (q ql : string) :
  strip q = q -> strip (strip_first_prefix ps q ql) = strip_first_prefix ps q ql.
Proof.
  intros Hq. induction ps as [|p rest IH]; simpl; [exact Hq|].
  destruct (startswith ql p); [apply strip_idem|exact IH].
Qed.

Lemma clean_query_stripped (q : string) :
  strip (_clean_query q) = _clean_query q.
Proof. apply strip_first_prefix_stripped, strip_idem. Qed.

Lemma strip_first_prefix_cases (ps : list string) (q ql : string) :
  (strip_first_prefix ps q ql = q /\
   forall p, In p ps -> startswith ql p = false) \/
  (exists p, In p ps /\ startswith ql p = true /\
             strip_first_prefix ps q ql = strip (drop (String.length p) q)).
Proof.
  induction ps as [|p rest IH]; simpl.
  - left. split; [reflexivity|]. intros p [].
  - destruct (startswith ql p) eqn:E.
    + right. exists p. auto.
    + destruct IH as [[H1 H2]|(p' & Hin & Hs & Heq)].
      * left. split; [exact H1|]. intros p' [<-|Hin]; auto.
      * right. exists p'. auto.
Qed.

Lemma strip_first_prefix_none (ps : list string) (q ql : string) :
  (forall p, In p ps -> startswith ql p = false) ->
  strip_first_prefix ps q ql = q.
Proof.
  induction ps as [|p rest IH]; simpl; intros H; [reflexivity|].
  rewrite (H p (or_introl eq_refl)). apply IH. intros p' Hp'. apply H. now right.
Qed.

(** C5. [_clean_query "Who is Marie Curie?"] is ["Marie Curie?"]; in general
    the result is either the trimmed input, or the trimmed input with one
    listed prefix (matched on the lower-cased copy) cut from its front and
    trimmed again: the characters that remain are those of the input, in
    their original case. *)
Theorem clean_query_marie_curie :
  _clean_query "Who is Marie Curie?" = "Marie Curie?" /\
  _clean_query "  Who is Marie Curie?  " = "Marie Curie?" /\
  forall q : string,
    (_clean_query q = strip q /\
     forall p, In p prefixes -> startswith (lower (strip q)) p = false) \/
    (exists p, In p prefixes /\ startswith (lower (strip q)) p = true /\
               _clean_query q = strip (drop (String.length p) (strip q))).
Proof.
  split; [reflexivity|]. split; [reflexivity|].
  intros q. unfold _clean_query. apply strip_first_prefix_cases.
Qed.

(** C6 as stated fails for both normalizers: a query that carries two
    prefixes loses one per pass. *)
Lemma clean_query_not_idempotent :
  ~ (forall x : string, _clean_query (_clean_query x) = _clean_query x) /\
  ~ (forall x : string,
       LangchainBot._clean_query (LangchainBot._clean_query x)
       = LangchainBot._clean_query x).
Proof.
  split; intros H; specialize (H "who is who is a");
    vm_compute in H; discriminate H.
Qed.

(** C6, amended. Once no listed prefix matches the normalized text, a
    second pass changes nothing; this holds for the normalizer of either
    bot with its own prefix list. *)
Theorem clean_query_idempotent_once_no_prefix (x : string) :
  ((forall p, In p prefixes -> startswith (lower (_clean_query x)) p = false) ->
   _clean_query (_clean_query x) = _clean_query x) /\
  ((forall p, In p LangchainBot.prefixes ->
              startswith (lower (LangchainBot._clean_query x)) p = false) ->
   LangchainBot._clean_query (LangchainBot._clean_query x)
   = LangchainBot._clean_query x).
Proof.
  split; intros H.
  - unfold _clean_query at 1.
    rewrite clean_query_stripped. cbv zeta.
    now apply strip_first_prefix_none.
  - unfold LangchainBot._clean_query at 1.
    assert (Hs : strip (LangchainBot._clean_query x) = LangchainBot._clean_query x)
      by apply strip_first_prefix_stripped, strip_idem.
    rewrite Hs. cbv zeta.
    now apply strip_first_prefix_none.
Qed.

Lemma clean_query_idempotent_once_no_prefix_witness :
  _clean_query (_clean_query "Who is Marie Curie?")
  = _clean_query "Who is Marie Curie?" /\
  LangchainBot._clean_query (LangchainBot._clean_query "Tell me about Ada")
  = LangchainBot._clean_query "Tell me about Ada".
Proof.
  split.
  - apply (proj1 (clean_query_idempotent_once_no_prefix "Who is Marie Curie?")).
    intros p Hp. simpl in Hp.
    repeat (destruct Hp as [<-|Hp]; [vm_compute; reflexivity|]).
    destruct Hp.
  - apply (proj2 (clean_query_idempotent_once_no_prefix "Tell me about Ada")).
    intros p Hp. simpl in Hp.
    repeat (destruct Hp as [<-|Hp]; [vm_compute; reflexivity|]).
    destruct Hp.
Defined.

End Normalizer.

(** ** Entity extraction and follow-up classification *)
Section Patterns.
Import Py LangchainBot.

(** C7. On the two example questions [_extract_entity] gives the company
    with the role words and the article removed, and the bare topic. *)
Theorem extract_entity_examples :
  _extract_entity "Who is the CEO of Google?" = Some "google" /\
  _extract_entity "What is quantum computing?" = Some "quantum computing".
Proof. split; vm_compute; reflexivity. Qed.

(** C8. A question opening with a bare wh-word is a follow-up; the
    capital question matches none of the patterns. *)
Theorem is_follow_up_examples :
  _is_follow_up "Where was he born?" = true /\
  _is_follow_up "What is the capital of France?" = false.
Proof. split; vm_compute; reflexivity. Qed.

End Patterns.

(** ** The conversation memory *)
Section Memory.
Import Bot.

Lemma deque_append_length (n : nat) (d : list Entry) (x : Entry) :
  List.length d <= n -> List.length (deque_append n d x) <= n.
Proof.
  intros H. unfold deque_append.
  destruct (Nat.ltb_spec n (List.length (d ++ [x]))) as [Hlt|Hge].
  - destruct (d ++ [x])%list eqn:E; simpl in *; [lia|].
    assert (Hl : List.length (d ++ [x]) = S (List.length l)) by now rewrite E.
    rewrite length_app in Hl. simpl in Hl. lia.
  - exact Hge.
Qed.

Lemma skipn_tl {A} (n : nat) (l : list A) : skipn n (tl l) = skipn (S n) l.
Proof. destruct l; simpl; [now destruct n|reflexivity]. Qed.

Lemma deque_append_window (n : nat) (d rest : list Entry) (x : Entry) :
  List.length d <= n ->
  let l' := (deque_append n d x ++ rest)%list in
  let l := (d ++ x :: rest)%list in
  skipn (List.length l' - n) l' = skipn (List.length l - n) l.
Proof.
  intros H. cbv zeta. unfold deque_append.
  assert (Happ : ((d ++ [x]) ++ rest = d ++ x :: rest)%list)
    by now rewrite <- app_assoc.
  destruct (Nat.ltb_spec n (List.length (d ++ [x]))) as [Hlt|Hge].
  - assert (Htl : (tl (d ++ [x]) ++ rest = tl (d ++ x :: rest))%list).
    { rewrite <- Happ. destruct d; reflexivity. }
    rewrite Htl, skipn_tl. f_equal.
    rewrite length_app in Hlt. simpl in Hlt.
    assert (Hlen : List.length (d ++ x :: rest) = List.length d + S (List.length rest))
      by now rewrite length_app.
    assert (Hlen' : List.length (tl (d ++ x :: rest)) = List.length d + List.length rest).
    { destruct d; simpl in *; [reflexivity|]. rewrite length_app. simpl. lia. }
    lia.
  - now rewrite Happ.
Qed.

Lemma record_all_cons (e : Entry) (rest : list Entry) (m : ConversationMemory) :
  record_all m (e :: rest)
  = record_all (save_context_at m (user e) (bot e) (timestamp e)) rest.
Proof. reflexivity. Qed.

Lemma record_all_window (turns : list Entry) (m : ConversationMemory) :
  bounded m ->
  let l := (history m ++ turns)%list in
  history (record_all m turns) = skipn (List.length l - maxlen m) l.
Proof.
  revert m. induction turns as [|e rest IH]; intros m Hm; cbv zeta.
  - simpl. rewrite app_nil_r.
    unfold bounded in Hm.
    replace (List.length (history m) - maxlen m) with 0 by lia. reflexivity.
  - rewrite record_all_cons, IH.
    + simpl. destruct e as [u b t]. simpl.
      apply deque_append_window. exact Hm.
    + unfold bounded. simpl. apply deque_append_length. exact Hm.
Qed.

(** C4. Recording K+1 turns into an empty memory of capacity K leaves the
    last K of them, in order: the first turn recorded is the one evicted.
    Creation, [save_context] and [clear] all keep at most [maxlen] turns,
    and the window after any sequence of turns is its last [maxlen] ones. *)
Theorem memory_sliding_window (K : nat) (turns : list Entry) :
  1 <= K ->
  List.length turns = K + 1 ->
  history (record_all (ConversationMemory_init K) turns) = tl turns /\
  List.length (history (record_all (ConversationMemory_init K) turns)) = K /\
  (forall ts : list Entry,
     history (record_all (ConversationMemory_init K) ts)
     = skipn (List.length ts - K) ts) /\
  bounded (ConversationMemory_init K) /\
  (forall m u b t, bounded m -> bounded (save_context_at m u b t)) /\
  (forall m, bounded (clear m)).
Proof.
  intros HK Hlen.
  assert (Hgen : forall ts : list Entry,
             history (record_all (ConversationMemory_init K) ts)
             = skipn (List.length ts - K) ts).
  { intros ts. rewrite record_all_window; [reflexivity|].
    unfold bounded. simpl. lia. }
  repeat split.
  - rewrite Hgen, Hlen. replace (K + 1 - K) with 1 by lia.
    destruct turns; reflexivity.
  - rewrite Hgen, Hlen. replace (K + 1 - K) with 1 by lia.
    destruct turns; simpl in *; lia.
  - exact Hgen.
  - unfold bounded. simpl. lia.
  - intros m u b t Hm. unfold bounded. simpl.
    apply deque_append_length. exact Hm.
  - intros m. unfold bounded. simpl. lia.
Qed.

Lemma memory_sliding_window_witness :
  let t1 := {| user := "a"; bot := "A"; timestamp := "1" |} in
  let t2 := {| user := "b"; bot := "B"; timestamp := "2" |} in
  let t3 := {| user := "c"; bot := "C"; timestamp := "3" |} in
  history (record_all (ConversationMemory_init 2) [t1; t2; t3]) = [t2; t3].
Proof.
  intros t1 t2 t3.
  refine (proj1 (memory_sliding_window (K := 2) [t1; t2; t3] _ _)).
  - lia.
  - reflexivity.
Defined.

End Memory.

(** ** Methods that cannot raise *)
Section Safety.
Import Py Wikipedia Wikipedia.Notations.
Local Open Scope py_scope.
Context {PS B : Type}.

Lemma ret_never_raises {A} (a : A) : never_raises (@ret PS B A a).
Proof. intros b w. now exists a, b, w. Qed.

Lemma bind_never_raises {A C} (m : M PS B A) (f : A -> M PS B C) :
  never_raises m -> (forall a, never_raises (f a)) -> never_raises (bind m f).
Proof.
  intros Hm Hf b w. unfold bind.
  destruct (Hm b w) as (a & b' & w' & ->). apply Hf.
Qed.

Lemma try_never_raises {A} (m : M PS B A) (h : exn -> M PS B A) :
  (forall e, never_raises (h e)) -> never_raises (try m h).
Proof.
  intros Hh b w. unfold try.
  destruct (m b w) as [[e|a] b' w'].
  - apply Hh.
  - now exists a, b', w'.
Qed.

Lemma for_return_never_raises {X A} (xs : list X)
  (body : X -> M PS B (option A)) :
  (forall x, never_raises (body x)) -> never_raises (for_return xs body).
Proof.
  intros Hb. induction xs as [|x rest IH]; simpl.
  - apply ret_never_raises.
  - apply bind_never_raises; [apply Hb|].
    intros [a|]; [apply ret_never_raises|exact IH].
Qed.

Lemma or_else_never_raises {A} (m : M PS B (option A)) (rest : M PS B A) :
  never_raises m -> never_raises rest -> never_raises (or_else m rest).
Proof.
  intros Hm Hr. unfold or_else. apply bind_never_raises; [exact Hm|].
  intros [a|]; [apply ret_never_raises|exact Hr].
Qed.

Lemma get_bot_never_raises : never_raises (@get_bot PS B).
Proof. intros b w. now exists b, b, w. Qed.

Lemma put_bot_never_raises (b0 : B) : never_raises (@put_bot PS B b0).
Proof. intros b w. now exists tt, b0, w. Qed.

Lemma datetime_now_never_raises (P : Provider PS) :
  never_raises (@datetime_now PS B P).
Proof.
  intros b w. unfold datetime_now.
  destruct (now P (pstate w)) as [t s']. eauto.
Qed.

End Safety.

Ltac safe :=
  repeat match goal with
    | |- Wikipedia.never_raises (Wikipedia.ret _) => apply ret_never_raises
    | |- Wikipedia.never_raises Wikipedia.get_bot => apply get_bot_never_raises
    | |- Wikipedia.never_raises (Wikipedia.put_bot _) =>
        apply put_bot_never_raises
    | |- Wikipedia.never_raises (Wikipedia.datetime_now _) =>
        apply datetime_now_never_raises
    | |- Wikipedia.never_raises (Wikipedia.try _ _) =>
        apply try_never_raises; intros ?
    | |- Wikipedia.never_raises (Wikipedia.bind _ _) =>
        apply bind_never_raises; [|intros ?]
    | |- Wikipedia.never_raises (Wikipedia.for_return _ _) =>
        apply for_return_never_raises; intros ?
    | |- Wikipedia.never_raises (Wikipedia.or_else _ _) =>
        apply or_else_never_raises
    | |- Wikipedia.never_raises (match ?x with _ => _ end) => destruct x
    | |- Wikipedia.never_raises (if ?x then _ else _) => destruct x
    end.

(** ** [process_query] never raises *)
Section NeverRaises.
Import Py Wikipedia Wikipedia.Notations.
Local Open Scope py_scope.

Lemma split_ws_nonempty (s : string) :
  Forall (fun w => w <> EmptyString) (split_ws s).
Proof.
  induction s as [|c r IH]; simpl; [constructor|].
  destruct (isspace c); [exact IH|].
  destruct r as [|c' r']; [repeat constructor; discriminate|].
  destruct (isspace c').
  - constructor; [discriminate|exact IH].
  - destruct (split_ws (String c' r')) as [|w ws].
    + repeat constructor; discriminate.
    + inversion IH; subst. constructor; [discriminate|assumption].
Qed.

Lemma capitalized_pair_returns (words : list string) :
  Forall (fun w => w <> EmptyString) words ->
  exists r, LangchainBot.capitalized_pair words = inr r.
Proof.
  induction 1 as [|word rest Hw Hrest IH]; [simpl; eauto|].
  destruct IH as [r0 Hr0].
  cbn [LangchainBot.capitalized_pair]. rewrite Hr0.
  destruct word as [|c word']; [contradiction|].
  cbn [LangchainBot.first_isupper first_char].
  destruct (isupper c && (2 <? String.length (String c word'))%nat); [|eauto].
  destruct rest as [|next rest']; [eauto|].
  inversion Hrest as [|? ? Hn ?]; subst.
  destruct next as [|d next']; [contradiction|].
  cbn [LangchainBot.first_isupper first_char].
  destruct (isupper d); [|eauto].
  match goal with |- context [if ?x then _ else _] => destruct x end; eauto.
Qed.

Lemma extract_entity_from_response_returns (response : string) :
  exists r, LangchainBot._extract_entity_from_response response = inr r.
Proof.
  unfold LangchainBot._extract_entity_from_response.
  destruct (capitalized_pair_returns (split_ws_nonempty response)) as [r Hr].
  rewrite Hr.
  destruct (Re.search LangchainBot.bold response); [|eauto].
  match goal with |- context [if ?x then _ else _] => destruct x end; eauto.
Qed.

Context {PS : Type} (P : Provider PS).

Lemma bot_save_context_never_raises (q r : string) :
  never_raises (Bot.save_context P q r).
Proof. unfold Bot.save_context. safe. Qed.

Lemma bot_search_wikipedia_body_never_raises (q : string) :
  never_raises (Bot._search_wikipedia_body P q).
Proof.
  unfold Bot._search_wikipedia_body, Bot.search_or_nothing,
    Bot.key_terms_search.
  cbv zeta. safe.
  all: unfold Bot.show_result; safe.
Qed.

Lemma bot_search_wikipedia_never_raises (q : string) :
  never_raises (Bot._search_wikipedia P q).
Proof. unfold Bot._search_wikipedia. safe. Qed.

Lemma bot_process_query_never_raises (q : string) :
  never_raises (Bot.process_query P q).
Proof.
  unfold Bot.process_query. cbv zeta. safe.
  - apply bot_search_wikipedia_never_raises.
  - apply bot_save_context_never_raises.
Qed.

Lemma lc_save_context_never_raises (q r : string) :
  never_raises (LangchainBot.save_context (PS := PS) q r).
Proof. unfold LangchainBot.save_context. safe. Qed.

Lemma lc_set_last_entity_never_raises (e : option string) :
  never_raises (LangchainBot.set_last_entity (PS := PS) e).
Proof. unfold LangchainBot.set_last_entity. safe. Qed.

Lemma lc_search_wikipedia_direct_never_raises (q : string) :
  never_raises (LangchainBot._search_wikipedia_direct P q).
Proof. unfold LangchainBot._search_wikipedia_direct. safe. Qed.

Lemma lc_extract_education_info_never_raises (main entity : string) :
  never_raises (LangchainBot._extract_education_info P main entity).
Proof. unfold LangchainBot._extract_education_info. safe. Qed.

Lemma lc_handle_follow_up_never_raises (q : string) :
  never_raises (LangchainBot._handle_follow_up P q).
Proof.
  unfold LangchainBot._handle_follow_up, LangchainBot.load_history.
  cbv zeta. safe.
  all: first [ apply lc_search_wikipedia_direct_never_raises
             | apply lc_extract_education_info_never_raises ].
Qed.

Lemma lc_lift_extract_never_raises (response : string) :
  never_raises
    (LangchainBot.lift (PS := PS)
       (LangchainBot._extract_entity_from_response response)).
Proof.
  destruct (extract_entity_from_response_returns response) as [r ->].
  simpl. safe.
Qed.

Lemma lc_answer_never_raises (q : string) :
  never_raises (LangchainBot.answer P q).
Proof.
  unfold LangchainBot.answer. cbv zeta.
  apply bind_never_raises.
  - safe.
    + apply lc_handle_follow_up_never_raises.
    + apply lc_save_context_never_raises.
  - intros [response|]; [safe|].
    apply bind_never_raises;
      [safe; apply lc_set_last_entity_never_raises|intros _].
    apply bind_never_raises;
      [apply lc_search_wikipedia_direct_never_raises|intros response].
    apply bind_never_raises;
      [apply lc_lift_extract_never_raises|intros extracted].
    apply bind_never_raises;
      [safe; apply lc_set_last_entity_never_raises|intros _].
    apply bind_never_raises;
      [apply lc_save_context_never_raises|intros _; safe].
Qed.

Lemma lc_process_query_never_raises (q : string) :
  never_raises (LangchainBot.process_query P q).
Proof.
  unfold LangchainBot.process_query. cbv zeta. safe.
  all: first [ apply lc_save_context_never_raises
             | apply lc_answer_never_raises ].
Qed.

End NeverRaises.

(** ** Running a method whose steps have known outcomes *)
Section Outcomes.
Import Py Wikipedia Wikipedia.Notations.
Local Open Scope py_scope.
Context {PS B : Type}.

Lemma returns_ret {A} (a : A) : returns (@ret PS B A a) a.
Proof. intros b w. now exists b, w. Qed.

Lemma returns_bind {A C} (m : M PS B A) (f : A -> M PS B C) (a : A) (c : C) :
  returns m a -> returns (f a) c -> returns (bind m f) c.
Proof.
  intros Hm Hf b w. unfold bind.
  destruct (Hm b w) as (b' & w' & ->). apply Hf.
Qed.

Lemma raises_bind {A C} (m : M PS B A) (f : A -> M PS B C) (e : exn) :
  raises m e -> raises (bind m f) e.
Proof.
  intros Hm b w. unfold bind.
  destruct (Hm b w) as (b' & w' & ->). now exists b', w'.
Qed.

Lemma raises_after {A C} (m : M PS B A) (f : A -> M PS B C) (a : A) (e : exn) :
  returns m a -> raises (f a) e -> raises (bind m f) e.
Proof.
  intros Hm Hf b w. unfold bind.
  destruct (Hm b w) as (b' & w' & ->). apply Hf.
Qed.

Lemma raises_raise {A} (e : exn) : raises (@raise PS B A e) e.
Proof. intros b w. now exists b, w. Qed.

Lemma try_returns {A} (m : M PS B A) (h : exn -> M PS B A) (a : A) :
  returns m a -> returns (try m h) a.
Proof.
  intros Hm b w. unfold try.
  destruct (Hm b w) as (b' & w' & ->). now exists b', w'.
Qed.

Lemma try_handles {A} (m : M PS B A) (h : exn -> M PS B A) (e : exn) (a : A) :
  raises m e -> returns (h e) a -> returns (try m h) a.
Proof.
  intros Hm Hh b w. unfold try.
  destruct (Hm b w) as (b' & w' & ->). apply Hh.
Qed.

Lemma try_reraises {A} (m : M PS B A) (h : exn -> M PS B A) (e e' : exn) :
  raises m e -> raises (h e) e' -> raises (try m h) e'.
Proof.
  intros Hm Hh b w. unfold try.
  destruct (Hm b w) as (b' & w' & ->). apply Hh.
Qed.

Lemma for_return_falls_through {X A} (xs : list X)
  (body : X -> M PS B (option A)) :
  (forall x, returns (body x) None) -> returns (for_return xs body) None.
Proof.
  intros Hb. induction xs as [|x rest IH]; simpl.
  - apply returns_ret.
  - eapply returns_bind; [apply Hb|exact IH].
Qed.

Lemma or_else_rest {A} (m : M PS B (option A)) (rest : M PS B A) (a : A) :
  returns m None -> returns rest a -> returns (or_else m rest) a.
Proof. intros Hm Hr. unfold or_else. eapply returns_bind; eauto. Qed.

Lemma or_else_rest_raises {A} (m : M PS B (option A)) (rest : M PS B A)
  (e : exn) :
  returns m None -> raises rest e -> raises (or_else m rest) e.
Proof. intros Hm Hr. unfold or_else. eapply raises_after; eauto. Qed.

Lemma returns_value {A} (m : M PS B A) (a : A) (b : B) (w : World PS) :
  returns m a -> value (m b w) = inr a.
Proof. intros H. now destruct (H b w) as (b' & w' & ->). Qed.

Lemma returns_never_raises {A} (m : M PS B A) (a : A) :
  returns m a -> never_raises m.
Proof. intros H b w. destruct (H b w) as (b' & w' & ->). eauto. Qed.

End Outcomes.

Section FailingProvider.
Import Py Wikipedia Wikipedia.Notations.
Local Open Scope py_scope.
Context {B : Type} (e : exn).

Lemma failing_search (q : string) (n : nat) :
  raises (wikipedia_search (B := B) (failing_provider e) q n) e.
Proof. intros b w. unfold wikipedia_search, call_provider. simpl. eauto. Qed.

Lemma failing_page (t : string) (a : bool) :
  raises (wikipedia_page (B := B) (failing_provider e) t a) e.
Proof. intros b w. unfold wikipedia_page, call_provider. simpl. eauto. Qed.

Lemma failing_page_then {C} (t : string) (a : bool)
  (f : WikipediaPage -> M unit B C) :
  raises (bind (wikipedia_page (failing_provider e) t a) f) e.
Proof. apply raises_bind, failing_page. Qed.

Lemma failing_search_then {C} (q : string) (n : nat)
  (f : list string -> M unit B C) :
  raises (bind (wikipedia_search (failing_provider e) q n) f) e.
Proof. apply raises_bind, failing_search. Qed.

End FailingProvider.

(** ** What the bots answer when every provider call fails *)
Section AllCallsFail.
Import Py Wikipedia Wikipedia.Notations.
Local Open Scope py_scope.
Variable e : exn.

Lemma bot_search_or_nothing_failing (q : string) :
  returns (Bot.search_or_nothing (failing_provider e) q) [].
Proof.
  unfold Bot.search_or_nothing.
  eapply try_handles; [apply failing_search|apply returns_ret].
Qed.

Lemma bot_key_terms_search_failing (q : string) :
  returns (Bot.key_terms_search (failing_provider e) q) [].
Proof.
  unfold Bot.key_terms_search. cbv zeta.
  destruct (2 <=? List.length (split_ws q))%nat; [|apply returns_ret].
  eapply returns_bind with (a := None); [|apply returns_ret].
  apply for_return_falls_through. intros i.
  eapply try_handles; [apply failing_search_then|apply returns_ret].
Qed.

Lemma bot_search_wikipedia_failing (q : string) :
  returns (Bot._search_wikipedia (failing_provider e) q)
    (if is_empty (Bot._clean_query q) then Bot.prompt_for_topic
     else "Could not find information about '" ++ q ++ "'." ++ Bot.nl ++ Bot.nl ++
          " Try rephrasing your question or checking the spelling.").
Proof.
  unfold Bot._search_wikipedia, Bot._search_wikipedia_body. cbv zeta.
  apply try_returns.
  destruct (is_empty (Bot._clean_query q)); [apply returns_ret|].
  eapply returns_bind; [apply bot_search_or_nothing_failing|].
  eapply returns_bind; [apply bot_search_or_nothing_failing|].
  eapply returns_bind; [apply bot_key_terms_search_failing|].
  apply returns_ret.
Qed.

Lemma lc_swallowing_failing_page {A} (t : string) (a : bool)
  (f : WikipediaPage -> M unit LangchainBot.LangChainKnowledgeBot (option A)) :
  returns (LangchainBot.swallowing
             (bind (wikipedia_page (failing_provider e) t a) f)) None.
Proof.
  unfold LangchainBot.swallowing.
  eapply try_handles; [apply failing_page_then|apply returns_ret].
Qed.

Lemma lc_swallowing_failing_search {A} (q : string) (n : nat)
  (f : list string -> M unit LangchainBot.LangChainKnowledgeBot (option A)) :
  returns (LangchainBot.swallowing
             (bind (wikipedia_search (failing_provider e) q n) f)) None.
Proof.
  unfold LangchainBot.swallowing.
  eapply try_handles; [apply failing_search_then|apply returns_ret].
Qed.

(** The first three blocks of the CEO branch absorb every failure. *)
Lemma lc_ceo_branch_failing (clean_query : string) :
  match e with
  | PageError _ | DisambiguationError _ _ =>
      returns (LangchainBot.ceo_branch (failing_provider e) clean_query) None
  | _ => raises (LangchainBot.ceo_branch (failing_provider e) clean_query) e
  end.
Proof.
  unfold LangchainBot.ceo_branch. cbv zeta.
  assert (H1 : forall (xs : list string),
             returns (for_return xs (fun search_term =>
               LangchainBot.swallowing
                 (p <- wikipedia_page (failing_provider e) search_term false ;;
                  summary <- wikipedia_summary (failing_provider e) search_term 8 false ;;
                  if any_in LangchainBot.ceo_indicators_direct (lower summary)
                  then ret (Some (LangchainBot.page_block p summary ++
                                  " [Read more](" ++ url p ++ ")"))
                  else ret None))) None).
  { intros xs. apply for_return_falls_through. intros x.
    apply lc_swallowing_failing_page. }
  assert (H2 : forall (xs : list string) company,
             returns (for_return xs (fun search_term =>
               LangchainBot.swallowing
                 (search_results <- wikipedia_search (failing_provider e) search_term 10 ;;
                  for_return search_results
                    (LangchainBot.ceo_candidate (failing_provider e)
                       LangchainBot.ceo_indicators_search company 6
                       " [Read more]")))) None).
  { intros xs company. apply for_return_falls_through. intros x.
    apply lc_swallowing_failing_search. }
  assert (H3 : forall (xs : list string) company,
             returns (LangchainBot.swallowing
               (for_return xs (fun search_term =>
                  search_results <- wikipedia_search (failing_provider e) search_term 5 ;;
                  for_return search_results
                    (LangchainBot.ceo_candidate (failing_provider e)
                       LangchainBot.ceo_indicators_general company 8
                       "[Read more]")))) None).
  { intros xs company. destruct xs as [|x rest].
    - unfold LangchainBot.swallowing. apply try_returns. apply returns_ret.
    - unfold LangchainBot.swallowing.
      eapply try_handles; [|apply returns_ret].
      simpl. apply raises_bind. apply failing_search_then. }
  destruct e as [m|m opts|m|m].
  - eapply returns_bind; [apply H1|].
    eapply returns_bind; [apply H2|].
    eapply returns_bind; [apply H3|].
    eapply try_handles; [apply failing_page_then|apply returns_ret].
  - eapply returns_bind; [apply H1|].
    eapply returns_bind; [apply H2|].
    eapply returns_bind; [apply H3|].
    eapply try_handles; [apply failing_page_then|apply returns_ret].
  - eapply raises_after; [apply H1|].
    eapply raises_after; [apply H2|].
    eapply raises_after; [apply H3|].
    eapply try_reraises; [apply failing_page_then|apply raises_raise].
  - eapply raises_after; [apply H1|].
    eapply raises_after; [apply H2|].
    eapply raises_after; [apply H3|].
    eapply try_reraises; [apply failing_page_then|apply raises_raise].
Qed.

Lemma lc_general_search_failing (clean_query : string) :
  match e with
  | PageError _ | DisambiguationError _ _ =>
      returns (LangchainBot.general_search (failing_provider e) clean_query) None
  | _ => raises (LangchainBot.general_search (failing_provider e) clean_query) e
  end.
Proof.
  unfold LangchainBot.general_search.
  destruct e as [m|m opts|m|m] eqn:E; rewrite <- E.
  - eapply try_handles; [apply failing_page_then|]. rewrite E.
    unfold LangchainBot.on_page_error. rewrite <- E.
    apply lc_swallowing_failing_search.
  - eapply try_handles; [apply failing_page_then|]. rewrite E.
    unfold LangchainBot.on_disambiguation. rewrite <- E.
    eapply returns_bind.
    + apply for_return_falls_through. intros option.
      destruct (contains (lower clean_query) (lower option) ||
                contains (lower option) (lower clean_query)).
      * apply lc_swallowing_failing_page.
      * apply returns_ret.
    + unfold LangchainBot.swallowing. destruct opts as [|o rest].
      * eapply try_handles; [apply raises_bind, raises_raise|apply returns_ret].
      * eapply try_handles; [|apply returns_ret].
        eapply raises_after; [apply returns_ret|apply failing_page_then].
  - eapply try_reraises; [apply failing_page_then|]. rewrite E. apply raises_raise.
  - eapply try_reraises; [apply failing_page_then|]. rewrite E. apply raises_raise.
Qed.

Lemma lc_search_wikipedia_direct_failing (q : string) :
  returns (LangchainBot._search_wikipedia_direct (failing_provider e) q)
    (let clean_query := LangchainBot._clean_query q in
     if is_empty clean_query then LangchainBot.prompt_for_topic
     else match e with
          | PageError _ | DisambiguationError _ _ =>
              " Could not find information about '" ++ clean_query ++ "'." ++
              LangchainBot.nl ++ LangchainBot.nl ++ " Try rephrasing your question."
          | _ => " Error searching Wikipedia: " ++ str_of_exn e
          end).
Proof.
  unfold LangchainBot._search_wikipedia_direct,
    LangchainBot._search_wikipedia_direct_body. cbv zeta.
  destruct (is_empty (LangchainBot._clean_query q)).
  { apply try_returns, returns_ret. }
  pose proof (lc_ceo_branch_failing (LangchainBot._clean_query q)) as Hceo.
  pose proof (lc_general_search_failing (LangchainBot._clean_query q)) as Hgen.
  assert (Hfirst :
    match e with
    | PageError _ | DisambiguationError _ _ =>
        returns (if contains "CEO of" (LangchainBot._clean_query q)
                 then LangchainBot.ceo_branch (failing_provider e)
                        (LangchainBot._clean_query q)
                 else ret None) None
    | _ => True
    end).
  { destruct e; try exact I;
      (destruct (contains "CEO of" (LangchainBot._clean_query q));
       [exact Hceo|apply returns_ret]). }
  destruct e as [m|m opts|m|m] eqn:E; rewrite <- E in *.
  - apply try_returns. apply or_else_rest; [exact Hfirst|].
    apply or_else_rest; [exact Hgen|apply returns_ret].
  - apply try_returns. apply or_else_rest; [exact Hfirst|].
    apply or_else_rest; [exact Hgen|apply returns_ret].
  - eapply try_handles; [|rewrite E; apply returns_ret].
    destruct (contains "CEO of" (LangchainBot._clean_query q)).
    + unfold or_else. apply raises_bind. exact Hceo.
    + apply or_else_rest_raises; [apply returns_ret|].
      unfold or_else. apply raises_bind. exact Hgen.
  - eapply try_handles; [|rewrite E; apply returns_ret].
    destruct (contains "CEO of" (LangchainBot._clean_query q)).
    + unfold or_else. apply raises_bind. exact Hceo.
    + apply or_else_rest_raises; [apply returns_ret|].
      unfold or_else. apply raises_bind. exact Hgen.
Qed.

End AllCallsFail.

(** ** Substrings survive trimming *)
Section Trimming.
Import Py.

Lemma isspace_lower_char (c : ascii) : isspace (lower_char c) = isspace c.
Proof.
  destruct c as [[] [] [] [] [] [] [] []]; vm_compute; reflexivity.
Qed.

Lemma lower_lstrip (s : string) : lower (lstrip s) = lstrip (lower s).
Proof.
  induction s as [|c r IH]; simpl; [reflexivity|].
  rewrite isspace_lower_char. destruct (isspace c); [exact IH|reflexivity].
Qed.

Lemma lower_rstrip (s : string) : lower (rstrip s) = rstrip (lower s).
Proof.
  unfold rstrip. induction s as [|c r IH]; simpl; [reflexivity|].
  rewrite <- IH, isspace_lower_char.
  destruct (rstrip_by isspace r); simpl; [|reflexivity].
  destruct (isspace c); reflexivity.
Qed.

Lemma lower_strip (s : string) : lower (strip s) = strip (lower s).
Proof. unfold strip. now rewrite lower_rstrip, lower_lstrip. Qed.

Lemma rstrip_by_decomp (p : ascii -> bool) (s : string) :
  exists t, s = rstrip_by p s ++ t /\ all_chars p t = true.
Proof.
  induction s as [|c r (t & Heq & Ht)]; simpl.
  - exists EmptyString. split; reflexivity.
  - destruct (rstrip_by p r) as [|c' r'] eqn:E.
    + simpl in Heq. subst r. destruct (p c) eqn:Ec.
      * exists (String c t). split; [reflexivity|]. simpl. now rewrite Ec.
      * exists t. split; [reflexivity|exact Ht].
    + exists t. split; [|exact Ht]. simpl. now rewrite Heq at 1.
Qed.

Lemma prefix_empty (s : string) : String.prefix EmptyString s = true.
Proof. now destruct s. Qed.

Lemma prefix_blank_tail (n u t : string) :
  solid n -> all_chars isspace t = true ->
  String.prefix n (u ++ t) = true -> String.prefix n u = true.
Proof.
  revert n. induction u as [|c u' IH]; intros n [Hne Hsolid] Ht Hp.
  - simpl in Hp. destruct n as [|a n']; [contradiction|].
    destruct t as [|d t']; simpl in Hp; [discriminate|].
    destruct (ascii_dec a d) as [->|]; [|discriminate].
    simpl in Hsolid, Ht.
    destruct (isspace d); simpl in *; discriminate.
  - destruct n as [|a n']; [contradiction|]. simpl in Hp |- *.
    destruct (ascii_dec a c) as [->|]; [|discriminate].
    destruct n' as [|a' n'']; [apply prefix_empty|].
    apply IH; [|exact Ht|exact Hp].
    split; [discriminate|]. simpl in Hsolid.
    now apply andb_true_iff in Hsolid.
Qed.

Lemma contains_blank (n t : string) :
  solid n -> all_chars isspace t = true -> contains n t = false.
Proof.
  intros Hn. induction t as [|d t' IH]; intros Ht.
  - destruct Hn as [Hne _]. destruct n; [contradiction|reflexivity].
  - simpl in Ht. apply andb_true_iff in Ht as [Hd Ht'].
    cbn [contains]. rewrite (IH Ht'), orb_false_r.
    destruct (String.prefix n (String d t')) eqn:Hp; [|reflexivity].
    destruct Hn as [Hne Hsolid]. destruct n as [|a n']; [contradiction|].
    simpl in Hp. destruct (ascii_dec a d) as [->|]; [|discriminate].
    simpl in Hsolid. rewrite Hd in Hsolid. discriminate.
Qed.

Lemma contains_blank_tail (n u t : string) :
  solid n -> all_chars isspace t = true ->
  contains n (u ++ t) = true -> contains n u = true.
Proof.
  intros Hn Ht. induction u as [|c u' IH]; intros Hc.
  - simpl in Hc. now rewrite (@contains_blank n t Hn Ht) in Hc.
  - change (String c u' ++ t) with (String c (u' ++ t)) in Hc.
    cbn [contains] in Hc |- *.
    apply orb_true_iff in Hc as [Hp|Hc].
    + change (String c (u' ++ t)) with (String c u' ++ t) in Hp.
      now rewrite (@prefix_blank_tail n (String c u') t Hn Ht Hp).
    + rewrite (IH Hc). apply orb_true_r.
Qed.

Lemma contains_rstrip (n s : string) :
  solid n -> contains n s = true -> contains n (rstrip s) = true.
Proof.
  intros Hn Hc. destruct (rstrip_by_decomp isspace s) as (t & Heq & Ht).
  rewrite Heq in Hc. exact (@contains_blank_tail n _ t Hn Ht Hc).
Qed.

Lemma contains_lstrip (n s : string) :
  solid n -> contains n s = true -> contains n (lstrip s) = true.
Proof.
  intros [Hne Hsolid]. induction s as [|c r IH]; intros Hc; [exact Hc|].
  cbn [lstrip]. destruct (isspace c) eqn:Ec; [|exact Hc].
  apply IH. cbn [contains] in Hc.
  apply orb_true_iff in Hc as [Hp|Hc]; [|exact Hc].
  destruct n as [|a n']; [contradiction|]. simpl in Hp.
  destruct (ascii_dec a c) as [->|]; [|discriminate].
  simpl in Hsolid. rewrite Ec in Hsolid. discriminate.
Qed.

Lemma contains_strip (n s : string) :
  solid n -> contains n s = true -> contains n (strip s) = true.
Proof.
  intros Hn Hc. unfold strip. now apply contains_rstrip, contains_lstrip.
Qed.

Lemma mem_In (x : string) (xs : list string) : mem x xs = true -> In x xs.
Proof.
  unfold mem. intros H. apply existsb_exists in H as (y & Hy & Heq).
  apply String.eqb_eq in Heq. now subst.
Qed.

End Trimming.

(** ** The entry point *)
Section EntryPoint.
Import Py Wikipedia Wikipedia.Notations.
Local Open Scope py_scope.

(** C1 as stated fails on [bot.py]: after ["hello"] the memory of a fresh
    [KnowledgeBot] holds no turn at all. *)
Lemma hello_not_recorded_by_knowledge_bot :
  ~ (exists turn,
       In turn (Bot.history
                  (bot (Bot.process_query (failing_provider (PageError ""))
                          "hello" Bot.KnowledgeBot_init empty_world))) /\
       Bot.user turn = "hello").
Proof. intros (turn & Hin & _). vm_compute in Hin. exact Hin. Qed.

(** C1, amended. On ["hello"] both bots answer their fixed greeting and
    leave the world untouched, so no provider call is made and nothing is
    extracted; [LangChainKnowledgeBot] appends the exchange to its memory
    and keeps [last_entity], while [KnowledgeBot] returns before its
    [save_context] and leaves its memory as it was. *)
Theorem hello_greets_without_resolution {PS : Type} (P : Provider PS) :
  (forall m w,
     Bot.process_query P "hello" m w = MkRun (inr Bot._handle_greeting) m w) /\
  (forall b w,
     LangchainBot.process_query P "hello" b w
     = MkRun (inr LangchainBot._handle_greeting)
         {| LangchainBot.memory :=
              LangchainBot.memory b ++ "Human: hello" ++ LangchainBot.nl ++
              "AI: " ++ LangchainBot._handle_greeting ++ LangchainBot.nl;
            LangchainBot.last_entity := LangchainBot.last_entity b |}
         w).
Proof. split; intros; reflexivity. Qed.

(** C2. Whatever the provider does, [process_query] of either bot returns
    a string. In [bot.py] every provider failure is absorbed inside the
    search routine; in [langchain_bot.py] an exception that leaves the
    search body becomes the error text. When every call fails, the answer
    is the prompt for a topic, the not-found apology or the error text. *)
Theorem process_query_never_raises {PS : Type} (P : Provider PS) (query : string) :
  never_raises (Bot.process_query P query) /\
  never_raises (LangchainBot.process_query P query) /\
  never_raises (Bot._search_wikipedia_body P query) /\
  (forall b w e b' w',
     LangchainBot._search_wikipedia_direct_body P query b w
     = MkRun (inl e) b' w' ->
     LangchainBot._search_wikipedia_direct P query b w
     = MkRun (inr (" Error searching Wikipedia: " ++ str_of_exn e)) b' w') /\
  (forall e,
     returns (Bot._search_wikipedia (failing_provider e) query)
       (if is_empty (Bot._clean_query query) then Bot.prompt_for_topic
        else "Could not find information about '" ++ query ++ "'." ++
             Bot.nl ++ Bot.nl ++
             " Try rephrasing your question or checking the spelling.")) /\
  (forall e,
     returns (LangchainBot._search_wikipedia_direct (failing_provider e) query)
       (let clean_query := LangchainBot._clean_query query in
        if is_empty clean_query then LangchainBot.prompt_for_topic
        else match e with
             | PageError _ | DisambiguationError _ _ =>
                 " Could not find information about '" ++ clean_query ++ "'." ++
                 LangchainBot.nl ++ LangchainBot.nl ++
                 " Try rephrasing your question."
             | _ => " Error searching Wikipedia: " ++ str_of_exn e
             end)).
Proof.
  split; [apply bot_process_query_never_raises|].
  split; [apply lc_process_query_never_raises|].
  split; [apply bot_search_wikipedia_body_never_raises|].
  split.
  - intros b w e b' w' H. unfold LangchainBot._search_wikipedia_direct, try.
    now rewrite H.
  - split; intros e.
    + apply bot_search_wikipedia_failing.
    + apply lc_search_wikipedia_direct_failing.
Qed.

(** C3. When nothing is left of the query after normalization, the
    search routine of either bot answers its fixed prompt and hands back
    the bot and the world as they were: the call log has not grown. *)
Theorem empty_topic_makes_no_call {PS : Type} (P : Provider PS) (query : string) :
  (Bot._clean_query query = "" ->
   forall m w,
     Bot._search_wikipedia P query m w = MkRun (inr Bot.prompt_for_topic) m w) /\
  (LangchainBot._clean_query query = "" ->
   forall b w,
     LangchainBot._search_wikipedia_direct P query b w
     = MkRun (inr LangchainBot.prompt_for_topic) b w).
Proof.
  split; intros H ? w.
  - unfold Bot._search_wikipedia, Bot._search_wikipedia_body, try. cbv zeta.
    rewrite H. reflexivity.
  - unfold LangchainBot._search_wikipedia_direct,
      LangchainBot._search_wikipedia_direct_body, try. cbv zeta.
    rewrite H. reflexivity.
Qed.

Lemma empty_topic_makes_no_call_witness :
  Bot._search_wikipedia (canned_provider {| title := "T"; url := "u" |} "text")
    "who is" Bot.KnowledgeBot_init empty_world
  = MkRun (inr Bot.prompt_for_topic) Bot.KnowledgeBot_init empty_world /\
  trace (world (LangchainBot._search_wikipedia_direct
                  (canned_provider {| title := "T"; url := "u" |} "text")
                  "  What is  " LangchainBot.LangChainKnowledgeBot_init
                  empty_world)) = [].
Proof.
  split.
  - apply (proj1 (empty_topic_makes_no_call
                    (canned_provider {| title := "T"; url := "u" |} "text")
                    "who is")).
    reflexivity.
  - rewrite (proj2 (empty_topic_makes_no_call
                      (canned_provider {| title := "T"; url := "u" |} "text")
                      "  What is  ")); reflexivity.
Defined.

Lemma thank_is_solid : solid "thank".
Proof. split; [discriminate|reflexivity]. Qed.

Lemma thanks_branch (q : string) :
  contains "thank" (lower q) = true ->
  is_empty (strip q) = false /\
  mem (lower (strip q)) ["hi"; "hello"; "hey"] = false /\
  mem (lower (strip q)) ["help"; "?"] = false /\
  contains "thank" (lower (strip q)) = true.
Proof.
  intros H.
  assert (Hs : contains "thank" (lower (strip q)) = true).
  { rewrite lower_strip. apply contains_strip; [apply thank_is_solid|exact H]. }
  repeat split; try exact Hs.
  - destruct (strip q); [discriminate Hs|reflexivity].
  - destruct (mem (lower (strip q)) ["hi"; "hello"; "hey"]) eqn:E; [|reflexivity].
    apply mem_In in E. simpl in E.
    destruct E as [E|[E|[E|[]]]]; rewrite <- E in Hs; discriminate Hs.
  - destruct (mem (lower (strip q)) ["help"; "?"]) eqn:E; [|reflexivity].
    apply mem_In in E. simpl in E.
    destruct E as [E|[E|[]]]; rewrite <- E in Hs; discriminate Hs.
Qed.

(** C10. A query whose lower-cased text contains ["thank"] anywhere gets
    the fixed thanks message from either bot, and the world comes back
    as it was: no search is made. [KnowledgeBot] keeps its memory;
    [LangChainKnowledgeBot] records the exchange and keeps [last_entity]. *)
Theorem thank_anywhere_short_circuits {PS : Type} (P : Provider PS)
  (query : string) :
  contains "thank" (lower query) = true ->
  (forall m w,
     Bot.process_query P query m w = MkRun (inr Bot._handle_thanks) m w) /\
  (forall b w,
     LangchainBot.process_query P query b w
     = MkRun (inr LangchainBot._handle_thanks)
         {| LangchainBot.memory :=
              LangchainBot.memory b ++ "Human: " ++ strip query ++
              LangchainBot.nl ++ "AI: " ++ LangchainBot._handle_thanks ++
              LangchainBot.nl;
            LangchainBot.last_entity := LangchainBot.last_entity b |}
         w).
Proof.
  intros H. destruct (thanks_branch _ H) as (He & Hg & Hh & Ht).
  split; intros ? w.
  - unfold Bot.process_query. cbv zeta. now rewrite He, Hg, Hh, Ht.
  - unfold LangchainBot.process_query. cbv zeta. now rewrite He, Hg, Hh, Ht.
Qed.

Lemma thank_anywhere_short_circuits_witness :
  value (Bot.process_query (canned_provider {| title := "T"; url := "u" |} "text")
           "When is Thanksgiving?" Bot.KnowledgeBot_init empty_world)
  = inr Bot._handle_thanks /\
  trace (world (Bot.process_query
                  (canned_provider {| title := "T"; url := "u" |} "text")
                  "When is Thanksgiving?" Bot.KnowledgeBot_init empty_world))
  = [].
Proof.
  rewrite (proj1 (thank_anywhere_short_circuits
                    (canned_provider {| title := "T"; url := "u" |} "text")
                    "When is Thanksgiving?" eq_refl)).
  split; reflexivity.
Defined.

End EntryPoint.

(** ** The education formatter *)
Section Education.
Import Py Wikipedia Wikipedia.Notations LangchainBot.
Local Open Scope py_scope.

(** [c*] always hands some later position to its continuation, and its
    answer is the continuation's answer there. *)
Lemma star_greedy_position {R} (p : ascii -> bool)
  (k : option ascii -> string -> option R) (s : string) (prev : option ascii) :
  exists prev' s', String.length s' <= String.length s /\
                   Re.star_greedy p prev s k = k prev' s'.
Proof.
  revert prev. induction s as [|c r IH]; intros prev; cbn [Re.star_greedy].
  - exists prev, EmptyString. split; [simpl; lia|reflexivity].
  - destruct (p c).
    + destruct (IH (Some c)) as (prev' & s' & Hlen & Heq).
      destruct (Re.star_greedy p (Some c) r k) eqn:E.
      * exists prev', s'. split; [simpl; lia|exact Heq].
      * exists prev, (String c r). split; [simpl; lia|reflexivity].
    + exists prev, (String c r). split; [simpl; lia|reflexivity].
Qed.

Lemma match_here_plus (p : ascii -> bool) (prev : option ascii) (c : ascii)
  (r : string) :
  if p c
  then exists n, Re.match_here (Re.Plus p) prev (String c r) = Some (S n, [])
  else Re.match_here (Re.Plus p) prev (String c r) = None.
Proof.
  unfold Re.match_here. cbn [Re.rmatch].
  destruct (p c); [|reflexivity].
  match goal with
  | |- context [Re.star_greedy p (Some c) r ?k] =>
      destruct (star_greedy_position p k r (Some c)) as (prev' & s' & Hlen & Heq)
  end.
  rewrite Heq. cbn [String.length].
  exists (String.length r - String.length s'). f_equal. f_equal. lia.
Qed.

(** No piece of a split on [c+] holds a character of the class. *)
Lemma split_pieces_clean (p : ascii -> bool) (s : string) :
  forall prev skip,
    Forall (fun piece => all_chars (fun c => negb (p c)) piece = true)
           (Re.split_from (Re.Plus p) prev s skip).
Proof.
  induction s as [|c r IH]; intros prev skip; cbn [Re.split_from].
  - repeat constructor.
  - destruct skip as [|n]; [|apply IH].
    pose proof (match_here_plus p prev c r) as Hm.
    destruct (p c) eqn:Ec.
    + destruct Hm as [n ->]. constructor; [reflexivity|apply IH].
    + rewrite Hm. specialize (IH (Some c) 0).
      destruct (Re.split_from (Re.Plus p) (Some c) r 0) as [|w ws].
      * repeat constructor. simpl. now rewrite Ec.
      * inversion IH; subst. constructor; [|assumption].
        simpl. rewrite Ec. assumption.
Qed.

Lemma all_chars_app (q : ascii -> bool) (u t : string) :
  all_chars q (u ++ t) = all_chars q u && all_chars q t.
Proof.
  induction u as [|c u' IH]; simpl; [reflexivity|].
  now rewrite IH, andb_assoc.
Qed.

Lemma all_chars_lstrip (q : ascii -> bool) (s : string) :
  all_chars q s = true -> all_chars q (lstrip s) = true.
Proof.
  induction s as [|c r IH]; simpl; [reflexivity|]. intros H.
  destruct (isspace c); [|exact H].
  apply IH. now apply andb_true_iff in H.
Qed.

Lemma all_chars_rstrip (q : ascii -> bool) (s : string) :
  all_chars q s = true -> all_chars q (rstrip s) = true.
Proof.
  intros H. destruct (rstrip_by_decomp isspace s) as (t & Heq & _).
  rewrite Heq, all_chars_app in H. now apply andb_true_iff in H.
Qed.

Lemma all_chars_strip (q : ascii -> bool) (s : string) :
  all_chars q s = true -> all_chars q (strip s) = true.
Proof. intros H. now apply all_chars_rstrip, all_chars_lstrip. Qed.

(** What [collect_sentences] keeps: trimmed, non-empty sentences of the
    list that contain a keyword, in the order of the list. *)
Lemma collect_sentences_kept (q : ascii -> bool) (keywords sentences : list string) :
  Forall (fun piece => all_chars q piece = true) sentences ->
  Forall (fun s => s <> EmptyString /\
                   any_in keywords (lower s) = true /\
                   all_chars q s = true /\
                   In s (map strip sentences))
         (collect_sentences keywords sentences).
Proof.
  induction 1 as [|sentence rest Hs Hrest IH]; cbn [collect_sentences];
    [constructor|].
  assert (IH' : Forall (fun s => s <> EmptyString /\
                   any_in keywords (lower s) = true /\
                   all_chars q s = true /\
                   In s (map strip (sentence :: rest)))
                 (collect_sentences keywords rest)).
  { eapply Forall_impl; [|exact IH]. simpl. intros s (H1 & H2 & H3 & H4). auto. }
  destruct (negb (is_empty (strip sentence)) &&
            any_in keywords (lower (strip sentence))) eqn:E; [|exact IH'].
  apply andb_true_iff in E as [Hne Hkw].
  constructor; [|exact IH'].
  repeat split.
  - intros Heq. rewrite Heq in Hne. discriminate.
  - exact Hkw.
  - apply all_chars_strip, Hs.
  - now left.
Qed.

Lemma last_char_app (u v : string) :
  v <> EmptyString -> last_char (u ++ v) = last_char v.
Proof.
  intros Hv. induction u as [|c u' IH]; [reflexivity|].
  change (String c u' ++ v) with (String c (u' ++ v)). cbn [last_char].
  destruct (u' ++ v) eqn:E; [|exact IH].
  destruct u'; simpl in E; [contradiction|discriminate].
Qed.

Lemma last_char_in (q : ascii -> bool) (s : string) :
  s <> EmptyString -> all_chars q s = true ->
  exists c, last_char s = Some c /\ q c = true.
Proof.
  induction s as [|c r IH]; intros Hne Hq; [contradiction|].
  simpl in Hq. apply andb_true_iff in Hq as [Hc Hr].
  destruct r as [|c' r'].
  - exists c. split; [reflexivity|exact Hc].
  - destruct (IH ltac:(discriminate) Hr) as (d & Hd & Hqd).
    exists d. split; [exact Hd|exact Hqd].
Qed.

Lemma join_last (q : ascii -> bool) (sep : string) (xs : list string) :
  xs <> [] ->
  Forall (fun s => s <> EmptyString /\ all_chars q s = true) xs ->
  exists c, last_char (join sep xs) = Some c /\ q c = true.
Proof.
  induction xs as [|x rest IH]; intros Hne Hall; [contradiction|].
  inversion Hall as [|? ? [Hx Hqx] Hrest]; subst.
  destruct rest as [|y rest'].
  - simpl. apply last_char_in; assumption.
  - destruct (IH ltac:(discriminate) Hrest) as (c & Hc & Hqc).
    exists c. split; [|exact Hqc].
    change (join sep (x :: y :: rest')) with (x ++ sep ++ join sep (y :: rest')).
    assert (Hj : join sep (y :: rest') <> EmptyString).
    { intros E. rewrite E in Hc. discriminate. }
    rewrite last_char_app.
    + rewrite last_char_app; assumption.
    + intros E. destruct sep; simpl in E; [contradiction|discriminate].
Qed.

Lemma append_empty_r (s : string) : s ++ "" = s.
Proof. induction s as [|x s' IH]; simpl; [reflexivity|now rewrite IH]. Qed.

Lemma append_assoc (a b c : string) : (a ++ b) ++ c = a ++ (b ++ c).
Proof. induction a as [|x a' IH]; simpl; [reflexivity|now rewrite IH]. Qed.

Lemma no_ellipsis_without_dot (body : string) (c : ascii) :
  last_char body = Some c -> c <> "."%char -> ~ endswith body "...".
Proof.
  intros Hl Hc (before & Heq). subst body.
  rewrite last_char_app in Hl by discriminate.
  simpl in Hl. inversion Hl. congruence.
Qed.

(** The text before the source link: header, kept sentences, ellipsis. *)
Lemma education_body_ellipsis (entity_name : string) (found : list string) :
  found <> [] ->
  Forall (fun s => s <> EmptyString /\
                   all_chars (fun c => negb (Re.one_of ".!?" c)) s = true) found ->
  (endswith (education_header entity_name ++ join ". " (firstn 4 found) ++
             (if (4 <? List.length found)%nat then "..." else ""))
            "..."
   <-> 4 < List.length found).
Proof.
  intros Hne Hall.
  destruct (Nat.ltb_spec 4 (List.length found)) as [Hlt|Hge]; split.
  - intros _. exact Hlt.
  - intros _.
    exists (education_header entity_name ++ join ". " (firstn 4 found)).
    now rewrite append_assoc.
  - intros Hend. exfalso.
    rewrite (firstn_all2 (n := 4) found Hge) in Hend.
    destruct (join_last (fun c => negb (Re.one_of ".!?" c)) ". " Hne Hall)
      as (c & Hc & Hqc).
    assert (Hj : join ". " found <> EmptyString).
    { intros E. rewrite E in Hc. discriminate. }
    assert (Hbody : last_char (education_header entity_name ++
                               join ". " found ++ "") = Some c).
    { rewrite append_empty_r, last_char_app; assumption. }
    apply (no_ellipsis_without_dot Hbody); [|exact Hend].
    intros ->. vm_compute in Hqc. discriminate.
  - lia.
Qed.

Lemma education_from_article_shape (entity_name text page_url : string) :
  let found := education_sentences education_keywords text in
  education_from_article entity_name text page_url
  = match found with
    | [] => no_education_details entity_name page_url
    | _ =>
        (education_header entity_name ++ join ". " (firstn 4 found) ++
         (if (4 <? List.length found)%nat then "..." else "")) ++
        nl ++ nl ++ " [Read more on Wikipedia](" ++ page_url ++ ")"
    end.
Proof.
  cbv zeta. unfold education_from_article. cbv zeta.
  destruct (education_sentences education_keywords text) as [|s rest];
    [reflexivity|].
  destruct (4 <? List.length (s :: rest))%nat.
  - now rewrite !append_assoc.
  - now rewrite append_empty_r.
Qed.

(** The collecting loop is a filter: of the trimmed sentences it keeps,
    in their order, exactly those that contain a keyword. The test for an
    empty sentence changes nothing, as no keyword is empty. *)
Lemma collect_sentences_filter (keywords sentences : list string) :
  any_in keywords "" = false ->
  collect_sentences keywords sentences
  = filter (fun s => any_in keywords (lower s)) (map strip sentences).
Proof.
  intros Hempty.
  induction sentences as [|sentence rest IH]; cbn [collect_sentences map filter];
    [reflexivity|].
  rewrite IH. destruct (strip sentence) as [|c r] eqn:E.
  - cbn [is_empty negb andb lower]. change (lower "") with "".
    now rewrite Hempty.
  - cbn [is_empty negb andb]. reflexivity.
Qed.

(** C9. When the article of the entity is fetched, the formatter keeps,
    in their order, exactly the trimmed sentences of the article that
    contain an education keyword (none of them empty, none holding a
    sentence terminator), shows the first four of them at most, and the
    text before the source link ends in an ellipsis exactly when more
    than four such sentences were found. *)
Theorem education_formatter_keeps_four {PS : Type} (P : Provider PS)
  (main_page_response entity_name : string) (b : LangChainKnowledgeBot)
  (w : World PS) (p : WikipediaPage) (text : string) (s1 s2 : PS) :
  page P entity_name false (pstate w) = (inr p, s1) ->
  content P p s1 = (inr text, s2) ->
  let sentences := map strip (Re.split sentence_end text) in
  let found := filter (fun s => any_in education_keywords (lower s)) sentences in
  let kept := firstn 4 found in
  let body := education_header entity_name ++ join ". " kept ++
              (if (4 <? List.length found)%nat then "..." else "") in
  education_sentences education_keywords text = found /\
  Forall (fun s => all_chars (fun c => negb (Re.one_of ".!?" c)) s = true)
         sentences /\
  Forall (fun s => s <> "") found /\
  List.length kept <= 4 /\
  value (_extract_education_info P main_page_response entity_name b w)
  = inr (match found with
         | [] => no_education_details entity_name (url p)
         | _ => body ++ nl ++ nl ++
                " [Read more on Wikipedia](" ++ url p ++ ")"
         end) /\
  (found <> [] -> (endswith body "..." <-> 4 < List.length found)).
Proof.
  intros Hpage Hcontent sentences found kept body.
  assert (Hf : education_sentences education_keywords text = found).
  { apply collect_sentences_filter. reflexivity. }
  pose proof (@split_pieces_clean (Re.one_of ".!?") text None 0) as Hsplit.
  fold (Re.split sentence_end text) in Hsplit.
  assert (Hkept :
    Forall (fun s => s <> "" /\
              any_in education_keywords (lower s) = true /\
              all_chars (fun c => negb (Re.one_of ".!?" c)) s = true /\
              In s (map strip (Re.split sentence_end text))) found).
  { rewrite <- Hf.
    exact (@collect_sentences_kept (fun c => negb (Re.one_of ".!?" c))
             education_keywords _ Hsplit). }
  assert (Hclean :
    Forall (fun s => s <> "" /\
              all_chars (fun c => negb (Re.one_of ".!?" c)) s = true) found).
  { eapply Forall_impl; [|exact Hkept]. intros s (H1 & _ & H3 & _). auto. }
  split; [exact Hf|].
  split.
  { apply Forall_forall. intros s Hs. apply in_map_iff in Hs as (piece & <- & Hin).
    apply all_chars_strip. exact (proj1 (Forall_forall _ _) Hsplit piece Hin). }
  split.
  { eapply Forall_impl; [|exact Hclean]. intros s [H1 _]. exact H1. }
  split; [apply firstn_le_length|].
  split.
  { unfold _extract_education_info, try, bind, wikipedia_page, page_content,
      call_provider.
    rewrite Hpage. cbn [pstate]. rewrite Hcontent. cbn [value ret].
    f_equal. rewrite education_from_article_shape. cbv zeta. rewrite Hf.
    reflexivity. }
  intros Hne. exact (@education_body_ellipsis entity_name found Hne Hclean).
Qed.

Lemma education_formatter_keeps_four_witness :
  value (_extract_education_info
           (canned_provider {| title := "Ada"; url := "u" |}
              "Born in London. She studied at college. Then school! She wrote notes? A degree. Her phd. Alumni day. The end")
           "" "Ada" LangChainKnowledgeBot_init empty_world)
  = inr ("**Ada - Education**" ++ nl ++ nl ++
         "She studied at college. Then school. A degree. Her phd..." ++
         nl ++ nl ++ " [Read more on Wikipedia](u)").
Proof.
  exact (proj1 (proj2 (proj2 (proj2 (proj2
    (education_formatter_keeps_four
       (canned_provider {| title := "Ada"; url := "u" |}
          "Born in London. She studied at college. Then school! She wrote notes? A degree. Her phd. Alumni day. The end")
       "" "Ada" LangChainKnowledgeBot_init empty_world
       (p := {| title := "Ada"; url := "u" |})
       (text := "Born in London. She studied at college. Then school! She wrote notes? A degree. Her phd. Alumni day. The end")
       eq_refl eq_refl)))))).
Defined.

End Education.

(** ** More on the query normalizers *)
Section NormalizerPieces.
Import Py.

Lemma app_assoc_s (a b c : string) : (a ++ b) ++ c = a ++ (b ++ c).
Proof. induction a as [|x a' IH]; simpl; [reflexivity|now rewrite IH]. Qed.

Lemma app_empty_s (s : string) : s ++ "" = s.
Proof. induction s as [|x s' IH]; simpl; [reflexivity|now rewrite IH]. Qed.

Lemma length_app_s (a b : string) :
  String.length (a ++ b) = String.length a + String.length b.
Proof. induction a as [|x a' IH]; simpl; [reflexivity|now rewrite IH]. Qed.

Lemma piece_of_refl (s : string) : piece_of s s.
Proof. exists "", "". simpl. now rewrite app_empty_s. Qed.

Lemma piece_of_trans (a b c : string) :
  piece_of a b -> piece_of b c -> piece_of a c.
Proof.
  intros (p1 & q1 & ->) (p2 & q2 & ->).
  exists (p2 ++ p1), (q1 ++ q2). now rewrite !app_assoc_s.
Qed.

Lemma piece_of_length (a s : string) :
  piece_of a s -> String.length a <= String.length s.
Proof. intros (p & q & ->). rewrite !length_app_s. lia. Qed.

Lemma lstrip_piece (s : string) : piece_of (lstrip s) s.
Proof.
  induction s as [|c r (p & q & IH)]; simpl.
  - apply piece_of_refl.
  - destruct (isspace c); [|apply piece_of_refl].
    exists (String c p), q. simpl. now rewrite <- IH.
Qed.

Lemma rstrip_piece (s : string) : piece_of (rstrip s) s.
Proof.
  destruct (rstrip_by_decomp isspace s) as (t & Heq & _).
  exists "", t. exact Heq.
Qed.

Lemma strip_piece (s : string) : piece_of (strip s) s.
Proof.
  unfold strip. eapply piece_of_trans; [apply rstrip_piece|apply lstrip_piece].
Qed.

Lemma drop_piece (n : nat) (s : string) : piece_of (drop n s) s.
Proof.
  revert s. induction n as [|n IH]; intros s; [apply piece_of_refl|].
  destruct s as [|c r]; [apply piece_of_refl|]. simpl.
  destruct (IH r) as (p & q & Heq). exists (String c p), q. simpl.
  now rewrite <- Heq.
Qed.

Lemma strip_first_prefix_piece (ps : list string) (q ql : string) :
  piece_of (strip_first_prefix ps q ql) q.
Proof.
  induction ps as [|p rest IH]; simpl; [apply piece_of_refl|].
  destruct (startswith ql p); [|exact IH].
  eapply piece_of_trans; [apply strip_piece|apply drop_piece].
Qed.

(** X1. What either normalizer returns is a contiguous run of the
    characters of its input, in their original case; it carries no
    blank at either end and is never longer than the input. *)
Theorem clean_query_is_a_trimmed_piece (query : string) :
  (piece_of (Bot._clean_query query) query /\
   strip (Bot._clean_query query) = Bot._clean_query query /\
   String.length (Bot._clean_query query) <= String.length query) /\
  (piece_of (LangchainBot._clean_query query) query /\
   strip (LangchainBot._clean_query query) = LangchainBot._clean_query query /\
   String.length (LangchainBot._clean_query query) <= String.length query).
Proof.
  assert (Hb : piece_of (Bot._clean_query query) query).
  { eapply piece_of_trans; [apply strip_first_prefix_piece|apply strip_piece]. }
  assert (Hl : piece_of (LangchainBot._clean_query query) query).
  { eapply piece_of_trans; [apply strip_first_prefix_piece|apply strip_piece]. }
  repeat split;
    try assumption;
    try (apply piece_of_length; assumption);
    apply strip_first_prefix_stripped, strip_idem.
Qed.

Lemma prefix_length (p s : string) :
  String.prefix p s = true -> String.length p <= String.length s.
Proof.
  revert s. induction p as [|a p' IH]; intros s H; [simpl; lia|].
  destruct s as [|b s']; [discriminate|]. simpl in H |- *.
  destruct (ascii_dec a b); [|discriminate]. specialize (IH _ H). lia.
Qed.

Lemma prefix_comparable (p1 p2 s : string) :
  String.prefix p1 s = true -> String.prefix p2 s = true ->
  String.prefix p1 p2 = true \/ String.prefix p2 p1 = true.
Proof.
  revert p2 s. induction p1 as [|a p1' IH]; intros p2 s H1 H2.
  - left. apply prefix_empty.
  - destruct p2 as [|b p2']; [right; reflexivity|].
    destruct s as [|c s']; [discriminate|]. simpl in H1, H2 |- *.
    destruct (ascii_dec a c) as [->|]; [|discriminate].
    destruct (ascii_dec b c) as [->|]; [|discriminate].
    destruct (ascii_dec c c) as [_|]; [|contradiction].
    eapply IH; eassumption.
Qed.

(** No entry of [ps] is a prefix of another one. *)
Lemma strip_first_prefix_unique (ps : list string) (q ql p : string) :
  forallb (fun p1 => forallb (fun p2 => String.eqb p1 p2 ||
                                         negb (String.prefix p1 p2)) ps) ps = true ->
  In p ps -> startswith ql p = true ->
  strip_first_prefix ps q ql = strip (drop (String.length p) q).
Proof.
  intros Hfree Hin Hp.
  assert (Huniq : forall p', In p' ps -> startswith ql p' = true -> p' = p).
  { intros p' Hin' Hp'.
    rewrite forallb_forall in Hfree.
    destruct (prefix_comparable _ _ _ Hp Hp') as [H|H].
    - pose proof (Hfree p Hin) as Hrow. rewrite forallb_forall in Hrow.
      specialize (Hrow p' Hin'). rewrite H in Hrow. simpl in Hrow.
      rewrite orb_false_r in Hrow. symmetry. now apply String.eqb_eq.
    - pose proof (Hfree p' Hin') as Hrow. rewrite forallb_forall in Hrow.
      specialize (Hrow p Hin). rewrite H in Hrow. simpl in Hrow.
      rewrite orb_false_r in Hrow. now apply String.eqb_eq. }
  clear Hfree. induction ps as [|p0 rest IH]; [destruct Hin|]. simpl.
  destruct (startswith ql p0) eqn:E.
  - rewrite (Huniq p0 (or_introl eq_refl) E). reflexivity.
  - destruct Hin as [->|Hin]; [congruence|].
    apply IH; [exact Hin|]. intros p' Hin'. apply Huniq. now right.
Qed.

(** X2. In either prefix list no entry is a prefix of another, so at most
    one entry matches a query and the order of the list plays no part:
    whenever the trimmed, lower-cased query starts with a listed prefix,
    that prefix is cut from the trimmed query and the rest is trimmed. *)
Theorem clean_query_cuts_the_matching_prefix (query p : string) :
  (In p Bot.prefixes -> startswith (lower (strip query)) p = true ->
   Bot._clean_query query = strip (drop (String.length p) (strip query))) /\
  (In p LangchainBot.prefixes -> startswith (lower (strip query)) p = true ->
   LangchainBot._clean_query query
   = strip (drop (String.length p) (strip query))).
Proof.
  split; intros Hin Hp.
  - apply strip_first_prefix_unique; [vm_compute; reflexivity|exact Hin|exact Hp].
  - apply strip_first_prefix_unique; [vm_compute; reflexivity|exact Hin|exact Hp].
Qed.

Lemma clean_query_cuts_the_matching_prefix_witness :
  Bot._clean_query " Tell me MORE about  Rome " = "Rome" /\
  LangchainBot._clean_query "More about Rome" = "Rome".
Proof.
  split.
  - apply (proj1 (clean_query_cuts_the_matching_prefix
                    " Tell me MORE about  Rome " "tell me more about")).
    + simpl. tauto.
    + reflexivity.
  - apply (proj2 (clean_query_cuts_the_matching_prefix
                    "More about Rome" "more about")).
    + simpl. tauto.
    + reflexivity.
Defined.

End NormalizerPieces.

(** ** Edge cases of the memory and of the entry points *)
Section Edges.
Import Py Wikipedia Wikipedia.Notations.
Local Open Scope py_scope.

Lemma record_all_app (m : Bot.ConversationMemory) (ts us : list Bot.Entry) :
  Bot.record_all m (ts ++ us) = Bot.record_all (Bot.record_all m ts) us.
Proof. unfold Bot.record_all. apply fold_left_app. Qed.

Lemma record_all_keeps_maxlen (ts : list Bot.Entry) (m : Bot.ConversationMemory) :
  Bot.maxlen (Bot.record_all m ts) = Bot.maxlen m.
Proof.
  revert m. induction ts as [|e rest IH]; intros m; [reflexivity|].
  rewrite record_all_cons, IH. reflexivity.
Qed.

(** X3. The last user input is tracked apart from the window: after any
    non-empty run of turns [get_last_user_input] is the text of the last
    one, whatever the capacity; with capacity 0 the window itself stays
    empty and [load_memory] stays [""]. *)
Theorem last_input_survives_eviction (m : Bot.ConversationMemory)
  (turns : list Bot.Entry) (last : Bot.Entry) :
  Bot.get_last_user_input (Bot.record_all m (turns ++ [last])) = Bot.user last /\
  (Bot.maxlen m = 0 -> Bot.history m = [] ->
   Bot.history (Bot.record_all m (turns ++ [last])) = [] /\
   Bot.load_memory (Bot.record_all m (turns ++ [last])) = "").
Proof.
  split.
  - rewrite record_all_app. simpl. unfold Bot.get_last_user_input. simpl.
    destruct (Bot.user last); reflexivity.
  - intros Hmax Hhist.
    assert (H : Bot.history (Bot.record_all m (turns ++ [last])) = []).
    { rewrite record_all_window by (unfold Bot.bounded; rewrite Hhist; simpl; lia).
      rewrite Hhist, Hmax. simpl. rewrite Nat.sub_0_r. apply skipn_all. }
    split; [exact H|]. unfold Bot.load_memory. now rewrite H.
Qed.

Lemma last_input_survives_eviction_witness :
  Bot.history (Bot.record_all (Bot.ConversationMemory_init 0)
                 ([] ++ [{| Bot.user := "q"; Bot.bot := "r"; Bot.timestamp := "t" |}]))
  = [].
Proof.
  exact (proj1 (proj2 (last_input_survives_eviction
                         (Bot.ConversationMemory_init 0) []
                         {| Bot.user := "q"; Bot.bot := "r"; Bot.timestamp := "t" |})
                 eq_refl eq_refl)).
Defined.

Lemma lstrip_blank (s : string) : all_chars isspace s = true -> lstrip s = "".
Proof.
  induction s as [|c r IH]; simpl; [reflexivity|]. intros H.
  apply andb_true_iff in H as [Hc Hr]. rewrite Hc. now apply IH.
Qed.

Lemma strip_blank (s : string) : all_chars isspace s = true -> strip s = "".
Proof. intros H. unfold strip. now rewrite (lstrip_blank _ H). Qed.

(** X4. A query made of whitespace only (the empty one included) gets
    ["Please ask a question."] from either bot; nothing is recorded, no
    field changes and no provider call is made. *)
Theorem blank_query_is_turned_away {PS : Type} (P : Provider PS) (query : string) :
  all_chars isspace query = true ->
  (forall m w,
     Bot.process_query P query m w = MkRun (inr "Please ask a question.") m w) /\
  (forall b w,
     LangchainBot.process_query P query b w
     = MkRun (inr "Please ask a question.") b w).
Proof.
  intros H. split; intros b w.
  - unfold Bot.process_query. cbv zeta. now rewrite (strip_blank _ H).
  - unfold LangchainBot.process_query. cbv zeta. now rewrite (strip_blank _ H).
Qed.

Lemma blank_query_is_turned_away_witness :
  LangchainBot.process_query (failing_provider (PageError "")) "   "
    LangchainBot.LangChainKnowledgeBot_init empty_world
  = MkRun (inr "Please ask a question.")
      LangchainBot.LangChainKnowledgeBot_init empty_world.
Proof.
  apply (proj2 (blank_query_is_turned_away
                  (failing_provider (PageError "")) "   " eq_refl)).
Defined.

(** X5. A follow-up with nothing to follow: when [last_entity] is unset
    or empty and the memory holds no history, [_handle_follow_up] returns
    [""] without a provider call and without touching the bot, so that
    [process_query] goes on to treat the query as a fresh one. *)
Theorem follow_up_without_context {PS : Type} (P : Provider PS) (query : string)
  (b : LangchainBot.LangChainKnowledgeBot) (w : World PS) :
  truthy (LangchainBot.last_entity b) = false ->
  LangchainBot.memory b = "" ->
  LangchainBot._handle_follow_up P query b w = MkRun (inr "") b w.
Proof.
  intros Hl Hm. unfold LangchainBot._handle_follow_up. cbv zeta.
  unfold bind at 1. unfold get_bot at 1. cbv iota beta.
  rewrite Hl. unfold bind at 1. unfold bind at 1. unfold LangchainBot.load_history.
  unfold bind at 1. unfold get_bot. cbv iota beta. unfold ret at 1.
  cbv iota beta. rewrite Hm. reflexivity.
Qed.

Lemma follow_up_without_context_witness :
  LangchainBot._handle_follow_up (failing_provider (PageError ""))
    "where was he born?" LangchainBot.LangChainKnowledgeBot_init empty_world
  = MkRun (inr "") LangchainBot.LangChainKnowledgeBot_init empty_world.
Proof.
  apply (follow_up_without_context (failing_provider (PageError ""))
           "where was he born?" LangchainBot.LangChainKnowledgeBot_init
           empty_world eq_refl eq_refl).
Defined.

End Edges.

(** ** What a method leaves alone, how much it calls, what it answers *)
Section Frames.
Import Py Wikipedia Wikipedia.Notations.
Local Open Scope py_scope.
Context {PS B : Type}.

Lemma keeps_bot_ret {A} (a : A) : keeps_bot (@ret PS B A a).
Proof. intros b w. reflexivity. Qed.

Lemma keeps_bot_raise {A} (e : exn) : keeps_bot (@raise PS B A e).
Proof. intros b w. reflexivity. Qed.

Lemma keeps_bot_get : keeps_bot (@get_bot PS B).
Proof. intros b w. reflexivity. Qed.

Lemma keeps_bot_call {A} (c : call) (f : PS -> (exn + A) * PS) :
  keeps_bot (@call_provider PS B A c f).
Proof. intros b w. unfold call_provider. now destruct (f (pstate w)). Qed.

Lemma keeps_bot_bind {A C} (m : M PS B A) (f : A -> M PS B C) :
  keeps_bot m -> (forall a, keeps_bot (f a)) -> keeps_bot (bind m f).
Proof.
  intros Hm Hf b w. unfold bind. specialize (Hm b w).
  destruct (m b w) as [[e|a] b' w']; simpl in Hm; subst; [reflexivity|apply Hf].
Qed.

Lemma keeps_bot_try {A} (m : M PS B A) (h : exn -> M PS B A) :
  keeps_bot m -> (forall e, keeps_bot (h e)) -> keeps_bot (try m h).
Proof.
  intros Hm Hh b w. unfold try. specialize (Hm b w).
  destruct (m b w) as [[e|a] b' w']; simpl in Hm; subst; [apply Hh|reflexivity].
Qed.

Lemma keeps_bot_for_return {X A} (xs : list X) (body : X -> M PS B (option A)) :
  (forall x, keeps_bot (body x)) -> keeps_bot (for_return xs body).
Proof.
  intros Hb. induction xs as [|x rest IH]; simpl; [apply keeps_bot_ret|].
  apply keeps_bot_bind; [apply Hb|]. intros [a|]; [apply keeps_bot_ret|exact IH].
Qed.

Lemma keeps_bot_or_else {A} (m : M PS B (option A)) (rest : M PS B A) :
  keeps_bot m -> keeps_bot rest -> keeps_bot (or_else m rest).
Proof.
  intros Hm Hr. unfold or_else. apply keeps_bot_bind; [exact Hm|].
  intros [a|]; [apply keeps_bot_ret|exact Hr].
Qed.

Lemma quiet_run {A} (m : M PS B A) (b : B) (w : World PS) :
  never_raises m -> keeps_bot m ->
  exists a w', m b w = MkRun (inr a) b w'.
Proof.
  intros Hn Hk. destruct (Hn b w) as (a & b' & w' & Heq).
  specialize (Hk b w). rewrite Heq in Hk. simpl in Hk. subst b'. eauto.
Qed.

Lemma answers_ret {A} (Q : A -> Prop) (a : A) : Q a -> answers Q (@ret PS B A a).
Proof. intros H b w a' Heq. simpl in Heq. now inversion Heq; subst. Qed.

Lemma answers_raise {A} (Q : A -> Prop) (e : exn) : answers Q (@raise PS B A e).
Proof. intros b w a Heq. discriminate Heq. Qed.

Lemma answers_bind {A C} (Q : C -> Prop) (m : M PS B A) (f : A -> M PS B C) :
  (forall a, answers Q (f a)) -> answers Q (bind m f).
Proof.
  intros Hf b w c. unfold bind.
  destruct (m b w) as [[e|a] b' w']; [discriminate|apply Hf].
Qed.

Lemma answers_bind_with {A C} (Q1 : A -> Prop) (Q : C -> Prop)
  (m : M PS B A) (f : A -> M PS B C) :
  answers Q1 m -> (forall a, Q1 a -> answers Q (f a)) -> answers Q (bind m f).
Proof.
  intros Hm Hf b w c. unfold bind. specialize (Hm b w).
  destruct (m b w) as [[e|a] b' w']; [discriminate|].
  apply Hf. now apply Hm.
Qed.

Lemma answers_try {A} (Q : A -> Prop) (m : M PS B A) (h : exn -> M PS B A) :
  answers Q m -> (forall e, answers Q (h e)) -> answers Q (try m h).
Proof.
  intros Hm Hh b w a. unfold try. specialize (Hm b w).
  destruct (m b w) as [[e|a'] b' w']; [apply Hh|apply Hm].
Qed.

Lemma answers_for_return {X A} (Q : A -> Prop) (xs : list X)
  (body : X -> M PS B (option A)) :
  (forall x, answers (when_some Q) (body x)) ->
  answers (when_some Q) (for_return xs body).
Proof.
  intros Hb. induction xs as [|x rest IH]; simpl.
  - apply answers_ret. exact I.
  - intros b w r. unfold bind. specialize (Hb x b w).
    destruct (body x b w) as [[e|[a|]] b' w']; [discriminate| |apply IH].
    intros Heq. simpl in Heq. inversion Heq; subst. apply (Hb (Some a) eq_refl).
Qed.

Lemma answers_or_else {A} (Q : A -> Prop) (m : M PS B (option A))
  (rest : M PS B A) :
  answers (when_some Q) m -> answers Q rest -> answers Q (or_else m rest).
Proof.
  intros Hm Hr b w a. unfold or_else, bind. specialize (Hm b w).
  destruct (m b w) as [[e|[a'|]] b' w']; [discriminate| |apply Hr].
  intros Heq. simpl in Heq. inversion Heq; subst. apply (Hm (Some a) eq_refl).
Qed.

Lemma at_most_weaken {A} (n n' : nat) (m : M PS B A) :
  n <= n' -> at_most_calls n m -> at_most_calls n' m.
Proof. intros Hle Hm b w. specialize (Hm b w). lia. Qed.

Lemma at_most_ret {A} (a : A) : at_most_calls 0 (@ret PS B A a).
Proof. intros b w. simpl. lia. Qed.

Lemma at_most_call {A} (c : call) (f : PS -> (exn + A) * PS) :
  at_most_calls 1 (@call_provider PS B A c f).
Proof.
  intros b w. unfold call_provider. destruct (f (pstate w)). simpl.
  rewrite length_app. simpl. lia.
Qed.

Lemma at_most_bind {A C} (n1 n2 : nat) (m : M PS B A) (f : A -> M PS B C) :
  at_most_calls n1 m -> (forall a, at_most_calls n2 (f a)) ->
  at_most_calls (n1 + n2) (bind m f).
Proof.
  intros Hm Hf b w. unfold bind. specialize (Hm b w).
  destruct (m b w) as [[e|a] b' w']; simpl in *; [lia|].
  specialize (Hf a b' w'). lia.
Qed.

Lemma at_most_try {A} (n1 n2 : nat) (m : M PS B A) (h : exn -> M PS B A) :
  at_most_calls n1 m -> (forall e, at_most_calls n2 (h e)) ->
  at_most_calls (n1 + n2) (try m h).
Proof.
  intros Hm Hh b w. unfold try. specialize (Hm b w).
  destruct (m b w) as [[e|a] b' w']; simpl in *; [|lia].
  specialize (Hh e b' w'). lia.
Qed.

Lemma at_most_for_return {X A} (n : nat) (xs : list X)
  (body : X -> M PS B (option A)) :
  (forall x, at_most_calls n (body x)) ->
  at_most_calls (List.length xs * n) (for_return xs body).
Proof.
  intros Hb. induction xs as [|x rest IH]; simpl; [apply at_most_ret|].
  apply at_most_bind; [apply Hb|].
  intros [a|]; [|exact IH].
  eapply at_most_weaken; [|apply at_most_ret]. lia.
Qed.

End Frames.

Ltac frame :=
  repeat match goal with
    | |- Wikipedia.keeps_bot (Wikipedia.ret _) => apply keeps_bot_ret
    | |- Wikipedia.keeps_bot (Wikipedia.raise _) => apply keeps_bot_raise
    | |- Wikipedia.keeps_bot Wikipedia.get_bot => apply keeps_bot_get
    | |- Wikipedia.keeps_bot (Wikipedia.wikipedia_search _ _ _) =>
        apply keeps_bot_call
    | |- Wikipedia.keeps_bot (Wikipedia.wikipedia_page _ _ _) =>
        apply keeps_bot_call
    | |- Wikipedia.keeps_bot (Wikipedia.wikipedia_summary _ _ _ _) =>
        apply keeps_bot_call
    | |- Wikipedia.keeps_bot (Wikipedia.page_content _ _) =>
        apply keeps_bot_call
    | |- Wikipedia.keeps_bot (Wikipedia.try _ _) =>
        apply keeps_bot_try; [|intros ?]
    | |- Wikipedia.keeps_bot (Wikipedia.bind _ _) =>
        apply keeps_bot_bind; [|intros ?]
    | |- Wikipedia.keeps_bot (Wikipedia.for_return _ _) =>
        apply keeps_bot_for_return; intros ?
    | |- Wikipedia.keeps_bot (Wikipedia.or_else _ _) =>
        apply keeps_bot_or_else
    | |- Wikipedia.keeps_bot (match ?x with _ => _ end) => destruct x
    | |- Wikipedia.keeps_bot (if ?x then _ else _) => destruct x
    end.

Ltac nonempty :=
  repeat match goal with
    | |- Wikipedia.answers _ (Wikipedia.ret _) =>
        apply answers_ret; try exact I; simpl; try discriminate
    | |- Wikipedia.answers _ (Wikipedia.raise _) => apply answers_raise
    | |- Wikipedia.answers _ (Wikipedia.try _ _) =>
        apply answers_try; [|intros ?]
    | |- Wikipedia.answers _ (Wikipedia.bind _ _) =>
        apply answers_bind; intros ?
    | |- Wikipedia.answers _ (Wikipedia.for_return _ _) =>
        apply answers_for_return; intros ?
    | |- Wikipedia.answers _ (Wikipedia.or_else _ _) =>
        apply answers_or_else
    | |- Wikipedia.answers _ (match ?x with _ => _ end) => destruct x
    | |- Wikipedia.answers _ (if ?x then _ else _) => destruct x
    end.

(** ** [bot.py]: what a query does to the memory and to the provider *)
Section KnowledgeBotRuns.
Import Py Wikipedia Wikipedia.Notations.
Local Open Scope py_scope.
Context {PS : Type} (P : Provider PS).

Lemma bot_search_wikipedia_keeps_bot (q : string) :
  keeps_bot (Bot._search_wikipedia P q).
Proof.
  unfold Bot._search_wikipedia, Bot._search_wikipedia_body,
    Bot.search_or_nothing, Bot.key_terms_search.
  cbv zeta. frame.
  all: unfold Bot.show_result; frame.
Qed.

Lemma bot_save_context_run (q r : string) (m : Bot.ConversationMemory)
  (w : World PS) :
  exists t w',
    Bot.save_context P q r m w = MkRun (inr tt) (Bot.save_context_at m q r t) w' /\
    trace w' = trace w.
Proof.
  unfold Bot.save_context, bind, datetime_now, get_bot, put_bot.
  destruct (now P (pstate w)) as [t s'] eqn:E. cbv iota beta.
  exists t. eexists. split; reflexivity.
Qed.

(** X6. [KnowledgeBot.process_query] records a query exactly when it is
    searched for: a special command (empty, greeting, help, thanks)
    leaves the memory and the world as they were, and any other query
    adds exactly one turn, made of the trimmed query, the response that
    is returned and a timestamp, the search itself never touching the
    memory. Either way the bound of the window is kept. *)
Theorem knowledge_bot_records_searched_queries (query : string)
  (m : Bot.ConversationMemory) (w : World PS) :
  (if Bot.special_command query
   then bot (Bot.process_query P query m w) = m /\
        world (Bot.process_query P query m w) = w
   else exists response t,
          value (Bot.process_query P query m w) = inr response /\
          bot (Bot.process_query P query m w)
          = Bot.save_context_at m (strip query) response t /\
          Bot.last_user_query (bot (Bot.process_query P query m w))
          = Some (strip query)) /\
  (Bot.bounded m -> Bot.bounded (bot (Bot.process_query P query m w))).
Proof.
  assert (H : if Bot.special_command query
              then bot (Bot.process_query P query m w) = m /\
                   world (Bot.process_query P query m w) = w
              else exists response t,
                     value (Bot.process_query P query m w) = inr response /\
                     bot (Bot.process_query P query m w)
                     = Bot.save_context_at m (strip query) response t /\
                     Bot.last_user_query (bot (Bot.process_query P query m w))
                     = Some (strip query)).
  { unfold Bot.special_command, Bot.process_query. cbv zeta.
    destruct (is_empty (strip query)); [split; reflexivity|].
    destruct (mem (lower (strip query)) ["hi"; "hello"; "hey"]);
      [split; reflexivity|].
    destruct (mem (lower (strip query)) ["help"; "?"]); [split; reflexivity|].
    destruct (contains "thank" (lower (strip query))); [split; reflexivity|].
    cbn [orb].
    destruct (quiet_run m w (bot_search_wikipedia_never_raises P (strip query))
                (bot_search_wikipedia_keeps_bot (strip query)))
      as (response & w1 & Hrun).
    destruct (bot_save_context_run (strip query) response m w1)
      as (t & w2 & Hsave & _).
    exists response, t.
    unfold bind. rewrite Hrun, Hsave. repeat split; reflexivity. }
  split; [exact H|].
  intros Hb. destruct (Bot.special_command query).
  - destruct H as [-> _]. exact Hb.
  - destruct H as (response & t & _ & -> & _).
    unfold Bot.bounded. simpl. apply deque_append_length. exact Hb.
Qed.

Lemma at_most_bind_le {B A C} (n1 n2 n : nat) (m : M PS B A)
  (f : A -> M PS B C) :
  n1 + n2 <= n -> at_most_calls n1 m -> (forall a, at_most_calls n2 (f a)) ->
  at_most_calls n (bind m f).
Proof.
  intros Hle Hm Hf. eapply at_most_weaken; [exact Hle|].
  now apply at_most_bind.
Qed.

Lemma at_most_try_le {B A} (n1 n2 n : nat) (m : M PS B A)
  (h : exn -> M PS B A) :
  n1 + n2 <= n -> at_most_calls n1 m -> (forall e, at_most_calls n2 (h e)) ->
  at_most_calls n (try m h).
Proof.
  intros Hle Hm Hh. eapply at_most_weaken; [exact Hle|].
  now apply at_most_try.
Qed.

Lemma at_most_ret_le {B A} (n : nat) (a : A) : at_most_calls n (@ret PS B A a).
Proof. eapply at_most_weaken; [|apply at_most_ret]. lia. Qed.

Lemma at_most_page_summary {B} (t : string) (n : nat) (a : bool)
  (f : WikipediaPage -> string -> option string) :
  at_most_calls 2
    (p <- wikipedia_page (B := B) P t a ;;
     summary <- wikipedia_summary P t n a ;;
     ret (f p summary)).
Proof.
  apply (at_most_bind_le (n1 := 1) (n2 := 1)); [lia|apply at_most_call|].
  intros p.
  apply (at_most_bind_le (n1 := 1) (n2 := 0)); [lia|apply at_most_call|].
  intros s. apply at_most_ret.
Qed.

Lemma bot_search_or_nothing_calls (q : string) :
  at_most_calls 1 (Bot.search_or_nothing P q).
Proof.
  unfold Bot.search_or_nothing.
  apply (at_most_try_le (n1 := 1) (n2 := 0)); [lia|apply at_most_call|].
  intros e. apply at_most_ret.
Qed.

Lemma bot_key_terms_search_calls (q : string) :
  at_most_calls 3 (Bot.key_terms_search P q).
Proof.
  unfold Bot.key_terms_search. cbv zeta.
  destruct (2 <=? List.length (split_ws q))%nat; [|apply at_most_ret_le].
  apply (at_most_bind_le (n1 := 3) (n2 := 0)); [lia| |].
  - eapply at_most_weaken; [|apply (at_most_for_return (n := 1))].
    + rewrite length_seq. lia.
    + intros i.
      apply (at_most_try_le (n1 := 1) (n2 := 0)); [lia| |intros e; apply at_most_ret].
      apply (at_most_bind_le (n1 := 1) (n2 := 0)); [lia|apply at_most_call|].
      intros [|r rs]; apply at_most_ret.
  - intros [r|]; apply at_most_ret.
Qed.

Lemma bot_show_result_calls (result : string) :
  at_most_calls 12 (Bot.show_result P result).
Proof.
  unfold Bot.show_result.
  apply (at_most_try_le (n1 := 2) (n2 := 10)); [lia| |].
  - apply (at_most_page_summary result 5 true (fun p s => Some (Bot.render p s))).
  - intros [m|m options|m|m]; try apply at_most_ret_le.
    eapply at_most_weaken; [|apply (at_most_for_return (n := 2))].
    + pose proof (firstn_le_length 5 options). lia.
    + intros option.
      apply (at_most_try_le (n1 := 2) (n2 := 0)); [lia| |intros e; apply at_most_ret].
      apply (at_most_page_summary option 5 true
               (fun p s => Some (Bot.render p s ++ Bot.nl ++ Bot.nl ++
                  " Multiple matches found. Showing the most relevant result."))).
Qed.

(** X7. One query costs [KnowledgeBot] at most 65 provider calls: at most
    five searches (the cleaned query, the raw query, three word windows)
    and, for each of the first five results, one page and one summary
    lookup plus the same for at most five disambiguation options. *)
Theorem knowledge_bot_call_budget (query : string) :
  at_most_calls 65 (Bot._search_wikipedia P query) /\
  at_most_calls 65 (Bot.process_query P query).
Proof.
  assert (Hs : forall q, at_most_calls 65 (Bot._search_wikipedia P q)).
  { intros q. unfold Bot._search_wikipedia.
    apply (at_most_try_le (n1 := 65) (n2 := 0)); [lia| |intros e; apply at_most_ret].
    unfold Bot._search_wikipedia_body. cbv zeta.
    destruct (is_empty (Bot._clean_query q)); [apply at_most_ret_le|].
    apply (at_most_bind_le (n1 := 1) (n2 := 64));
      [lia|apply bot_search_or_nothing_calls|intros r1].
    apply (at_most_bind_le (n1 := 1) (n2 := 63)); [lia| |intros r2].
    { destruct r1; [apply bot_search_or_nothing_calls|apply at_most_ret_le]. }
    apply (at_most_bind_le (n1 := 3) (n2 := 60)); [lia| |intros r3].
    { destruct r2; [apply bot_key_terms_search_calls|apply at_most_ret_le]. }
    destruct r3 as [|r rs]; [apply at_most_ret_le|].
    unfold or_else.
    apply (at_most_bind_le (n1 := 60) (n2 := 0)); [lia| |].
    - eapply at_most_weaken; [|apply (at_most_for_return (n := 12))].
      + pose proof (firstn_le_length 5 (r :: rs)). lia.
      + intros x. apply bot_show_result_calls.
    - intros [a|]; apply at_most_ret. }
  split; [apply Hs|].
  unfold Bot.process_query. cbv zeta.
  destruct (is_empty (strip query)); [apply at_most_ret_le|].
  destruct (mem (lower (strip query)) ["hi"; "hello"; "hey"]);
    [apply at_most_ret_le|].
  destruct (mem (lower (strip query)) ["help"; "?"]); [apply at_most_ret_le|].
  destruct (contains "thank" (lower (strip query))); [apply at_most_ret_le|].
  apply (at_most_bind_le (n1 := 65) (n2 := 0)); [lia|apply Hs|intros response].
  intros m w. unfold bind.
  destruct (bot_save_context_run (strip query) response m w)
    as (t & w' & Hsave & Htrace).
  rewrite Hsave. simpl. rewrite Htrace. lia.
Qed.

(** X8. The direct hit: when the cleaned query is not empty, the first
    search finds something and the page and summary of the first result
    are there, the search routine answers the rendered first result after
    exactly these three calls, memory untouched. *)
Theorem knowledge_bot_first_hit (query : string) (m : Bot.ConversationMemory)
  (w : World PS) (first : string) (others : list string) (p : WikipediaPage)
  (text : string) (s1 s2 s3 : PS) :
  is_empty (Bot._clean_query query) = false ->
  search P (Bot._clean_query query) 10 (pstate w) = (inr (first :: others), s1) ->
  page P first true s1 = (inr p, s2) ->
  summary P first 5 true s2 = (inr text, s3) ->
  Bot._search_wikipedia P query m w
  = MkRun (inr (Bot.render p text)) m
      {| pstate := s3;
         trace := trace w ++ [CallSearch (Bot._clean_query query) 10;
                              CallPage first true;
                              CallSummary first 5 true] |}.
Proof.
  intros Hne Hsearch Hpage Hsummary.
  unfold Bot._search_wikipedia, Bot._search_wikipedia_body. cbv zeta.
  rewrite Hne.
  unfold try at 1. unfold bind at 1.
  unfold Bot.search_or_nothing at 1, try at 1, wikipedia_search at 1,
    call_provider at 1.
  rewrite Hsearch. cbv iota beta.
  unfold bind at 1. unfold ret at 1. cbv iota beta.
  unfold bind at 1. unfold ret at 1. cbv iota beta.
  unfold or_else, bind at 1. cbn [firstn for_return].
  unfold bind at 1. unfold Bot.show_result at 1, try at 1, bind at 1,
    wikipedia_page at 1, call_provider at 1. cbn [pstate trace].
  rewrite Hpage. cbv iota beta.
  unfold bind at 1, wikipedia_summary at 1, call_provider at 1. cbn [pstate trace].
  rewrite Hsummary. cbv iota beta. unfold ret. cbv iota beta.
  rewrite <- !app_assoc. reflexivity.
Qed.

End KnowledgeBotRuns.

Lemma knowledge_bot_first_hit_witness :
  Bot._search_wikipedia
    {| Wikipedia.search := fun _ _ s => (inr ["Rome"], s);
       Wikipedia.page :=
         fun _ _ s => (inr {| Wikipedia.title := "Rome"; Wikipedia.url := "u" |}, s);
       Wikipedia.summary := fun _ _ _ s => (inr "A city.", s);
       Wikipedia.content := fun _ s => (inr "", s);
       Wikipedia.now := fun s => ("", s) |}
    "What is Rome?" Bot.KnowledgeBot_init Wikipedia.empty_world
  = Wikipedia.MkRun
      (inr (Bot.render {| Wikipedia.title := "Rome"; Wikipedia.url := "u" |}
              "A city."))
      Bot.KnowledgeBot_init
      {| Wikipedia.pstate := tt;
         Wikipedia.trace :=
           [Wikipedia.CallSearch "Rome?" 10; Wikipedia.CallPage "Rome" true;
            Wikipedia.CallSummary "Rome" 5 true] |}.
Proof.
  apply (knowledge_bot_first_hit
           {| Wikipedia.search := fun _ _ s => (inr ["Rome"], s);
              Wikipedia.page :=
                fun _ _ s => (inr {| Wikipedia.title := "Rome"; Wikipedia.url := "u" |}, s);
              Wikipedia.summary := fun _ _ _ s => (inr "A city.", s);
              Wikipedia.content := fun _ s => (inr "", s);
              Wikipedia.now := fun s => ("", s) |}
           "What is Rome?" Bot.KnowledgeBot_init Wikipedia.empty_world
           (first := "Rome") (others := []) (s1 := tt) (s2 := tt) (s3 := tt));
    reflexivity.
Defined.

(** ** [langchain_bot.py]: what a query does to the memory *)
Section LangchainRuns.
Import Py Wikipedia Wikipedia.Notations LangchainBot.
Local Open Scope py_scope.
Context {PS : Type} (P : Provider PS).

Lemma lc_search_wikipedia_direct_keeps_bot (q : string) :
  keeps_bot (_search_wikipedia_direct P q).
Proof.
  unfold _search_wikipedia_direct, _search_wikipedia_direct_body. cbv zeta.
  apply keeps_bot_try; [|intros e; apply keeps_bot_ret].
  destruct (is_empty (_clean_query q)); [apply keeps_bot_ret|].
  apply keeps_bot_or_else.
  - destruct (contains "CEO of" (_clean_query q)); [|apply keeps_bot_ret].
    unfold ceo_branch, ceo_candidate, swallowing. cbv zeta. frame.
    all: unfold ceo_candidate, swallowing; frame.
  - apply keeps_bot_or_else; [|apply keeps_bot_ret].
    unfold general_search, on_disambiguation, on_page_error, swallowing. frame.
Qed.

Lemma lc_extract_education_info_keeps_bot (main entity : string) :
  keeps_bot (_extract_education_info P main entity).
Proof. unfold _extract_education_info. frame. Qed.

Lemma lc_handle_follow_up_keeps_bot (q : string) :
  keeps_bot (_handle_follow_up P q).
Proof.
  unfold _handle_follow_up, load_history. cbv zeta. frame.
  all: first [ apply lc_search_wikipedia_direct_keeps_bot
             | apply lc_extract_education_info_keeps_bot ].
Qed.

Lemma set_last_entity_neutral (e : option string) :
  history_neutral (PS := PS) (set_last_entity e).
Proof. intros b w. unfold set_last_entity, bind, get_bot, put_bot. eauto. Qed.

Lemma ret_tt_neutral : history_neutral (PS := PS) (ret tt).
Proof. intros b w. unfold ret. eauto. Qed.

Lemma lc_fresh_query_run (q sq : string)
  (pre : M PS LangChainKnowledgeBot unit)
  (post : option string -> M PS LangChainKnowledgeBot unit) :
  history_neutral pre -> (forall x, history_neutral (post x)) ->
  forall b w, exists response b' w',
    (pre ;;;
     response <- _search_wikipedia_direct P sq ;;
     extracted_entity <- lift (_extract_entity_from_response response) ;;
     post extracted_entity ;;;
     save_context q response ;;;
     ret response) b w = MkRun (inr response) b' w' /\
    memory b' = memory b ++ exchange q response.
Proof.
  intros Hpre Hpost b w.
  destruct (Hpre b w) as (b1 & w1 & Hrun1 & Hm1).
  destruct (quiet_run b1 w1 (lc_search_wikipedia_direct_never_raises P sq)
              (lc_search_wikipedia_direct_keeps_bot sq))
    as (response & w2 & Hrun2).
  destruct (extract_entity_from_response_returns response) as [x Hx].
  destruct (Hpost x b1 w2) as (b3 & w3 & Hrun3 & Hm3).
  exists response. eexists. eexists.
  unfold bind at 1. rewrite Hrun1.
  unfold bind at 1. rewrite Hrun2.
  unfold bind at 1. rewrite Hx. cbn [lift]. unfold ret at 1.
  unfold bind at 1. rewrite Hrun3.
  unfold bind, save_context, get_bot, put_bot, ret. cbv iota beta.
  split; [reflexivity|]. simpl. rewrite Hm3, Hm1. reflexivity.
Qed.

Lemma lc_answer_run (q : string) (b : LangChainKnowledgeBot) (w : World PS) :
  exists response b' w',
    answer P q b w = MkRun (inr response) b' w' /\
    memory b' = memory b ++ exchange q response.
Proof.
  unfold answer. cbv zeta.
  match goal with
  | |- context [bind _ (fun r => match r with
                                  | Some response => ret response
                                  | None => ?rest
                                  end)] =>
      assert (Hrest : forall b0 w0, exists response b' w',
                 rest b0 w0 = MkRun (inr response) b' w' /\
                 memory b' = memory b0 ++ exchange q response)
  end.
  { apply lc_fresh_query_run.
    - destruct (truthy (_extract_entity q) && negb (_is_follow_up q));
        [apply set_last_entity_neutral|apply ret_tt_neutral].
    - intros x. destruct (truthy x); [apply set_last_entity_neutral|].
      destruct (truthy (_extract_entity q));
        [apply set_last_entity_neutral|apply ret_tt_neutral]. }
  unfold bind at 1.
  destruct (_is_follow_up q).
  - destruct (quiet_run b w (lc_handle_follow_up_never_raises P q)
                (lc_handle_follow_up_keeps_bot q)) as (fr & w1 & Hrun).
    unfold bind at 1. rewrite Hrun.
    destruct (negb (is_empty fr) && negb (contains "Could not find" fr)).
    + exists fr. eexists. eexists.
      unfold bind, save_context, get_bot, put_bot, ret. cbv iota beta.
      split; reflexivity.
    + unfold ret at 1. apply Hrest.
  - unfold ret at 1. apply Hrest.
Qed.

(** X9. Every query that is not blank adds exactly one exchange to the
    history of [LangChainKnowledgeBot]: the text that was there, followed
    by the trimmed query and the response that [process_query] returns;
    [get_conversation_history] then shows that text. *)
Theorem langchain_bot_records_every_query (query : string)
  (b : LangChainKnowledgeBot) (w : World PS) :
  is_empty (strip query) = false ->
  exists response,
    value (process_query P query b w) = inr response /\
    memory (bot (process_query P query b w))
    = memory b ++ exchange (strip query) response /\
    get_conversation_history (bot (process_query P query b w))
    = memory b ++ exchange (strip query) response.
Proof.
  intros Hne.
  assert (H : exists response,
             value (process_query P query b w) = inr response /\
             memory (bot (process_query P query b w))
             = memory b ++ exchange (strip query) response).
  { unfold process_query. cbv zeta. rewrite Hne.
    destruct (mem (lower (strip query)) ["hi"; "hello"; "hey"]);
      [eexists; split; reflexivity|].
    destruct (mem (lower (strip query)) ["help"; "?"]);
      [eexists; split; reflexivity|].
    destruct (contains "thank" (lower (strip query)));
      [eexists; split; reflexivity|].
    destruct (lc_answer_run (strip query) b w) as (r & b' & w' & Hrun & Hm).
    exists r. rewrite Hrun. split; [reflexivity|exact Hm]. }
  destruct H as (response & Hv & Hm). exists response.
  repeat split; try assumption.
  unfold get_conversation_history. rewrite Hm.
  destruct (memory b); reflexivity.
Qed.

End LangchainRuns.

Lemma langchain_bot_records_every_query_witness :
  exists response,
    Wikipedia.value
      (LangchainBot.process_query (Wikipedia.failing_provider (Wikipedia.PageError ""))
         " Rome " LangchainBot.LangChainKnowledgeBot_init Wikipedia.empty_world)
    = inr response /\
    LangchainBot.memory
      (Wikipedia.bot
         (LangchainBot.process_query (Wikipedia.failing_provider (Wikipedia.PageError ""))
            " Rome " LangchainBot.LangChainKnowledgeBot_init Wikipedia.empty_world))
    = ("" ++ LangchainBot.exchange "Rome" response)%string.
Proof.
  destruct (langchain_bot_records_every_query
              (Wikipedia.failing_provider (Wikipedia.PageError "")) " Rome "
              LangchainBot.LangChainKnowledgeBot_init Wikipedia.empty_world
              eq_refl) as (response & Hv & Hm & _).
  exists response. split; [exact Hv|exact Hm].
Defined.

(** ** No empty answers *)
Section NoEmptyAnswer.
Import Py Wikipedia Wikipedia.Notations.
Local Open Scope py_scope.
Context {PS : Type} (P : Provider PS).

Lemma bot_search_wikipedia_filled (q : string) :
  answers filled (Bot._search_wikipedia P q).
Proof.
  unfold Bot._search_wikipedia, Bot._search_wikipedia_body. cbv zeta.
  unfold filled. nonempty.
  all: unfold Bot.show_result, Bot.render; nonempty.
Qed.

Lemma education_from_article_filled (entity text page_url : string) :
  filled (LangchainBot.education_from_article entity text page_url).
Proof.
  unfold LangchainBot.education_from_article, LangchainBot.no_education_details,
    LangchainBot.education_header, filled. cbv zeta.
  destruct (LangchainBot.education_sentences _ text); [simpl; discriminate|].
  destruct (4 <? _)%nat; simpl; discriminate.
Qed.

Lemma education_from_summary_filled (entity main : string) :
  filled (LangchainBot.education_from_summary entity main).
Proof.
  unfold LangchainBot.education_from_summary, LangchainBot.education_hint,
    LangchainBot.education_header, filled. cbv zeta.
  destruct (LangchainBot.education_sentences _ main); simpl; discriminate.
Qed.

Lemma lc_search_wikipedia_direct_filled (q : string) :
  answers filled (LangchainBot._search_wikipedia_direct P q).
Proof.
  unfold LangchainBot._search_wikipedia_direct,
    LangchainBot._search_wikipedia_direct_body. cbv zeta.
  unfold filled. nonempty.
  - unfold LangchainBot.ceo_branch. cbv zeta.
    apply (answers_bind_with (Q1 := when_some (fun s => s <> ""))).
    { unfold LangchainBot.swallowing, LangchainBot.page_block. nonempty. }
    intros [r|] Hr; [apply answers_ret; exact Hr|].
    apply (answers_bind_with (Q1 := when_some (fun s => s <> ""))).
    { unfold LangchainBot.swallowing. nonempty.
      unfold LangchainBot.ceo_candidate, LangchainBot.swallowing,
        LangchainBot.page_block. nonempty. }
    intros [r|] Hr'; [apply answers_ret; exact Hr'|].
    apply (answers_bind_with (Q1 := when_some (fun s => s <> ""))).
    { unfold LangchainBot.swallowing. nonempty.
      unfold LangchainBot.ceo_candidate, LangchainBot.swallowing,
        LangchainBot.page_block. nonempty. }
    intros [r|] Hr''; [apply answers_ret; exact Hr''|].
    unfold LangchainBot.page_block. nonempty.
  - unfold LangchainBot.general_search.
    apply answers_try; [unfold LangchainBot.page_block; nonempty|].
    intros [m|m options|m|m]; try apply answers_raise.
    + unfold LangchainBot.on_page_error, LangchainBot.swallowing.
      apply answers_try; [|intros e; apply answers_ret; exact I].
      apply answers_bind. intros results.
      apply (answers_bind_with (Q1 := when_some (fun s => s <> ""))).
      { unfold LangchainBot.page_block. nonempty. }
      intros [r|] Hr; [apply answers_ret; exact Hr|].
      unfold LangchainBot.page_block. nonempty.
    + unfold LangchainBot.on_disambiguation, LangchainBot.swallowing.
      apply (answers_bind_with (Q1 := when_some (fun s => s <> ""))).
      { unfold LangchainBot.page_block. nonempty. }
      intros [r|] Hr; [apply answers_ret; exact Hr|].
      unfold LangchainBot.page_block. nonempty.
Qed.

Lemma lc_extract_education_info_filled (main entity : string) :
  answers filled (LangchainBot._extract_education_info P main entity).
Proof.
  unfold LangchainBot._extract_education_info.
  apply answers_try.
  - apply answers_bind. intros p. apply answers_bind. intros text.
    apply answers_ret. apply education_from_article_filled.
  - intros e. apply answers_ret. apply education_from_summary_filled.
Qed.

Lemma lc_answer_filled (q : string) :
  answers filled (LangchainBot.answer P q).
Proof.
  unfold LangchainBot.answer. cbv zeta.
  apply (answers_bind_with (Q1 := when_some filled)).
  - destruct (LangchainBot._is_follow_up q); [|apply answers_ret; exact I].
    apply answers_bind. intros fr.
    destruct (negb (is_empty fr) && negb (contains "Could not find" fr)) eqn:Hc;
      [|apply answers_ret; exact I].
    apply answers_bind. intros _. apply answers_ret. simpl.
    apply andb_true_iff in Hc as [Hne _]. intros ->. discriminate Hne.
  - intros [response|] Hr; [apply answers_ret; exact Hr|].
    apply answers_bind. intros _.
    apply (answers_bind_with (Q1 := filled));
      [apply lc_search_wikipedia_direct_filled|].
    intros response Hresponse.
    apply answers_bind. intros x. apply answers_bind. intros _.
    apply answers_bind. intros _. apply answers_ret. exact Hresponse.
Qed.

(** X10. Neither bot ever answers with the empty string: whatever the
    query and the provider, what [process_query] returns holds at least
    one character. *)
Theorem process_query_never_answers_empty (query : string) :
  answers (fun response => response <> "") (Bot.process_query P query) /\
  answers (fun response => response <> "") (LangchainBot.process_query P query).
Proof.
  split.
  - unfold Bot.process_query. cbv zeta.
    destruct (is_empty (strip query)); [apply answers_ret; discriminate|].
    destruct (mem (lower (strip query)) ["hi"; "hello"; "hey"]);
      [apply answers_ret; intros H; vm_compute in H; discriminate H|].
    destruct (mem (lower (strip query)) ["help"; "?"]);
      [apply answers_ret; intros H; vm_compute in H; discriminate H|].
    destruct (contains "thank" (lower (strip query)));
      [apply answers_ret; discriminate|].
    apply (answers_bind_with (Q1 := filled));
      [apply bot_search_wikipedia_filled|].
    intros response Hresponse. apply answers_bind. intros _.
    apply answers_ret. exact Hresponse.
  - unfold LangchainBot.process_query. cbv zeta.
    destruct (is_empty (strip query)); [apply answers_ret; discriminate|].
    destruct (mem (lower (strip query)) ["hi"; "hello"; "hey"]).
    { apply answers_bind. intros _. apply answers_ret.
      intros H; vm_compute in H; discriminate H. }
    destruct (mem (lower (strip query)) ["help"; "?"]).
    { apply answers_bind. intros _. apply answers_ret.
      intros H; vm_compute in H; discriminate H. }
    destruct (contains "thank" (lower (strip query))).
    { apply answers_bind. intros _. apply answers_ret. discriminate. }
    apply lc_answer_filled.
Qed.

End NoEmptyAnswer.

(** ** Literal patterns are substring tests *)
Section LiteralPatterns.
Import Py LangchainBot.

Lemma lit_match_prefix (l : string) (prev : option ascii) (s : string) :
  String.prefix l s = true -> exists prev', Re.lit_match l prev s
                                            = Some (prev', drop (String.length l) s).
Proof.
  revert prev s. induction l as [|c l' IH]; intros prev s H; simpl.
  - eauto.
  - destruct s as [|d s']; [discriminate|]. simpl in H.
    destruct (ascii_dec c d) as [->|]; [|discriminate].
    rewrite Ascii.eqb_refl. apply IH, H.
Qed.

Lemma search_literal (l : string) (prev : option ascii) (s : string) :
  contains l s = true -> exists caps, Re.search_from (Re.Lit l) prev s = Some caps.
Proof.
  revert prev. induction s as [|c r IH]; intros prev H.
  - cbn [contains] in H. rewrite orb_false_r in H.
    destruct (lit_match_prefix l prev "" H) as [prev' Hm].
    cbn [Re.search_from]. unfold Re.match_here. cbn [Re.rmatch].
    rewrite Hm. eauto.
  - cbn [Re.search_from]. unfold Re.match_here. cbn [Re.rmatch].
    cbn [contains] in H.
    destruct (String.prefix l (String c r)) eqn:Hp.
    + destruct (lit_match_prefix l prev (String c r) Hp) as [prev' Hm].
      rewrite Hm. eauto.
    + simpl in H. destruct (Re.lit_match l prev (String c r)) as [[p' s']|];
        [eauto|]. apply IH, H.
Qed.

Lemma search_opening (l s : string) :
  startswith s l = true ->
  exists caps, Re.search (Re.Seq Re.Bol (Re.Lit l)) s = Some caps.
Proof.
  intros H. unfold Re.search.
  destruct (lit_match_prefix l None s H) as [prev' Hm].
  destruct s as [|c r]; cbn [Re.search_from]; unfold Re.match_here;
    cbn [Re.rmatch]; rewrite Hm; eauto.
Qed.

Lemma existsb_in {A} (f : A -> bool) (x : A) (xs : list A) :
  In x xs -> f x = true -> existsb f xs = true.
Proof. intros Hin Hf. apply existsb_exists. eauto. Qed.

(** The classifier takes surface words at face value: a query that,
    once lower-cased and trimmed, opens with one of the pronoun, wh-word
    or continuation phrases, or holds one of the attribute words anywhere
    (["history"], ["highest"], ["of them"], ...), counts as a follow-up,
    whatever else it says. *)
Theorem follow_up_by_surface_phrase (query phrase : string) :
  (In phrase opening_phrases ->
   startswith (strip (lower query)) phrase = true ->
   _is_follow_up query = true) /\
  (In phrase floating_phrases ->
   contains phrase (strip (lower query)) = true ->
   _is_follow_up query = true).
Proof.
  split; intros Hin H; unfold _is_follow_up; cbv zeta.
  - destruct (search_opening _ _ H) as [caps Hs].
    apply existsb_in with (x := Re.Seq Re.Bol (Re.Lit phrase)); [|now rewrite Hs].
    simpl in Hin.
    repeat (destruct Hin as [<-|Hin]; [simpl; tauto|]). destruct Hin.
  - destruct (search_literal _ None _ H) as [caps Hs].
    apply existsb_in with (x := Re.Lit phrase);
      [|unfold Re.search; now rewrite Hs].
    simpl in Hin.
    repeat (destruct Hin as [<-|Hin]; [simpl; tauto|]). destruct Hin.
Qed.

Lemma follow_up_by_surface_phrase_witness :
  _is_follow_up "What is the History of Rome?" = true /\
  _is_follow_up "  How tall is it?" = true.
Proof.
  split.
  - apply (proj2 (follow_up_by_surface_phrase
                    "What is the History of Rome?" "history")).
    + simpl. tauto.
    + reflexivity.
  - apply (proj1 (follow_up_by_surface_phrase "  How tall is it?" "how ")).
    + simpl. tauto.
    + reflexivity.
Defined.

End LiteralPatterns.

(** ** What a match can capture *)
Section Captures.
Import Py.
Variable q : ascii -> bool.

Lemma all_chars_take (n : nat) (s : string) :
  all_chars q s = true -> all_chars q (take n s) = true.
Proof.
  revert s. induction n as [|n IH]; intros s H; [reflexivity|].
  destruct s as [|c r]; [reflexivity|]. simpl in H |- *.
  apply andb_true_iff in H as [Hc Hr]. rewrite Hc. now apply IH.
Qed.

Lemma lit_match_chars (l : string) (prev : option ascii) (s : string)
  (prev' : option ascii) (s' : string) :
  all_chars q s = true -> Re.lit_match l prev s = Some (prev', s') ->
  all_chars q s' = true.
Proof.
  revert prev s. induction l as [|c l' IH]; intros prev s Hs Hm; simpl in Hm.
  - now inversion Hm; subst.
  - destruct s as [|d r]; [discriminate|].
    destruct (Ascii.eqb c d); [|discriminate].
    simpl in Hs. apply andb_true_iff in Hs as [_ Hr]. eapply IH; eauto.
Qed.

Lemma star_greedy_chars {R} (p : ascii -> bool) (s : string)
  (prev : option ascii) (k : option ascii -> string -> option R) (res : R) :
  all_chars q s = true -> Re.star_greedy p prev s k = Some res ->
  exists prev' s', all_chars q s' = true /\ k prev' s' = Some res.
Proof.
  revert prev. induction s as [|c r IH]; intros prev Hs Hm;
    cbn [Re.star_greedy] in Hm; [eauto|].
  pose proof Hs as Hs'. simpl in Hs'. apply andb_true_iff in Hs' as [_ Hr].
  destruct (p c); [|eauto].
  destruct (Re.star_greedy p (Some c) r k) eqn:E; [|eauto].
  inversion Hm; subst. eapply IH; eauto.
Qed.

Lemma star_lazy_chars {R} (p : ascii -> bool) (s : string)
  (prev : option ascii) (k : option ascii -> string -> option R) (res : R) :
  all_chars q s = true -> Re.star_lazy p prev s k = Some res ->
  exists prev' s', all_chars q s' = true /\ k prev' s' = Some res.
Proof.
  revert prev. induction s as [|c r IH]; intros prev Hs Hm;
    cbn [Re.star_lazy] in Hm.
  - destruct (k prev "") eqn:E; [|discriminate]. inversion Hm; subst. eauto.
  - destruct (k prev (String c r)) eqn:E.
    + inversion Hm; subst. eauto.
    + simpl in Hs. apply andb_true_iff in Hs as [_ Hr].
      destruct (p c); [|discriminate]. eapply IH; eauto.
Qed.

(** Whatever a pattern does, its continuation is entered at a later
    position of the same text, with captures cut from that text. *)
Lemma rmatch_chars {R} (r : Re.regex) :
  forall (prev : option ascii) (s : string) (caps : Re.captures)
         (k : Re.cont R) (res : R),
    all_chars q s = true -> Re.clean_captures q caps ->
    Re.rmatch r prev s caps k = Some res ->
    exists prev' s' caps',
      all_chars q s' = true /\ Re.clean_captures q caps' /\
      k prev' s' caps' = Some res.
Proof.
  induction r as [l|p| | | |r1 IH1 r2 IH2|r1 IH1 r2 IH2|r1 IH1|p|p|i r1 IH1];
    intros prev s caps k res Hs Hc Hm; cbn [Re.rmatch] in Hm.
  - destruct (Re.lit_match l prev s) as [[prev' s']|] eqn:E; [|discriminate].
    exists prev', s', caps. repeat split; eauto using lit_match_chars.
  - destruct s as [|c s']; [discriminate|]. destruct (p c); [|discriminate].
    simpl in Hs. apply andb_true_iff in Hs as [_ Hr]. eauto 6.
  - destruct prev; [discriminate|]. eauto 6.
  - destruct (Re.at_eol s); [|discriminate]. eauto 6.
  - destruct (xorb _ _); [|discriminate]. eauto 6.
  - destruct (IH1 _ _ _ _ _ Hs Hc Hm) as (prev' & s' & caps' & Hs' & Hc' & Hm').
    eapply IH2; eauto.
  - destruct (Re.rmatch r1 prev s caps k) eqn:E.
    + inversion Hm; subst. eapply IH1; eauto.
    + eapply IH2; eauto.
  - destruct (Re.rmatch r1 prev s caps k) eqn:E.
    + inversion Hm; subst. eapply IH1; eauto.
    + eauto 6.
  - destruct s as [|c s']; [discriminate|]. destruct (p c); [|discriminate].
    simpl in Hs. apply andb_true_iff in Hs as [_ Hr].
    destruct (star_greedy_chars _ _ _ _ Hr Hm) as (prev' & s'' & Hs'' & Hk).
    eauto 6.
  - destruct s as [|c s']; [discriminate|]. destruct (p c); [|discriminate].
    simpl in Hs. apply andb_true_iff in Hs as [_ Hr].
    destruct (star_lazy_chars _ _ _ _ Hr Hm) as (prev' & s'' & Hs'' & Hk).
    eauto 6.
  - destruct (IH1 _ _ _ _ _ Hs Hc Hm) as (prev' & s' & caps' & Hs' & Hc' & Hm').
    exists prev', s'. eexists. repeat split; [exact Hs'| |exact Hm'].
    constructor; [|exact Hc']. simpl. now apply all_chars_take.
Qed.

Lemma search_from_chars (r : Re.regex) (s : string) (prev : option ascii)
  (caps : Re.captures) :
  all_chars q s = true -> Re.search_from r prev s = Some caps ->
  Re.clean_captures q caps.
Proof.
  revert prev. induction s as [|c s' IH]; intros prev Hs Hm;
    cbn [Re.search_from] in Hm.
  - destruct (Re.match_here r prev "") as [[n caps']|] eqn:E; [|discriminate].
    inversion Hm; subst. unfold Re.match_here in E.
    destruct (rmatch_chars r _ _ _ Hs (Forall_nil _) E)
      as (prev' & s'' & caps'' & _ & Hc & Hk).
    now inversion Hk; subst.
  - destruct (Re.match_here r prev (String c s')) as [[n caps']|] eqn:E.
    + inversion Hm; subst. unfold Re.match_here in E.
      destruct (rmatch_chars r _ _ _ Hs (Forall_nil _) E)
        as (prev' & s'' & caps'' & _ & Hc & Hk).
      now inversion Hk; subst.
    + simpl in Hs. apply andb_true_iff in Hs as [_ Hr]. eapply IH; eauto.
Qed.

Lemma group_chars (i : nat) (caps : Re.captures) :
  Re.clean_captures q caps -> all_chars q (Re.group i caps) = true.
Proof.
  induction 1 as [|[j t] rest Ht Hrest IH]; simpl; [reflexivity|].
  destruct (Nat.eqb i j); [exact Ht|exact IH].
Qed.

Lemma sub_empty_from_chars (r : Re.regex) (s : string) :
  forall prev skip,
    all_chars q s = true -> all_chars q (Re.sub_empty_from r prev s skip) = true.
Proof.
  induction s as [|c s' IH]; intros prev skip Hs; [reflexivity|].
  simpl in Hs. apply andb_true_iff in Hs as [Hc Hr].
  cbn [Re.sub_empty_from]. destruct skip as [|n]; [|now apply IH].
  destruct (Re.match_here r prev (String c s')) as [[[|n] caps]|];
    try (simpl; rewrite Hc; now apply IH).
  now apply IH.
Qed.

Lemma rstrip_by_chars (p : ascii -> bool) (s : string) :
  all_chars q s = true -> all_chars q (rstrip_by p s) = true.
Proof.
  intros H. destruct (rstrip_by_decomp p s) as (t & Heq & _).
  rewrite Heq, all_chars_app in H. now apply andb_true_iff in H.
Qed.

End Captures.

Section EntityCase.
Import Py LangchainBot.

Lemma lower_char_idem (c : ascii) : lower_char (lower_char c) = lower_char c.
Proof. destruct c as [[] [] [] [] [] [] [] []]; vm_compute; reflexivity. Qed.

Lemma lower_is_lowered (s : string) : all_chars is_lowered (lower s) = true.
Proof.
  induction s as [|c r IH]; simpl; [reflexivity|]. rewrite IH.
  unfold is_lowered. rewrite lower_char_idem, Ascii.eqb_refl. reflexivity.
Qed.

Lemma lowered_fixed (s : string) : all_chars is_lowered s = true -> lower s = s.
Proof.
  induction s as [|c r IH]; simpl; [reflexivity|]. intros H.
  apply andb_true_iff in H as [Hc Hr]. unfold is_lowered in Hc.
  apply Ascii.eqb_eq in Hc. now rewrite Hc, IH.
Qed.

Lemma first_entity_lowered (ps : list (string * Re.regex)) (ql e : string) :
  all_chars is_lowered ql = true -> first_entity ps ql = Some e ->
  all_chars is_lowered e = true /\ strip e = e.
Proof.
  intros Hq. induction ps as [|[name pattern] rest IH]; intros H;
    cbn [first_entity] in H; [discriminate|].
  destruct (Re.search pattern ql) as [m|] eqn:E; [|now apply IH].
  inversion H; subst. split; [|apply strip_idem].
  apply all_chars_strip, rstrip_by_chars, all_chars_strip,
    sub_empty_from_chars, all_chars_strip, group_chars.
  eapply search_from_chars; eauto.
Qed.

(** X11. Whatever [_extract_entity] extracts is lower-case and trimmed:
    it is cut from the lower-cased query, so the capitals of a name are
    lost before the search query is built from it. *)
Theorem extracted_entity_is_lower_case (query e : string) :
  _extract_entity query = Some e -> lower e = e /\ strip e = e.
Proof.
  unfold _extract_entity. cbv zeta. intros H.
  destruct (@first_entity_lowered patterns (strip (lower query)) e) as [Hl Hs];
    [apply all_chars_strip, lower_is_lowered|exact H|].
  split; [now apply lowered_fixed|exact Hs].
Qed.

Lemma extracted_entity_is_lower_case_witness :
  lower "openai" = "openai" /\ strip "openai" = "openai".
Proof.
  apply (extracted_entity_is_lower_case "Who is the CEO of OpenAI?" eq_refl).
Defined.

End EntityCase.

(** ** From a rendered page back to its title *)
Section TitleRoundTrip.
Import Py LangchainBot.

Lemma star_lazy_skip {R} (t rest : string)
  (k : option ascii -> string -> option R) (x : R) :
  (forall pv c r, Ascii.eqb c "*"%char = false -> k pv (String c r) = None) ->
  (forall pv, k pv rest = Some x) ->
  forall prev, all_chars title_char t = true ->
               Re.star_lazy Re.dot prev (t ++ rest) k = Some x.
Proof.
  intros Hfail Hok. induction t as [|c t' IH]; intros prev Ht.
  - simpl. destruct rest; cbn [Re.star_lazy]; now rewrite Hok.
  - simpl in Ht. apply andb_true_iff in Ht as [Hc Ht'].
    unfold title_char in Hc. apply andb_true_iff in Hc as [Hdot Hstar].
    apply negb_true_iff in Hstar.
    change (String c t' ++ rest) with (String c (t' ++ rest)).
    cbn [Re.star_lazy]. rewrite (Hfail prev c _ Hstar), Hdot. now apply IH.
Qed.

Lemma take_app_exact (a b : string) : take (String.length a) (a ++ b) = a.
Proof. induction a as [|c a' IH]; simpl; [now destruct b|now rewrite IH]. Qed.

Lemma search_bold (t tail : string) :
  t <> "" -> all_chars title_char t = true ->
  Re.search bold ("**" ++ t ++ "**" ++ tail) = Some [(1, t)].
Proof.
  intros Hne Ht. destruct t as [|c t']; [contradiction|].
  pose proof Ht as Ht0.
  simpl in Ht. apply andb_true_iff in Ht as [Hc Ht'].
  unfold title_char in Hc. apply andb_true_iff in Hc as [Hdot _].
  unfold Re.search, bold. cbn [Re.cat].
  change ("**" ++ String c t' ++ "**" ++ tail)
    with (String "*" (String "*" (String c (t' ++ "**" ++ tail)))).
  cbn [Re.search_from]. unfold Re.match_here.
  cbn [Re.rmatch Re.lit_match]. rewrite !Ascii.eqb_refl.
  cbn [Re.rmatch]. rewrite Hdot.
  erewrite star_lazy_skip
    with (rest := "**" ++ tail) (x := (_, [(1, String c t')]));
    [reflexivity| | |exact Ht'].
  - intros pv d r Hd. cbn [Re.lit_match].
    rewrite Ascii.eqb_sym in Hd. now rewrite Hd.
  - intros pv. cbn [append Re.lit_match]. rewrite !Ascii.eqb_refl.
    f_equal. f_equal. f_equal. f_equal.
    change (String c (t' ++ String "*" (String "*" tail)))
      with (String c t' ++ "**" ++ tail).
    match goal with
    | |- take ?n _ = _ => replace n with (String.length (String c t'))
    end.
    + apply take_app_exact.
    + rewrite length_app_s. simpl. lia.
Qed.

Lemma page_block_shape (p : Wikipedia.WikipediaPage) (summary tail : string) :
  page_block p summary ++ tail
  = "**" ++ Wikipedia.title p ++ "**" ++
    (nl ++ nl ++ summary ++ nl ++ nl ++ tail).
Proof.
  unfold page_block. simpl.
  rewrite !app_assoc_s. simpl. rewrite !app_assoc_s. reflexivity.
Qed.

(** X12. The title comes back out of a rendered page: for a response that
    begins with the bold title block, [_extract_entity_from_response]
    returns the trimmed page title, provided the title is not empty,
    holds no asterisk or line feed and none of the rejected words. *)
Theorem rendered_title_is_extracted (p : Wikipedia.WikipediaPage)
  (summary tail : string) :
  Wikipedia.title p <> "" ->
  all_chars title_char (Wikipedia.title p) = true ->
  any_in ["page"; "summary"; "wikipedia"; "list of"]
         (lower (strip (Wikipedia.title p))) = false ->
  _extract_entity_from_response (page_block p summary ++ tail)
  = inr (Some (strip (Wikipedia.title p))).
Proof.
  intros Hne Ht Hnoise. unfold _extract_entity_from_response. cbv zeta.
  rewrite page_block_shape, (search_bold _ Hne Ht).
  cbn [Re.group Nat.eqb]. now rewrite Hnoise.
Qed.

Lemma rendered_title_is_extracted_witness :
  _extract_entity_from_response
    (page_block {| Wikipedia.title := "Sundar Pichai"; Wikipedia.url := "u" |}
       "He is the CEO." ++ "[Read more](u)")
  = inr (Some "Sundar Pichai").
Proof.
  apply (rendered_title_is_extracted
           {| Wikipedia.title := "Sundar Pichai"; Wikipedia.url := "u" |}
           "He is the CEO." "[Read more](u)").
  - discriminate.
  - reflexivity.
  - reflexivity.
Defined.

End TitleRoundTrip.

(** ** The education formatter without the article *)
Section EducationFallback.
Import Py Wikipedia Wikipedia.Notations LangchainBot.
Local Open Scope py_scope.

Lemma firstn_in {A} (n : nat) (x : A) (xs : list A) :
  In x (firstn n xs) -> In x xs.
Proof.
  revert xs. induction n as [|n IH]; intros xs H; [destruct H|].
  destruct xs as [|y ys]; [destruct H|].
  simpl in H. destruct H as [->|H]; [now left|right; now apply IH].
Qed.

(** X13. When the article cannot be had, because the page lookup fails
    or because reading the content of the page that was found fails, the
    formatter works on the summary it was handed: it keeps, in their
    order, exactly the trimmed sentences of that summary which hold a
    keyword of the shorter list, shows the first three at most under the
    education header, and never appends an ellipsis or a link; with no
    such sentence it wraps the summary itself. The bot is left as it was
    and the calls made are the page lookup and, in the second case, the
    content read. *)
Theorem education_fallback_keeps_three {PS : Type} (P : Provider PS)
  (main_page_response entity_name : string) (b : LangChainKnowledgeBot)
  (w : World PS) (e : exn) (s' : PS) (calls : list call) :
  (page P entity_name false (pstate w) = (inl e, s') /\
   calls = [CallPage entity_name false]) \/
  (exists p s1,
     page P entity_name false (pstate w) = (inr p, s1) /\
     content P p s1 = (inl e, s') /\
     calls = [CallPage entity_name false; CallContent p]) ->
  let sentences := map strip (Re.split sentence_end main_page_response) in
  let found := filter (fun s => any_in education_keywords_fallback (lower s))
                 sentences in
  let kept := firstn 3 found in
  education_sentences education_keywords_fallback main_page_response = found /\
  _extract_education_info P main_page_response entity_name b w
  = MkRun (inr (match found with
                | [] => education_hint entity_name main_page_response
                | _ => education_header entity_name ++ join ". " kept
                end))
      b {| pstate := s'; trace := trace w ++ calls |} /\
  List.length kept <= 3 /\
  Forall (fun s => s <> "") found /\
  (found <> [] ->
   ~ endswith (education_header entity_name ++ join ". " kept) "...").
Proof.
  intros Hfail sentences found kept.
  assert (Hf : education_sentences education_keywords_fallback main_page_response
               = found).
  { apply collect_sentences_filter. reflexivity. }
  assert (Hkept :
    Forall (fun s => s <> "" /\
              any_in education_keywords_fallback (lower s) = true /\
              all_chars (fun c => negb (Re.one_of ".!?" c)) s = true /\
              In s (map strip (Re.split sentence_end main_page_response))) found).
  { rewrite <- Hf.
    exact (@collect_sentences_kept (fun c => negb (Re.one_of ".!?" c))
             education_keywords_fallback _
             (@split_pieces_clean (Re.one_of ".!?") main_page_response None 0)). }
  assert (Hk : Forall (fun s => s <> "" /\
                 all_chars (fun c => negb (Re.one_of ".!?" c)) s = true) kept).
  { apply Forall_forall. intros s Hs. apply firstn_in in Hs.
    destruct (proj1 (Forall_forall _ _) Hkept s Hs) as (H1 & _ & H3 & _). auto. }
  split; [exact Hf|].
  split.
  { unfold _extract_education_info, try, bind, wikipedia_page, page_content,
      call_provider.
    destruct Hfail as [[Hpage ->]|(p & s1 & Hpage & Hcontent & ->)].
    - rewrite Hpage. unfold ret, education_from_summary. cbv zeta.
      rewrite Hf. destruct found; reflexivity.
    - rewrite Hpage. cbn [pstate trace]. rewrite Hcontent.
      unfold ret, education_from_summary. cbv zeta.
      rewrite Hf, <- app_assoc. destruct found; reflexivity. }
  split; [apply firstn_le_length|].
  split.
  { eapply Forall_impl; [|exact Hkept]. intros s (H1 & _). exact H1. }
  intros Hne Hend.
  assert (Hkne : kept <> []).
  { unfold kept. destruct found; [contradiction|discriminate]. }
  destruct (@join_last (fun c => negb (Re.one_of ".!?" c)) ". " kept Hkne Hk)
    as (c & Hc & Hqc).
  assert (Hj : join ". " kept <> "").
  { intros E. rewrite E in Hc. discriminate. }
  apply (@no_ellipsis_without_dot
           (education_header entity_name ++ join ". " kept) c); [| |exact Hend].
  + rewrite last_char_app; assumption.
  + intros ->. vm_compute in Hqc. discriminate.
Qed.

Lemma education_fallback_keeps_three_witness :
  _extract_education_info (failing_provider (PageError "none"))
    "Born in Rome. He studied law. He went to college! He sailed? A degree. His phd. The end"
    "Ada" LangChainKnowledgeBot_init empty_world
  = MkRun (inr ("**Ada - Education**" ++ nl ++ nl ++
                "He studied law. He went to college. A degree"))
      LangChainKnowledgeBot_init
      {| pstate := tt; trace := [CallPage "Ada" false] |} /\
  _extract_education_info
    (contentless_provider {| title := "Ada"; url := "u" |} "" (OtherException "lost"))
    "Born in Rome. He studied law. He went to college! He sailed? A degree. His phd. The end"
    "Ada" LangChainKnowledgeBot_init empty_world
  = MkRun (inr ("**Ada - Education**" ++ nl ++ nl ++
                "He studied law. He went to college. A degree"))
      LangChainKnowledgeBot_init
      {| pstate := tt;
         trace := [CallPage "Ada" false;
                   CallContent {| title := "Ada"; url := "u" |}] |}.
Proof.
  split.
  - exact (proj1 (proj2
      (@education_fallback_keeps_three unit
         (failing_provider (PageError "none"))
         "Born in Rome. He studied law. He went to college! He sailed? A degree. His phd. The end"
         "Ada" LangChainKnowledgeBot_init empty_world
         (PageError "none") tt [CallPage "Ada" false]
         (or_introl (conj eq_refl eq_refl))))).
  - exact (proj1 (proj2
      (@education_fallback_keeps_three unit
         (contentless_provider {| title := "Ada"; url := "u" |} ""
            (OtherException "lost"))
         "Born in Rome. He studied law. He went to college! He sailed? A degree. His phd. The end"
         "Ada" LangChainKnowledgeBot_init empty_world
         (OtherException "lost") tt
         [CallPage "Ada" false; CallContent {| title := "Ada"; url := "u" |}]
         (or_intror (ex_intro _ {| title := "Ada"; url := "u" |}
                       (ex_intro _ tt (conj eq_refl (conj eq_refl eq_refl)))))))).
Defined.

End EducationFallback.

(** ** The general search when the page is there *)
Section DirectHit.
Import Py Wikipedia Wikipedia.Notations LangchainBot.
Local Open Scope py_scope.

Lemma lc_direct_hit_run {PS : Type} (P : Provider PS) (query : string)
  (b : LangChainKnowledgeBot) (w : World PS) (p : WikipediaPage)
  (text : string) (s1 s2 : PS) :
  is_empty (_clean_query query) = false ->
  contains "CEO of" (_clean_query query) = false ->
  page P (_clean_query query) false (pstate w) = (inr p, s1) ->
  summary P (_clean_query query) 5 false s1 = (inr text, s2) ->
  _search_wikipedia_direct P query b w
  = MkRun (inr (page_block p text ++ "[Read more](" ++ url p ++ ")")) b
      {| pstate := s2;
         trace := trace w ++ [CallPage (_clean_query query) false;
                              CallSummary (_clean_query query) 5 false] |}.
Proof.
  intros Hne Hceo Hpage Hsummary.
  unfold _search_wikipedia_direct, _search_wikipedia_direct_body. cbv zeta.
  rewrite Hne, Hceo.
  unfold try at 1, or_else at 1, bind at 1, ret at 1. cbv iota beta.
  unfold or_else at 1, bind at 1, general_search at 1, try at 1, bind at 1,
    wikipedia_page at 1, call_provider at 1.
  rewrite Hpage. cbv iota beta.
  unfold bind at 1, wikipedia_summary at 1, call_provider at 1. cbn [pstate trace].
  rewrite Hsummary. cbv iota beta. unfold ret. cbv iota beta.
  rewrite <- !app_assoc. reflexivity.
Qed.

(** X14. The direct hit of the general search: for a cleaned query that
    is not empty and holds no ["CEO of"], when the page of that exact
    title and its summary are there, the answer is the title block, the
    five-sentence summary and the link, after exactly two calls made
    without auto-suggestion; the bot's fields are untouched. *)
Theorem langchain_direct_hit {PS : Type} (P : Provider PS) (query : string)
  (b : LangChainKnowledgeBot) (w : World PS) (p : WikipediaPage)
  (text : string) (s1 s2 : PS) :
  is_empty (_clean_query query) = false ->
  contains "CEO of" (_clean_query query) = false ->
  page P (_clean_query query) false (pstate w) = (inr p, s1) ->
  summary P (_clean_query query) 5 false s1 = (inr text, s2) ->
  _search_wikipedia_direct P query b w
  = MkRun (inr (page_block p text ++ "[Read more](" ++ url p ++ ")")) b
      {| pstate := s2;
         trace := trace w ++ [CallPage (_clean_query query) false;
                              CallSummary (_clean_query query) 5 false] |}.
Proof. apply lc_direct_hit_run. Qed.

Lemma langchain_direct_hit_witness :
  value (_search_wikipedia_direct
           (canned_provider {| title := "Rome"; url := "u" |} "A city.")
           "Tell me about Rome" LangChainKnowledgeBot_init empty_world)
  = inr (page_block {| title := "Rome"; url := "u" |} "A city." ++
         "[Read more](u)").
Proof.
  rewrite (langchain_direct_hit
             (canned_provider {| title := "Rome"; url := "u" |} "A city.")
             "Tell me about Rome" LangChainKnowledgeBot_init empty_world
             (p := {| title := "Rome"; url := "u" |}) (text := "A city.")
             (s1 := tt) (s2 := tt) eq_refl eq_refl eq_refl eq_refl).
  reflexivity.
Defined.

End DirectHit.

(** ** The topic a fresh query leaves behind *)
Section TopicTracking.
Import Py Wikipedia Wikipedia.Notations LangchainBot.
Local Open Scope py_scope.

Lemma special_command_false (query : string) :
  Bot.special_command query = false ->
  is_empty (strip query) = false /\
  mem (lower (strip query)) ["hi"; "hello"; "hey"] = false /\
  mem (lower (strip query)) ["help"; "?"] = false /\
  contains "thank" (lower (strip query)) = false.
Proof.
  unfold Bot.special_command. cbv zeta. intros H.
  apply orb_false_iff in H as [H H4].
  apply orb_false_iff in H as [H H3].
  apply orb_false_iff in H as [H1 H2]. auto.
Qed.

(** X15. A fresh query answered by a direct hit sets the topic: for a
    query that is no special command, no follow-up and matches no entity
    pattern, when the general search finds the page at once,
    [process_query] returns the rendered page, appends the exchange to
    the history and stores the trimmed page title in [last_entity], the
    topic the next follow-up is resolved against. *)
Theorem fresh_direct_hit_sets_topic {PS : Type} (P : Provider PS)
  (query : string) (b : LangChainKnowledgeBot) (w : World PS)
  (p : WikipediaPage) (text : string) (s1 s2 : PS) :
  Bot.special_command query = false ->
  _is_follow_up (strip query) = false ->
  _extract_entity (strip query) = None ->
  is_empty (_clean_query (strip query)) = false ->
  contains "CEO of" (_clean_query (strip query)) = false ->
  page P (_clean_query (strip query)) false (pstate w) = (inr p, s1) ->
  summary P (_clean_query (strip query)) 5 false s1 = (inr text, s2) ->
  is_empty (strip (title p)) = false ->
  all_chars title_char (title p) = true ->
  any_in ["page"; "summary"; "wikipedia"; "list of"]
         (lower (strip (title p))) = false ->
  let response := page_block p text ++ "[Read more](" ++ url p ++ ")" in
  process_query P query b w
  = MkRun (inr response)
      {| memory := memory b ++ exchange (strip query) response;
         last_entity := Some (strip (title p)) |}
      {| pstate := s2;
         trace := trace w ++ [CallPage (_clean_query (strip query)) false;
                              CallSummary (_clean_query (strip query)) 5 false] |}.
Proof.
  intros Hspecial Hfollow Hentity Hne Hceo Hpage Hsummary Htitle Hchars Hnoise
    response.
  destruct (special_command_false _ Hspecial) as (H1 & H2 & H3 & H4).
  assert (Htne : title p <> "").
  { intros E. rewrite E in Htitle. discriminate. }
  unfold process_query. cbv zeta. rewrite H1, H2, H3, H4.
  unfold answer. cbv zeta. rewrite Hfollow, Hentity. cbn [truthy andb].
  unfold bind at 1. unfold ret at 1. cbv iota beta.
  unfold bind at 1. unfold ret at 1. cbv iota beta.
  unfold bind at 1.
  rewrite (@lc_direct_hit_run PS P (strip query) b _ p text s1 s2 Hne Hceo Hpage Hsummary).
  unfold bind at 1.
  assert (Hx : _extract_entity_from_response
                 (page_block p text ++ "[Read more](" ++ url p ++ ")")
               = inr (Some (strip (title p)))).
  { unfold _extract_entity_from_response. cbv zeta.
    rewrite page_block_shape, (@search_bold _ _ Htne Hchars).
    cbn [Re.group Nat.eqb]. now rewrite Hnoise. }
  rewrite Hx. cbn [lift]. unfold ret at 1. cbv iota beta.
  destruct (strip (title p)) as [|c t] eqn:Et; [discriminate Htitle|].
  cbn [truthy].
  unfold bind, set_last_entity, save_context, get_bot, put_bot, ret.
  cbv iota beta. reflexivity.
Qed.

Lemma fresh_direct_hit_sets_topic_witness :
  last_entity
    (bot (process_query
            (canned_provider {| title := "Marie Curie"; url := "u" |} "A physicist.")
            "Marie Curie" LangChainKnowledgeBot_init empty_world))
  = Some "Marie Curie".
Proof.
  rewrite (fresh_direct_hit_sets_topic
             (canned_provider {| title := "Marie Curie"; url := "u" |} "A physicist.")
             "Marie Curie" LangChainKnowledgeBot_init empty_world
             (p := {| title := "Marie Curie"; url := "u" |})
             (text := "A physicist.") (s1 := tt) (s2 := tt)
             eq_refl eq_refl eq_refl eq_refl eq_refl eq_refl eq_refl
             eq_refl eq_refl eq_refl).
  reflexivity.
Defined.

End TopicTracking.

(** ** Queries without a trigger phrase, follow-ups that are answered *)
Section Routing.
Import Py Wikipedia Wikipedia.Notations LangchainBot.
Local Open Scope py_scope.

Lemma lit_match_is_prefix (l : string) (prev : option ascii) (s : string)
  (r : option ascii * string) :
  Re.lit_match l prev s = Some r -> String.prefix l s = true.
Proof.
  revert prev s. induction l as [|c l' IH]; intros prev s H.
  - apply prefix_empty.
  - destruct s as [|d s']; [discriminate|]. cbn [Re.lit_match] in H. simpl.
    destruct (Ascii.eqb c d) eqn:E; [|discriminate].
    apply Ascii.eqb_eq in E. subst d.
    destruct (ascii_dec c c); [|contradiction]. eapply IH; eauto.
Qed.

Lemma search_needs_literal (l : string) (rest : Re.regex) (s : string)
  (prev : option ascii) :
  contains l s = false -> Re.search_from (Re.Seq (Re.Lit l) rest) prev s = None.
Proof.
  revert prev. induction s as [|c r IH]; intros prev H; cbn [contains] in H;
    apply orb_false_iff in H as [Hp Hc]; cbn [Re.search_from];
    unfold Re.match_here; cbn [Re.rmatch].
  - destruct (Re.lit_match l prev "") as [[pv s']|] eqn:E; [|reflexivity].
    apply lit_match_is_prefix in E. congruence.
  - destruct (Re.lit_match l prev (String c r)) as [[pv s']|] eqn:E.
    + apply lit_match_is_prefix in E. congruence.
    + now apply IH.
Qed.

(** X16. No trigger phrase, no entity: when the lower-cased, trimmed
    query holds none of ["ceo of"], ["president of"], ["prime minister
    of"], ["capital of"], ["who is"], ["what is"], ["tell me about"] and
    ["founder of"], [_extract_entity] returns [None], and [process_query]
    then searches for the query as a whole. *)
Theorem no_trigger_phrase_no_entity (query : string) :
  trigger_phrases
  = [ "ceo of"; "president of"; "prime minister of"; "capital of";
      "who is"; "what is"; "tell me about"; "founder of" ] /\
  ((forall kw, In kw trigger_phrases ->
               contains kw (strip (lower query)) = false) ->
   _extract_entity query = None).
Proof.
  split; [reflexivity|]. intros H.
  unfold _extract_entity, patterns, entity_pattern. cbv zeta. cbn [Re.cat].
  cbn [first_entity]. unfold Re.search.
  repeat (rewrite search_needs_literal by (apply H; simpl; tauto)).
  reflexivity.
Qed.

Lemma no_trigger_phrase_no_entity_witness :
  _extract_entity "Marie Curie" = None.
Proof.
  apply (proj2 (no_trigger_phrase_no_entity "Marie Curie")).
  intros kw Hkw. simpl in Hkw.
  repeat (destruct Hkw as [<-|Hkw]; [reflexivity|]). destruct Hkw.
Defined.

(** X17. An answered follow-up keeps the topic: when the query is a
    follow-up and [_handle_follow_up] comes back with a text that is not
    empty and holds no ["Could not find"], [process_query] returns that
    text, records the exchange and leaves [last_entity] as it was, so
    the next follow-up is resolved against the same topic. *)
Theorem answered_follow_up_keeps_topic {PS : Type} (P : Provider PS)
  (query : string) (b : LangChainKnowledgeBot) (w : World PS)
  (follow_up_response : string) :
  Bot.special_command query = false ->
  _is_follow_up (strip query) = true ->
  value (_handle_follow_up P (strip query) b w) = inr follow_up_response ->
  is_empty follow_up_response = false ->
  contains "Could not find" follow_up_response = false ->
  value (process_query P query b w) = inr follow_up_response /\
  bot (process_query P query b w)
  = {| memory := memory b ++ exchange (strip query) follow_up_response;
       last_entity := last_entity b |} /\
  world (process_query P query b w)
  = world (_handle_follow_up P (strip query) b w).
Proof.
  intros Hspecial Hfollow Hvalue Hne Hfound.
  destruct (special_command_false _ Hspecial) as (H1 & H2 & H3 & H4).
  pose proof (lc_handle_follow_up_keeps_bot P (strip query) b w) as Hkeep.
  destruct (_handle_follow_up P (strip query) b w) as [[e|fr] b1 w1] eqn:Hrun;
    simpl in Hvalue, Hkeep; [discriminate|].
  inversion Hvalue; subst fr b1.
  assert (Hp : process_query P query b w
               = MkRun (inr follow_up_response)
                   {| memory := memory b ++
                                exchange (strip query) follow_up_response;
                      last_entity := last_entity b |} w1).
  { unfold process_query. cbv zeta. rewrite H1, H2, H3, H4.
    unfold answer. cbv zeta. rewrite Hfollow.
    unfold bind at 1. unfold bind at 1. rewrite Hrun, Hne, Hfound.
    reflexivity. }
  rewrite Hp. repeat split; reflexivity.
Qed.

Lemma answered_follow_up_keeps_topic_witness :
  last_entity
    (bot (process_query
            (canned_provider {| title := "Marie Curie"; url := "u" |} "Born in Warsaw.")
            "Where was she born?"
            {| memory := ""; last_entity := Some "Marie Curie" |} empty_world))
  = Some "Marie Curie".
Proof.
  rewrite (proj1 (proj2 (answered_follow_up_keeps_topic
             (canned_provider {| title := "Marie Curie"; url := "u" |} "Born in Warsaw.")
             "Where was she born?"
             {| memory := ""; last_entity := Some "Marie Curie" |} empty_world
             (follow_up_response :=
                page_block {| title := "Marie Curie"; url := "u" |} "Born in Warsaw."
                ++ "[Read more](u)")
             eq_refl eq_refl eq_refl eq_refl eq_refl))).
  reflexivity.
Defined.

End Routing.

(** ** Patterns with finitely many matches *)
Section FiniteLanguage.
Import Py.

Lemma lit_match_drop (l : string) (prev : option ascii) (s : string)
  (pv : option ascii) (s' : string) :
  Re.lit_match l prev s = Some (pv, s') -> s' = drop (String.length l) s.
Proof.
  intros H. pose proof (lit_match_is_prefix _ _ _ H) as Hp.
  destruct (lit_match_prefix l prev s Hp) as [pv' H'].
  rewrite H in H'. now inversion H'.
Qed.

Lemma prefix_app (w1 w2 s : string) :
  String.prefix (w1 ++ w2) s
  = String.prefix w1 s && String.prefix w2 (drop (String.length w1) s).
Proof.
  revert s. induction w1 as [|c w1' IH]; intros s.
  - simpl. now rewrite prefix_empty.
  - destruct s as [|d s']; [reflexivity|]. simpl.
    destruct (ascii_dec c d); [apply IH|reflexivity].
Qed.

Lemma drop_app (w1 w2 s : string) :
  String.prefix w1 s = true ->
  drop (String.length (w1 ++ w2)) s
  = drop (String.length w2) (drop (String.length w1) s).
Proof.
  revert s. induction w1 as [|c w1' IH]; intros s H; [reflexivity|].
  destruct s as [|d s']; [discriminate|]. simpl in H |- *.
  destruct (ascii_dec c d); [now apply IH|discriminate].
Qed.

Lemma rmatch_words {R} (r : Re.regex) :
  forall ws, Re.words r = Some ws ->
  forall (k : Re.cont R), Re.by_position k ->
  forall prev s caps,
    Re.rmatch r prev s caps k <> None <->
    exists w, In w ws /\ String.prefix w s = true /\
              Re.succeeds_at k (drop (String.length w) s).
Proof.
  induction r as [l|p| | | |r1 IH1 r2 IH2|r1 IH1 r2 IH2|r1 IH1|p|p|i r1 IH1];
    intros ws Hws k Hk prev s caps; cbn [Re.words] in Hws; try discriminate.
  - inversion Hws; subst ws. cbn [Re.rmatch]. split.
    + destruct (Re.lit_match l prev s) as [[pv s']|] eqn:E; [|congruence].
      intros Hm. exists l. split; [now left|].
      split; [eapply lit_match_is_prefix; eauto|].
      rewrite <- (lit_match_drop _ _ _ E). exists pv, caps. exact Hm.
    + intros (w & [<-|[]] & Hp & pv & cs & Hs).
      destruct (lit_match_prefix l prev s Hp) as [pv' ->].
      eapply Hk; eauto.
  - destruct (Re.words r1) as [ws1|] eqn:E1; [|discriminate].
    destruct (Re.words r2) as [ws2|] eqn:E2; [|discriminate].
    inversion Hws; subst ws. cbn [Re.rmatch].
    assert (Hk2 : Re.by_position (fun pv s' cs => Re.rmatch r2 pv s' cs k)).
    { intros s' pv cs pv' cs' Hm.
      apply (IH2 _ eq_refl k Hk). now apply (IH2 _ eq_refl k Hk) in Hm. }
    rewrite (IH1 _ eq_refl _ Hk2). split.
    + intros (w1 & Hin1 & Hp1 & pv & cs & Hm).
      apply (IH2 _ eq_refl k Hk) in Hm as (w2 & Hin2 & Hp2 & Hs).
      exists (w1 ++ w2). split; [|split].
      * apply in_flat_map. exists w1. split; [exact Hin1|].
        apply in_map. exact Hin2.
      * now rewrite prefix_app, Hp1, Hp2.
      * now rewrite drop_app.
    + intros (w & Hin & Hp & Hs).
      apply in_flat_map in Hin as (w1 & Hin1 & Hin).
      apply in_map_iff in Hin as (w2 & <- & Hin2).
      rewrite prefix_app in Hp. apply andb_true_iff in Hp as [Hp1 Hp2].
      rewrite drop_app in Hs by exact Hp1.
      exists w1. split; [exact Hin1|]. split; [exact Hp1|].
      exists None, []. apply (IH2 _ eq_refl k Hk). eauto.
  - destruct (Re.words r1) as [ws1|] eqn:E1; [|discriminate].
    destruct (Re.words r2) as [ws2|] eqn:E2; [|discriminate].
    inversion Hws; subst ws. cbn [Re.rmatch]. split.
    + destruct (Re.rmatch r1 prev s caps k) eqn:E.
      * intros _.
        assert (Hm : Re.rmatch r1 prev s caps k <> None) by congruence.
        apply (IH1 _ eq_refl k Hk) in Hm as (w & Hin & H).
        exists w. split; [apply in_or_app; now left|exact H].
      * intros Hm. apply (IH2 _ eq_refl k Hk) in Hm as (w & Hin & H).
        exists w. split; [apply in_or_app; now right|exact H].
    + intros (w & Hin & H). apply in_app_or in Hin as [Hin|Hin].
      * assert (Hm : Re.rmatch r1 prev s caps k <> None)
          by (apply (IH1 _ eq_refl k Hk); eauto).
        destruct (Re.rmatch r1 prev s caps k); congruence.
      * destruct (Re.rmatch r1 prev s caps k); [congruence|].
        apply (IH2 _ eq_refl k Hk). eauto.
  - destruct (Re.words r1) as [ws1|] eqn:E1; [|discriminate].
    inversion Hws; subst ws. cbn [Re.rmatch]. split.
    + destruct (Re.rmatch r1 prev s caps k) eqn:E.
      * intros _.
        assert (Hm : Re.rmatch r1 prev s caps k <> None) by congruence.
        apply (IH1 _ eq_refl k Hk) in Hm as (w & Hin & H).
        exists w. split; [apply in_or_app; now left|exact H].
      * intros Hm. exists "". split; [apply in_or_app; right; now left|].
        split; [apply prefix_empty|]. exists prev, caps. exact Hm.
    + intros (w & Hin & Hp & Hs). apply in_app_or in Hin as [Hin|[<-|[]]].
      * assert (Hm : Re.rmatch r1 prev s caps k <> None)
          by (apply (IH1 _ eq_refl k Hk); eauto).
        destruct (Re.rmatch r1 prev s caps k); congruence.
      * destruct (Re.rmatch r1 prev s caps k); [congruence|].
        destruct Hs as (pv & cs & Hs). simpl in Hs. eapply Hk; eauto.
  - cbn [Re.rmatch].
    assert (Hk' : Re.by_position
              (fun pv s' cs =>
                 k pv s' ((i, take (String.length s - String.length s') s) :: cs))).
    { intros s' pv cs pv' cs' Hm. eapply Hk; eauto. }
    rewrite (IH1 _ Hws _ Hk'). split.
    + intros (w & Hin & Hp & pv & cs & Hs). exists w. repeat split; eauto.
      exists pv. eexists. exact Hs.
    + intros (w & Hin & Hp & pv & cs & Hs). exists w. repeat split; eauto.
      exists pv, cs. eapply Hk; eauto.
Qed.

Lemma search_from_words (r : Re.regex) (ws : list string) :
  Re.words r = Some ws ->
  forall s prev,
    Re.search_from r prev s <> None <->
    exists w, In w ws /\ contains w s = true.
Proof.
  intros Hws.
  assert (Hhere : forall s prev,
             Re.match_here r prev s <> None <->
             exists w, In w ws /\ String.prefix w s = true).
  { intros s prev. unfold Re.match_here.
    rewrite (rmatch_words r Hws); [|intros s' pv cs pv' cs' _; discriminate].
    split.
    - intros (w & Hin & Hp & _). eauto.
    - intros (w & Hin & Hp). exists w. split; [exact Hin|].
      split; [exact Hp|]. exists None, []. discriminate. }
  induction s as [|c s' IH]; intros prev; cbn [Re.search_from].
  - destruct (Re.match_here r prev "") as [[n caps]|] eqn:E.
    + split; [|discriminate]. intros _.
      assert (Hm : Re.match_here r prev "" <> None) by congruence.
      apply Hhere in Hm as (w & Hin & Hp). exists w. split; [exact Hin|].
      cbn [contains]. now rewrite Hp.
    + split; [congruence|]. intros (w & Hin & Hc). exfalso.
      cbn [contains] in Hc. rewrite orb_false_r in Hc.
      assert (Hm : Re.match_here r prev "" <> None) by (apply Hhere; eauto).
      congruence.
  - destruct (Re.match_here r prev (String c s')) as [[n caps]|] eqn:E.
    + split; [|discriminate]. intros _.
      assert (Hm : Re.match_here r prev (String c s') <> None) by congruence.
      apply Hhere in Hm as (w & Hin & Hp). exists w. split; [exact Hin|].
      cbn [contains]. now rewrite Hp.
    + rewrite IH. split; intros (w & Hin & Hc); exists w; split; auto.
      * cbn [contains]. rewrite Hc. apply orb_true_r.
      * cbn [contains] in Hc. apply orb_true_iff in Hc as [Hp|Hc]; [|exact Hc].
        exfalso.
        assert (Hm : Re.match_here r prev (String c s') <> None)
          by (apply Hhere; eauto).
        congruence.
Qed.

Lemma search_opening_iff (l s : string) :
  Re.search (Re.Seq Re.Bol (Re.Lit l)) s <> None <-> startswith s l = true.
Proof.
  assert (Hlater : forall t c, Re.search_from (Re.Seq Re.Bol (Re.Lit l)) (Some c) t = None).
  { induction t as [|d t' IH]; intros c; cbn [Re.search_from];
      unfold Re.match_here; cbn [Re.rmatch]; [reflexivity|apply IH]. }
  unfold Re.search, startswith. split.
  - intros H. destruct (String.prefix l s) eqn:Hp; [reflexivity|]. exfalso.
    apply H. destruct s as [|c s']; cbn [Re.search_from]; unfold Re.match_here;
      cbn [Re.rmatch].
    + destruct (Re.lit_match l None "") as [[pv t]|] eqn:E; [|reflexivity].
      apply lit_match_is_prefix in E. congruence.
    + destruct (Re.lit_match l None (String c s')) as [[pv t]|] eqn:E;
        [|apply Hlater].
      apply lit_match_is_prefix in E. congruence.
  - intros H. destruct (search_opening l s H) as [caps Hs].
    unfold Re.search in Hs. congruence.
Qed.

End FiniteLanguage.

(** ** The follow-up classifier as a list of phrase tests *)
Section FollowUpPhrases.
Import Py LangchainBot.

Lemma possessive_words :
  Re.words (nth 9 follow_up_patterns (Re.Lit "")) = Some possessive_phrases.
Proof. reflexivity. Qed.

Lemma search_words_found (r : Re.regex) (ws : list string) (s w : string) :
  Re.words r = Some ws -> In w ws -> contains w s = true ->
  match Re.search r s with Some _ => true | None => false end = true.
Proof.
  intros Hws Hin Hc.
  assert (H : Re.search_from r None s <> None)
    by (apply (search_from_words r Hws); eauto).
  unfold Re.search. destruct (Re.search_from r None s); congruence.
Qed.

Lemma search_words_only (r : Re.regex) (ws : list string) (s : string) :
  Re.words r = Some ws ->
  match Re.search r s with Some _ => true | None => false end = true ->
  exists w, In w ws /\ contains w s = true.
Proof.
  intros Hws H. apply (search_from_words r Hws s None).
  unfold Re.search in H. destruct (Re.search_from r None s); congruence.
Qed.

Lemma search_opening_only (l s : string) :
  match Re.search (Re.Seq Re.Bol (Re.Lit l)) s with
  | Some _ => true | None => false end = true ->
  startswith s l = true.
Proof.
  intros H. apply search_opening_iff.
  destruct (Re.search (Re.Seq Re.Bol (Re.Lit l)) s); congruence.
Qed.

(** X18. [_is_follow_up] is a plain phrase test on the lower-cased,
    trimmed query: it holds exactly when the query opens with one of the
    twelve opening phrases, or holds anywhere one of the sixteen
    possessive phrases (["what his "], ["what's her "], ["what is their "],
    ["what was its "], ...) or one of the twelve attribute words. *)
Theorem follow_up_is_a_phrase_test (query : string) :
  possessive_phrases
  = [ "what's his "; "what's her "; "what's their "; "what's its ";
      "what is his "; "what is her "; "what is their "; "what is its ";
      "what was his "; "what was her "; "what was their "; "what was its ";
      "what his "; "what her "; "what their "; "what its " ] /\
  (_is_follow_up query = true <->
   (exists phrase, In phrase opening_phrases /\
                   startswith (strip (lower query)) phrase = true) \/
   (exists phrase, In phrase (possessive_phrases ++ floating_phrases) /\
                   contains phrase (strip (lower query)) = true)).
Proof.
  split; [reflexivity|].
  unfold _is_follow_up. cbv zeta. set (ql := strip (lower query)).
  split.
  - intros H. apply existsb_exists in H as (pattern & Hin & Hs).
    simpl in Hin.
    repeat (destruct Hin as [<-|Hin];
      [first
         [ left; apply (@search_opening_only _ _) in Hs;
           eexists; split; [|exact Hs]; simpl; tauto
         | right; apply (@search_words_only _ _ _ possessive_words) in Hs;
           destruct Hs as (w & Hw & Hc); exists w; split; [|exact Hc];
           apply in_or_app; left; exact Hw
         | right;
           apply (@search_words_only (Re.Lit _) [_] _ eq_refl) in Hs;
           destruct Hs as (w & [<-|[]] & Hc); eexists; split; [|exact Hc];
           apply in_or_app; right; simpl; tauto ]|]).
    destruct Hin.
  - intros [(phrase & Hin & H)|(phrase & Hin & H)].
    + apply (proj1 (follow_up_by_surface_phrase query phrase) Hin H).
    + apply in_app_or in Hin as [Hin|Hin].
      * apply existsb_in with (x := nth 9 follow_up_patterns (Re.Lit ""));
          [simpl; tauto|].
        exact (@search_words_found _ _ _ _ possessive_words Hin H).
      * apply (proj2 (follow_up_by_surface_phrase query phrase) Hin H).
Qed.

End FollowUpPhrases.
